(** * x-map: the geocode endpoint and the breaking-news discovery stream

    A shallow embedding of the route handlers of the repository,
    [src/app/api/geocode/route.ts],
    [src/app/api/grok/breaking-news/route.ts] and the located-posts
    handler of [src/app/api/x-api/geo/route.ts], and of the page's reader
    of the discovery stream, with the properties their specification
    states about them and further properties of the code.

    Conventions.  Instants and durations are integers of milliseconds
    ([Z]), as [Date.now()] gives them.  A JavaScript string is the
    sequence of its UTF-16 code units; a [string] holds one code unit
    per character, so that the texts of the model are those whose code
    units are below 256 (ISO 8859-1).  On these texts [trim], the regular
    expression class [\s] and [toLowerCase] are modelled in full: the
    white space is tab, line feed, vertical tab, form feed, carriage
    return, space and the no-break space U+00A0 (all the other white
    space of the language has code units from 256 on), and [toLowerCase]
    changes the letters A to Z and the capital letters from U+00C0 to
    U+00DE.  Numbers that the handlers only store and copy (longitudes
    and latitudes) are rationals.  Everything the handlers obtain from
    outside the process (clock readings, HTTP responses of the providers,
    results of the database client) is a field of a record describing the
    outside world, so that every theorem quantifies over all behaviours
    of the outside. *)

From Stdlib Require Import ZArith String Ascii List Lia Bool.
From Stdlib Require QArith.
From stdpp Require Import base gmap strings list pretty.

Import ListNotations.
Local Open Scope string_scope.
Local Open Scope list_scope.
Local Open Scope Z_scope.

Definition number : Type := QArith_base.Q.

(** ** The JavaScript string and array primitives the handlers use *)

Module JS.

(** A value is falsy when it is absent or the empty string. *)
Definition truthy (o : option string) : bool :=
  match o with
  | Some s => negb (String.eqb s "")
  | None => false
  end.

(** [a || b] on possibly absent strings. *)
Definition orElse (o : option string) (d : string) : string :=
  match o with
  | Some s => if String.eqb s "" then d else s
  | None => d
  end.

(** The white space of [trim] and of [\s] among the code units below
    256: U+0009 to U+000D, U+0020 and U+00A0. *)
Definition isSpace (c : ascii) : bool :=
  let n := N_of_ascii c in
  (N.eqb n 32 || (N.leb 9 n && N.leb n 13) || N.eqb n 160)%bool.

Fixpoint trimStart (s : string) : string :=
  match s with
  | EmptyString => EmptyString
  | String c r => if isSpace c then trimStart r else s
  end.

Definition trimEnd (s : string) : string :=
  String.rev (trimStart (String.rev s)).

Definition trim (s : string) : string := trimEnd (trimStart s).

(** [s.replace(/\s+/g, ' ')]: [inRun] tells that the previous character
    was white space already replaced. *)
Fixpoint collapseFrom (inRun : bool) (s : string) : string :=
  match s with
  | EmptyString => EmptyString
  | String c r =>
      if isSpace c
      then (if inRun then collapseFrom true r
            else String " "%char (collapseFrom true r))
      else String c (collapseFrom false r)
  end.

Definition collapseSpaces (s : string) : string := collapseFrom false s.

(** [s.split(sep)] for a one-character separator: never empty. *)
Fixpoint split (sep : ascii) (s : string) : list string :=
  match s with
  | EmptyString => [EmptyString]
  | String c r =>
      if Ascii.eqb c sep then EmptyString :: split sep r
      else match split sep r with
           | [] => [String c EmptyString]
           | w :: ws => String c w :: ws
           end
  end.

Fixpoint join (sep : string) (l : list string) : string :=
  match l with
  | [] => ""
  | [x] => x
  | x :: r => x +:+ sep +:+ join sep r
  end.

(** [arr.slice(0, n)] *)
Definition slice0 {A} (n : nat) (l : list A) : list A := firstn n l.

(** [arr.indexOf(x)]: the first position holding [x], if any. *)
Fixpoint indexOf (x : string) (l : list string) : option nat :=
  match l with
  | [] => None
  | y :: r => if String.eqb x y then Some O
              else option_map S (indexOf x r)
  end.

(** [arr.includes(x)] *)
Definition includes (l : list string) (x : string) : bool :=
  existsb (String.eqb x) l.

(** [arr.filter((q, i, arr) => arr.indexOf(q) === i)] *)
Fixpoint filterFirstFrom (arr : list string) (i : nat) (l : list string)
  : list string :=
  match l with
  | [] => []
  | q :: r =>
      let keep := match indexOf q arr with
                  | Some j => Nat.eqb j i
                  | None => false
                  end in
      if keep then q :: filterFirstFrom arr (S i) r
      else filterFirstFrom arr (S i) r
  end.

Definition removeDuplicates (arr : list string) : list string :=
  filterFirstFrom arr O arr.

(** [toLowerCase] on one code unit below 256: the letters A to Z, and
    the capital letters U+00C0 to U+00DE (the multiplication sign U+00D7
    is not a letter), are 32 below their small letters. *)
Definition lowerChar (c : ascii) : ascii :=
  let n := N_of_ascii c in
  if ((N.leb 65 n && N.leb n 90) ||
      (N.leb 192 n && N.leb n 222 && negb (N.eqb n 215)))%bool
  then ascii_of_N (n + 32) else c.

Fixpoint toLowerCase (s : string) : string :=
  match s with
  | EmptyString => EmptyString
  | String c r => String (lowerChar c) (toLowerCase r)
  end.

(** [s.includes(c)] for a one-character needle. *)
Fixpoint hasChar (c : ascii) (s : string) : bool :=
  match s with
  | EmptyString => false
  | String d r => (Ascii.eqb c d || hasChar c r)%bool
  end.

(** [String.fromCharCode(n)] for a code unit [n] below 256. *)
Definition fromCharCode (n : nat) : string := String (ascii_of_nat n) EmptyString.

(** The line feed and the double quote, for the texts that contain them. *)
Definition nl : string := String (ascii_of_nat 10) EmptyString.
Definition dq : string := String (ascii_of_nat 34) EmptyString.

(** Nothing but white space (the empty string included). *)
Fixpoint isBlank (s : string) : bool :=
  match s with
  | EmptyString => true
  | String c r => isSpace c && isBlank r
  end.

(** [Math.ceil(x / d)] for an integer [x] and a positive integer [d]. *)
Definition ceilDiv (x d : Z) : Z := - ((- x) / d).

End JS.

(** ** The geocode endpoint ([src/app/api/geocode/route.ts]) *)

Module Geocode.

(** *** Process-wide state *)

Record cacheEntry := CacheEntry {
  lat : number;
  lon : number;
  display_name : string;
  timestamp : Z
}.

(** [geocodeCache] is a JavaScript [Map]: its keys are kept in insertion
    order, which the size bound relies on, hence an association list. *)
Definition cacheMap : Type := list (string * cacheEntry).

Fixpoint mapGet (k : string) (m : cacheMap) : option cacheEntry :=
  match m with
  | [] => None
  | (k', v) :: r => if String.eqb k k' then Some v else mapGet k r
  end.

Definition mapHas (k : string) (m : cacheMap) : bool :=
  match mapGet k m with Some _ => true | None => false end.

Fixpoint mapDelete (k : string) (m : cacheMap) : cacheMap :=
  match m with
  | [] => []
  | (k', v) :: r => if String.eqb k k' then r else (k', v) :: mapDelete k r
  end.

(** [Map.set] keeps the position of a key that is already present. *)
Fixpoint mapSet (k : string) (v : cacheEntry) (m : cacheMap) : cacheMap :=
  match m with
  | [] => [(k, v)]
  | (k', v') :: r =>
      if String.eqb k k' then (k', v) :: r else (k', v') :: mapSet k v r
  end.

Definition mapFirstKey (m : cacheMap) : option string :=
  match m with
  | [] => None
  | (k, _) :: _ => Some k
  end.

Record rateLimit := RateLimit { count : Z; resetAt : Z }.

Record server := Server {
  geocodeCache : cacheMap;
  rateLimitMap : gmap string rateLimit
}.

Definition RATE_LIMIT_WINDOW : Z := 60 * 1000.
Definition MAX_REQUESTS_PER_WINDOW : Z := 50.
Definition CACHE_TTL : Z := 24 * 60 * 60 * 1000.

(** [cleanupCache], run by a timer every hour. *)
Definition cleanupCache (now : Z) (m : cacheMap) : cacheMap :=
  List.filter (fun kv => negb (CACHE_TTL <? now - timestamp (snd kv))) m.

(** *** The rate limiter *)

Record rateLimitResult := RateLimitResult {
  allowed : bool;
  retryAfter : option Z
}.

Definition bucketKey (ip : string) : string :=
  if String.eqb ip "" then "default" else ip.

Definition checkRateLimit (now : Z) (ip : string) (m : gmap string rateLimit)
  : rateLimitResult * gmap string rateLimit :=
  let key := bucketKey ip in
  match m !! key with
  | None =>
      (RateLimitResult true None,
       <[key := RateLimit 1 (now + RATE_LIMIT_WINDOW)]> m)
  | Some limit =>
      if resetAt limit <? now then
        (RateLimitResult true None,
         <[key := RateLimit 1 (now + RATE_LIMIT_WINDOW)]> m)
      else if MAX_REQUESTS_PER_WINDOW <=? count limit then
        (RateLimitResult false (Some (JS.ceilDiv (resetAt limit - now) 1000)), m)
      else
        (RateLimitResult true None,
         <[key := RateLimit (count limit + 1) (resetAt limit)]> m)
  end.

(** *** The two providers *)

Record photonFeature := PhotonFeature {
  pf_coordinates : number * number;
  pf_name : string;
  pf_city : option string;
  pf_country : option string
}.

(** [lon] and [lat] of a Nominatim result are the numbers [parseFloat]
    reads from its two decimal strings. *)
Record nominatimResult := NominatimResult {
  nr_lon : number;
  nr_lat : number;
  nr_display_name : string
}.

Inductive responseJson :=
| JsonMalformed (message : string)
| JsonFeatures (features : list photonFeature)
| JsonArray (results : list nominatimResult)
| JsonOther.

Inductive fetchOutcome :=
| FetchRejects (name message : string)
| FetchResponds (status : Z) (json : responseJson).

(** What the outside does on each attempt of one resolution. *)
Record upstream := Upstream {
  nominatim : nat -> fetchOutcome;
  photon : nat -> fetchOutcome
}.

Inductive effect :=
| CacheHas (key : string)
| CacheGet (key : string)
| CacheDelete (key : string)
| CacheSet (key : string)
| RateLimitCheck (ip : string)
| NominatimCall (q : string)
| PhotonCall (q : string).

Definition isUpstream (e : effect) : bool :=
  match e with
  | NominatimCall _ | PhotonCall _ => true
  | _ => false
  end.

Definition isCacheAccess (e : effect) : bool :=
  match e with
  | CacheHas _ | CacheGet _ | CacheDelete _ | CacheSet _ => true
  | _ => false
  end.

Definition isRateLimit (e : effect) : bool :=
  match e with
  | RateLimitCheck _ => true
  | _ => false
  end.

Inductive geocodeResult :=
| GeocodeOk (coordinates : number * number) (display_name : string)
| GeocodeFail (error : string).

Definition isOk (status : Z) : bool := (200 <=? status) && (status <=? 299).

Definition isTimeout (name : string) : bool :=
  String.eqb name "AbortError" || String.eqb name "TimeoutError".

(** The part of one attempt after a response was obtained. *)
Definition interpretJson (j : responseJson) : geocodeResult + string :=
  match j with
  | JsonMalformed msg => inr msg
  | JsonFeatures (f :: _) =>
      inl (GeocodeOk (pf_coordinates f)
             (pf_name f +:+ ", " +:+
              JS.orElse (pf_city f) (JS.orElse (pf_country f) "")))
  | JsonArray (r :: _) =>
      inl (GeocodeOk (nr_lon r, nr_lat r) (nr_display_name r))
  | _ => inl (GeocodeFail "Location not found")
  end.

(** [geocodeWithRetry]: the loop [for (attempt = 0; attempt <= retries;
    attempt++)], with [left] the number of iterations still allowed.
    The pauses between attempts are not modelled. *)
Fixpoint geocodeAttempts (up : upstream) (q : string) (retries attempt : nat)
  (left : nat) : list effect * geocodeResult :=
  match left with
  | O => ([], GeocodeFail "Failed after retries")
  | S left' =>
      let again (done : list effect) (otherwise : geocodeResult) :=
        if (attempt <? retries)%nat then
          let '(es, r) := geocodeAttempts up q retries (S attempt) left' in
          (done ++ es, r)
        else (done, otherwise) in
      let caught (done : list effect) (name message : string) :=
        if isTimeout name
        then again done (GeocodeFail "Geocoding request timed out")
        else again done
               (GeocodeFail (if String.eqb message ""
                             then "Failed to geocode location" else message)) in
      let answered (done : list effect) (status : Z) (j : responseJson) :=
        if status =? 429 then
          again done (GeocodeFail "Rate limit exceeded. Please try again later.")
        else if negb (isOk status) then
          again done (GeocodeFail ("Geocoding failed: " +:+ pretty status))
        else match interpretJson j with
             | inl r => (done, r)
             | inr msg => caught done "SyntaxError" msg
             end in
      match nominatim up attempt with
      | FetchResponds status j => answered [NominatimCall q] status j
      | FetchRejects _ _ =>
          match photon up attempt with
          | FetchResponds status j =>
              answered [NominatimCall q; PhotonCall q] status j
          | FetchRejects name message =>
              caught [NominatimCall q; PhotonCall q] name message
          end
      end
  end.

Definition geocodeWithRetry (up : upstream) (location : string)
  : list effect * geocodeResult :=
  geocodeAttempts up (JS.trim location) 2 0 3.

(** *** The handler *)

Record request := Request {
  location : option string;
  x_forwarded_for : option string;
  x_real_ip : option string
}.

(** The three readings of [Date.now()] one request can make. *)
Record world := World {
  nowCache : Z;
  nowLimit : Z;
  nowStore : Z;
  providers : upstream
}.

Inductive responseBody :=
| BodyError (error : string)
| BodySuccess (location : string) (coordinates : number * number)
    (display_name : string) (cached : bool)
| BodyRateLimited (error message : string) (retryAfter : option Z)
| BodyFailure (error : string).

Record response := Response {
  status : Z;
  headers : list (string * string);
  body : responseBody
}.

Definition clientIp (r : request) : string :=
  let forwarded :=
    match x_forwarded_for r with
    | Some h => Some (hd "" (JS.split ","%char h))
    | None => None
    end in
  JS.orElse forwarded (JS.orElse (x_real_ip r) "unknown").

Definition retryAfterText (o : option Z) : string :=
  match o with
  | Some n => pretty n
  | None => "undefined"
  end.

Definition containsNotFound (s : string) : bool :=
  match String.index 0 "not found" s with Some _ => true | None => false end.

(** The bound on the size of the cache, applied after an entry was
    stored: [if (geocodeCache.size > 1000)] the first key, when it is
    truthy, is deleted. *)
Definition evict (cache1 : cacheMap) : list effect * cacheMap :=
  if (1000 <? length cache1)%nat then
    match mapFirstKey cache1 with
    | Some firstKey =>
        if String.eqb firstKey "" then ([], cache1)
        else ([CacheDelete firstKey], mapDelete firstKey cache1)
    | None => ([], cache1)
    end
  else ([], cache1).

Definition GET (w : world) (r : request) (s : server)
  : response * list effect * server :=
  match location r with
  | None =>
      (Response 400 [] (BodyError "location parameter is required"), [], s)
  | Some location =>
      if String.eqb location "" || String.eqb (JS.trim location) "" then
        (Response 400 [] (BodyError "location parameter is required"), [], s)
      else
        let locationKey := JS.toLowerCase (JS.trim location) in
        let hit :=
          if mapHas locationKey (geocodeCache s)
          then mapGet locationKey (geocodeCache s) else None in
        let fresh :=
          match hit with
          | Some cached => nowCache w - timestamp cached <? CACHE_TTL
          | None => false
          end in
        match hit, fresh with
        | Some cached, true =>
            (Response 200 []
               (BodySuccess location (lon cached, lat cached)
                  (display_name cached) true),
             [CacheHas locationKey; CacheGet locationKey], s)
        | _, _ =>
            let '(es0, cache0) :=
              match hit with
              | Some _ =>
                  ([CacheHas locationKey; CacheGet locationKey;
                    CacheDelete locationKey],
                   mapDelete locationKey (geocodeCache s))
              | None => ([CacheHas locationKey], geocodeCache s)
              end in
            let ip := clientIp r in
            let '(rateLimit, limits) :=
              checkRateLimit (nowLimit w) ip (rateLimitMap s) in
            let es1 := es0 ++ [RateLimitCheck ip] in
            if negb (allowed rateLimit) then
              (Response 429
                 [("Retry-After",
                   match retryAfter rateLimit with
                   | Some n => pretty n
                   | None => "60"
                   end)]
                 (BodyRateLimited "Rate limit exceeded"
                    ("Too many requests. Please try again in " +:+
                     retryAfterText (retryAfter rateLimit) +:+ " seconds.")
                    (retryAfter rateLimit)),
               es1, Server cache0 limits)
            else
              let '(es2, result) := geocodeWithRetry (providers w) location in
              match result with
              | GeocodeFail error =>
                  (Response (if containsNotFound error then 404 else 500) []
                     (BodyFailure (if String.eqb error ""
                                   then "Failed to geocode location" else error)),
                   es1 ++ es2, Server cache0 limits)
              | GeocodeOk coordinates name =>
                  let cache1 :=
                    mapSet locationKey
                      (CacheEntry (snd coordinates) (fst coordinates) name
                         (nowStore w)) cache0 in
                  let '(es3, cache2) := evict cache1 in
                  (Response 200 []
                     (BodySuccess location coordinates name false),
                   es1 ++ es2 ++ [CacheSet locationKey] ++ es3,
                   Server cache2 limits)
              end
        end
  end.

(** The handler serving a sequence of requests one after the other:
    the responses with their effects, and the state left behind. *)
Fixpoint serve (s : server) (rs : list (world * request))
  : list (response * list effect) * server :=
  match rs with
  | [] => ([], s)
  | (w, r) :: rest =>
      let '(resp, es, s1) := GET w r s in
      let '(outs, s2) := serve s1 rest in
      ((resp, es) :: outs, s2)
  end.

(** The requests of [rs] that the limiter counted for the client [ip],
    each with its answer [outs] has for it: the requests of that client
    for which the limiter was consulted. *)
Definition countedFor (ip : string) (rs : list (world * request))
  (outs : list (response * list effect))
  : list ((world * request) * (response * list effect)) :=
  List.filter
    (fun p => String.eqb (clientIp (snd (fst p))) ip &&
              existsb isRateLimit (snd (snd p)))
    (combine rs outs).

(** The request names a location that is not blank and for which the
    cache of [s] holds no entry younger than 24 hours. *)
Definition reachesLimiter (w : world) (r : request) (s : server) : Prop :=
  exists l,
    location r = Some l /\ JS.trim l <> "" /\
    match mapGet (JS.toLowerCase (JS.trim l)) (geocodeCache s) with
    | Some cached => CACHE_TTL <= nowCache w - timestamp cached
    | None => True
    end.

End Geocode.

(** ** The discovery stream ([src/app/api/grok/breaking-news/route.ts]) *)

Module BreakingNews.

(** A call either returns a value or throws. *)
Inductive outcome (A : Type) :=
| Returned (a : A)
| Thrown (message : string).
Arguments Returned {A} a.
Arguments Thrown {A} message.

(** *** Times *)

(** An ISO-8601 text: [IsoOf ms] is [new Date(ms).toISOString()],
    [IsoText s] a text passed through as it came. *)
Inductive isoTime :=
| IsoOf (ms : Z)
| IsoText (s : string).

Inductive timeValue :=
| TimeMissing
| TimeDate (ms : Z)
| TimeString (s : string)
| TimeOther.

(** [parseDate] is the reading [new Date(s)] makes of a text, [None]
    for an invalid date; [now] is the clock when the call is made. *)
Definition toISOStringSafe (parseDate : string -> option Z) (now : Z)
  (timestamp : timeValue) : isoTime :=
  match timestamp with
  | TimeMissing => IsoOf now
  | TimeDate ms => IsoOf ms
  | TimeString s =>
      if String.eqb s "" then IsoOf now
      else if JS.hasChar "T"%char s && JS.hasChar "Z"%char s then IsoText s
      else match parseDate s with
           | Some ms => IsoOf ms
           | None => IsoOf now
           end
  | TimeOther => IsoOf now
  end.

(** *** Data *)

Definition coords : Type := number * number.

(** A social post as a [news] frame carries it. *)
Record post := Post {
  p_author : string;
  p_name : string;
  p_text : string;
  p_url : string;
  p_id : string;
  p_timestamp : option isoTime;
  p_likes : Z;
  p_replies : Z;
  p_reposts : Z;
  p_profile_pic : option string;
  p_verified : bool
}.

Record newsItem := NewsItem {
  id : string;
  headline : string;
  location : string;
  summary : option string;
  category : string;
  coordinates : coords;
  timestamp : isoTime;
  top_tweets : list post
}.

(** Rows of the store.  The store keeps the three counters of a post as
    decimal text; the rows here hold the numbers. *)
Record tweetRow := TweetRow {
  tr_id : string;
  tr_author : string;
  tr_name : option string;
  tr_text : string;
  tr_url : string;
  tr_timestamp : timeValue;
  tr_likes : Z;
  tr_replies : Z;
  tr_reposts : Z;
  tr_profilePic : option string
}.

Record newsRow := NewsRow {
  ni_id : string;
  ni_headline : string;
  ni_location : string;
  ni_summary : string;
  ni_category : string;
  ni_coordinates : string;
  ni_timestamp : Z;
  ni_tweets : list tweetRow
}.

Record searchQueryRow := SearchQueryRow {
  sq_id : string;
  sq_originalQuery : string;
  sq_normalizedKey : string;
  sq_timestamp : Z;
  sq_items : list newsRow
}.

(** One [report_news] tool call, once its arguments are parsed. *)
Record args := Args {
  a_headline : option string;
  a_location : option string;
  a_summary : option string;
  a_category : option string;
  a_timestamp : option string;
  a_search_query : option string
}.

Inductive frame :=
| Connected (message : string)
| Status (message : string)
| News (news : newsItem)
| Error (message : string)
| Complete.

(** *** The outside world *)

Inductive normalizeOutcome :=
| NormalizeFails
| NormalizeJson (key scope : option string).

(** One round of the model: the request can fail, the response can have
    no body, reading it can fail; otherwise the accumulated tool calls
    are given in the order of their first fragment, [None] for
    arguments that [JSON.parse] rejects. *)
Inductive llmOutcome :=
| LlmRejects
| LlmNotOk
| LlmNoBody
| LlmReadFails
| LlmCalls (calls : list (option args)).

Inductive photonOutcome :=
| PhotonRejects
| PhotonNotOk
| PhotonMalformed
| PhotonFeatures (features : list (option coords)).

Record rawTweet := RawTweet {
  rt_id : string;
  rt_text : option string;
  rt_author_id : string;
  rt_lang : string;
  rt_created_at : option string;
  rt_like_count : option Z;
  rt_reply_count : option Z;
  rt_retweet_count : option Z
}.

Record xUser := XUser {
  xu_id : string;
  xu_username : option string;
  xu_name : option string;
  xu_profile_image_url : option string;
  xu_verified : option bool
}.

Inductive xData :=
| DataAbsent
| DataMalformed
| DataList (tweets : list rawTweet).

Inductive xUsers :=
| UsersAbsent
| UsersMalformed
| UsersList (users : list xUser).

Inductive xOutcome :=
| XRejects (message : string)
| XNotOk (status : Z)
| XBadJson (message : string)
| XBody (data : xData) (users : xUsers).

(** Everything a run obtains from outside.  The calls made while
    candidate [i] of round [attempt] is processed are indexed by
    [attempt] and [i]; a search is further indexed by the position of
    the query variant and receives the query sent. *)
Record world := World {
  XAI_API_KEY : option string;
  X_BEARER_TOKEN : option string;
  queryParam : option string;
  (** the client aborts while the handler waits for the [n]-th time *)
  abortAt : option nat;
  normalizeAnswer : normalizeOutcome;
  table : list searchQueryRow;
  lookupFails : option string;
  parseDate : string -> option Z;
  parseCoordinates : string -> option coords;
  nowSixHours : Z;
  nowSevenDays : Z;
  nowReplay : Z;
  processStartTime : Z;
  loopNow : nat -> Z;
  itemNow : nat -> nat -> Z;
  llm : nat -> llmOutcome;
  photon : nat -> nat -> photonOutcome;
  xSearch : nat -> nat -> nat -> string -> xOutcome;
  randomUUID : nat -> nat -> string;
  createSucceeds : nat -> nat -> bool;
  findExisting : nat -> nat -> outcome (option string);
  existingQuery : nat -> outcome (option string);
  linkSucceeds : nat -> bool;
  queryUUID : nat -> string
}.

Inductive effect :=
| Enqueue (f : frame)
| NormalizeCall (query : string)
| CacheLookup (normalizedKey : string)
| LlmCall (attempt : nat) (userContent : string)
| GeocodeCall (location : string)
| TweetSearch (query headline : string)
| DbCreate (item : newsItem) (ok : bool)
| DbFindExisting (headline location : string) (found : outcome (option string))
| DbLinkQuery (queryId : string) (bump : bool) (ids : list string) (ok : bool)
| DbFindQuery (normalizedKey : string) (found : outcome (option string))
| DbCreateQuery (queryId originalQuery normalizedKey : string)
    (ids : list string) (ok : bool).

(** *** Helpers of the route *)

Definition geocodeLocation (o : photonOutcome) : option coords :=
  match o with
  | PhotonFeatures (Some c :: _) => Some c
  | _ => None
  end.

(** [new Map(users.map(u => [u.id, u])).get(id)]: the last entry wins. *)
Fixpoint usersGet (id : string) (users : list xUser) : option xUser :=
  match users with
  | [] => None
  | u :: r =>
      match usersGet id r with
      | Some v => Some v
      | None => if String.eqb (xu_id u) id then Some u else None
      end
  end.

Definition orZero (o : option Z) : Z :=
  match o with Some n => n | None => 0 end.

Definition toPost (users : list xUser) (tweet : rawTweet) : post :=
  let user := usersGet (rt_author_id tweet) users in
  let field {A} (f : xUser -> option A) : option A :=
    match user with Some u => f u | None => None end in
  let username := field xu_username in
  Post ("@" +:+ JS.orElse username "unknown")
       (JS.orElse (field xu_name) "Unknown")
       (match rt_text tweet with Some t => t | None => "" end)
       ("https://x.com/" +:+
        match username with Some u => u | None => "undefined" end +:+
        "/status/" +:+ rt_id tweet)
       (rt_id tweet)
       (option_map IsoText (rt_created_at tweet))
       (orZero (rt_like_count tweet))
       (orZero (rt_reply_count tweet))
       (orZero (rt_retweet_count tweet))
       (match field xu_profile_image_url with
        | Some u => if String.eqb u "" then None else Some u
        | None => None
        end)
       (match field xu_verified with Some b => b | None => false end).

Definition validTweets (users : list xUser) (tweets : list rawTweet)
  : list post :=
  List.filter (fun t => (10 <? String.length (p_text t))%nat)
    (List.map (toPost users)
       (List.filter (fun tw => String.eqb (rt_lang tw) "en") tweets)).

(** How the body of the loop over the query variants ends. *)
Inductive variantEnd :=
| Continue
| Break
| Return (tweets : list post).

(** The statements inside the [try] of one variant. *)
Definition tryVariant (o : xOutcome) : outcome variantEnd :=
  match o with
  | XRejects message => Thrown message
  | XNotOk status => Returned (if status =? 429 then Break else Continue)
  | XBadJson message => Thrown message
  | XBody DataAbsent _ => Returned Continue
  | XBody (DataList []) _ => Returned Continue
  | XBody _ UsersMalformed => Thrown "TypeError"
  | XBody DataMalformed _ => Thrown "TypeError"
  | XBody (DataList tweets) users =>
      let tweets :=
        validTweets (match users with UsersList l => l | _ => [] end) tweets in
      match tweets with
      | [] => Returned Continue
      | _ => Returned (Return tweets)
      end
  end.

Definition cleanQuery (searchQuery : string) : string :=
  JS.collapseSpaces (JS.trim searchQuery).

(** The loop over the variants; [k] is the position of the first one. *)
Fixpoint searchVariants (search : nat -> string -> xOutcome) (k : nat)
  (variants : list string) : outcome (list post) :=
  match variants with
  | [] => Returned []
  | searchQuery :: rest =>
      match tryVariant (search k (cleanQuery searchQuery)) with
      | Thrown _ => searchVariants search (S k) rest
      | Returned Continue => searchVariants search (S k) rest
      | Returned Break => Returned []
      | Returned (Return tweets) => Returned tweets
      end
  end.

Definition queryVariations (query : string) (headline : option string)
  : list string :=
  JS.removeDuplicates
    [ query;
      match headline with
      | Some h => if String.eqb h "" then query else h +:+ " " +:+ query
      | None => query
      end;
      JS.join " " (JS.slice0 3 (JS.split " "%char query)) ].

Definition fetchRealTweets (bearerToken : option string)
  (search : nat -> string -> xOutcome) (query : string)
  (headline : option string) : outcome (list post) :=
  if negb (JS.truthy bearerToken) then Returned []
  else searchVariants search 0 (queryVariations query headline).

Definition normalizeQuery (query : string) (o : normalizeOutcome)
  : string * string :=
  match o with
  | NormalizeJson key scope => (JS.orElse key query, JS.orElse scope "global")
  | NormalizeFails => (if String.eqb query "" then "Global News" else query, "global")
  end.

(** *** The cache lookup

    [prisma.searchQuery.findFirst] with a [where] on the key and on the
    refresh time, an [include] of the items filtered on their own time,
    and [orderBy: { timestamp: "desc" }]: the matching row with the
    greatest refresh time (the first such row of the table on a tie),
    with its items filtered. *)

Definition SIX_HOURS : Z := 6 * 60 * 60 * 1000.
Definition SEVEN_DAYS : Z := 7 * 24 * 60 * 60 * 1000.

Definition matchesWhere (normalizedKey : string) (sixHoursAgo : Z)
  (r : searchQueryRow) : bool :=
  String.eqb (sq_normalizedKey r) normalizedKey && (sixHoursAgo <? sq_timestamp r).

Fixpoint mostRecent (rows : list searchQueryRow) : option searchQueryRow :=
  match rows with
  | [] => None
  | r :: rest =>
      match mostRecent rest with
      | Some r' => if sq_timestamp r <? sq_timestamp r' then Some r' else Some r
      | None => Some r
      end
  end.

Definition includeItems (sevenDaysAgo : Z) (r : searchQueryRow)
  : searchQueryRow :=
  SearchQueryRow (sq_id r) (sq_originalQuery r) (sq_normalizedKey r)
    (sq_timestamp r)
    (List.filter (fun item => sevenDaysAgo <? ni_timestamp item) (sq_items r)).

Definition findFirstCached (rows : list searchQueryRow)
  (normalizedKey : string) (sixHoursAgo sevenDaysAgo : Z)
  : option searchQueryRow :=
  option_map (includeItems sevenDaysAgo)
    (mostRecent (List.filter (matchesWhere normalizedKey sixHoursAgo) rows)).

(** *** The state of one run *)

Record state := State {
  awaits : nat;
  existingHeadlines : list string;
  fetchedCount : Z;
  attempts : nat;
  userContent : string
}.

Definition tick (st : state) : state :=
  State (S (awaits st)) (existingHeadlines st) (fetchedCount st)
    (attempts st) (userContent st).

Definition pushHeadline (h : string) (st : state) : state :=
  State (awaits st) (existingHeadlines st ++ [h]) (fetchedCount st)
    (attempts st) (userContent st).

Definition countFetched (st : state) : state :=
  State (awaits st) (existingHeadlines st) (fetchedCount st + 1)
    (attempts st) (userContent st).

Definition nextAttempt (st : state) : state :=
  State (awaits st) (existingHeadlines st) (fetchedCount st)
    (S (attempts st)) (userContent st).

Definition appendContent (text : string) (st : state) : state :=
  State (awaits st) (existingHeadlines st) (fetchedCount st)
    (attempts st) (userContent st +:+ text).

(** [isActive] is cleared by the abort listener, which can only run
    while the handler waits. *)
Definition isActive (w : world) (st : state) : bool :=
  match abortAt w with
  | None => true
  | Some n => (awaits st <? n)%nat
  end.

Definition safeEnqueue (w : world) (st : state) (f : frame) : list effect :=
  if isActive w st then [Enqueue f] else [].

(** *** Replay of the cached items *)

Definition cachedPost (w : world) (t : tweetRow) : post :=
  Post (tr_author t) (JS.orElse (tr_name t) (tr_author t)) (tr_text t)
    (tr_url t) (tr_id t)
    (Some (toISOStringSafe (parseDate w) (nowReplay w) (tr_timestamp t)))
    (tr_likes t) (tr_replies t) (tr_reposts t) (tr_profilePic t) false.

Definition cachedItem (w : world) (c : coords) (item : newsRow) : newsItem :=
  NewsItem (ni_id item) (ni_headline item) (ni_location item)
    (Some (ni_summary item)) (ni_category item) c
    (toISOStringSafe (parseDate w) (nowReplay w) (TimeDate (ni_timestamp item)))
    (List.map (cachedPost w) (ni_tweets item)).

(** The loop over [cachedQuery.items]; stored coordinates that
    [JSON.parse] rejects end it with an exception. *)
Fixpoint replay (w : world) (items : list newsRow) (st : state)
  : list effect * state * option string :=
  match items with
  | [] => ([], st, None)
  | item :: rest =>
      let st1 := pushHeadline (ni_headline item) st in
      match parseCoordinates w (ni_coordinates item) with
      | None => ([], st1, Some "SyntaxError")
      | Some c =>
          let es := safeEnqueue w st1 (News (cachedItem w c item)) in
          let '(es', st2, thrown) := replay w rest st1 in
          (es ++ es', st2, thrown)
      end
  end.

(** *** One candidate *)

Definition tooOld (w : world) (sevenDaysAgo : Z) (declared : option string)
  : bool :=
  match declared with
  | Some s =>
      if String.eqb s "" then false
      else match parseDate w s with
           | Some itemDate => itemDate <? sevenDaysAgo
           | None => false
           end
  | None => false
  end.

Definition tweetsStatus (headline : string) (realTweets : list post) : frame :=
  if (0 <? length realTweets)%nat
  then Status ("Found " +:+ pretty (length realTweets) +:+ " real tweets from X API")
  else Status ("No tweets found on X API for: " +:+ headline).

(** The statements after the item is built: it is enqueued, then saved;
    when saving fails the row with the same headline and location is
    looked up. *)
Definition emitAndSave (w : world) (attempt i : nat) (newsItem : newsItem)
  (st : state) (createdItemsIds : list string)
  : list effect * state * list string :=
  let es := safeEnqueue w st (News newsItem) in
  let st1 := tick st in
  if createSucceeds w attempt i then
    (es ++ [DbCreate newsItem true],
     countFetched (pushHeadline (headline newsItem) st1),
     createdItemsIds ++ [id newsItem])
  else
    let st2 := tick st1 in
    let found := findExisting w attempt i in
    let es' := es ++ [DbCreate newsItem false;
                      DbFindExisting (headline newsItem) (location newsItem) found] in
    match found with
    | Returned (Some existingId) =>
        (es', countFetched st2, createdItemsIds ++ [existingId])
    | _ => (es', st2, createdItemsIds)
    end.

(** The body of the loop over the accumulated tool calls, inside its
    own [try]: whatever is thrown there only ends this candidate. *)
Definition processCall (w : world) (sevenDaysAgo : Z) (attempt i : nat)
  (call : option args) (st : state) (createdItemsIds : list string)
  : list effect * state * list string :=
  match call with
  | None => ([], st, createdItemsIds)
  | Some a =>
      match a_headline a, a_location a with
      | Some headline, Some location =>
          if String.eqb headline "" || String.eqb location "" then
            ([], st, createdItemsIds)
          else if JS.includes (existingHeadlines st) headline then
            ([], st, createdItemsIds)
          else if tooOld w sevenDaysAgo (a_timestamp a) then
            ([], st, createdItemsIds)
          else
            let es1 := safeEnqueue w st (Status ("Found: " +:+ headline))
                       ++ [GeocodeCall location] in
            let st1 := tick st in
            match geocodeLocation (photon w attempt i) with
            | None => (es1, st1, createdItemsIds)
            | Some coords =>
                let build (realTweets : list post) :=
                  NewsItem (randomUUID w attempt i) headline location
                    (a_summary a) (JS.orElse (a_category a) "General")
                    coords (IsoOf (itemNow w attempt i)) realTweets in
                if JS.truthy (a_search_query a) then
                  let search_query := JS.orElse (a_search_query a) "" in
                  let es2 :=
                    es1 ++
                    safeEnqueue w st1
                      (Status ("Fetching real tweets from X API: " +:+ JS.dq +:+
                               search_query +:+ JS.dq +:+ "..."))
                    ++ [TweetSearch search_query headline] in
                  let st2 := tick st1 in
                  match fetchRealTweets (X_BEARER_TOKEN w) (xSearch w attempt i)
                          search_query (Some headline) with
                  | Thrown _ => (es2, st2, createdItemsIds)
                  | Returned realTweets =>
                      let es3 := es2 ++ safeEnqueue w st2
                                          (tweetsStatus headline realTweets) in
                      let '(es4, st4, ids) :=
                        emitAndSave w attempt i (build realTweets) st2
                          createdItemsIds in
                      (es3 ++ es4, st4, ids)
                  end
                else
                  let '(es4, st4, ids) :=
                    emitAndSave w attempt i (build []) st1 createdItemsIds in
                  (es1 ++ es4, st4, ids)
            end
      | _, _ => ([], st, createdItemsIds)
      end
  end.

Fixpoint processCalls (w : world) (sevenDaysAgo : Z) (attempt i : nat)
  (calls : list (option args)) (st : state) (createdItemsIds : list string)
  : list effect * state * list string :=
  match calls with
  | [] => ([], st, createdItemsIds)
  | call :: rest =>
      let '(es, st1, ids1) :=
        processCall w sevenDaysAgo attempt i call st createdItemsIds in
      let '(es', st2, ids2) :=
        processCalls w sevenDaysAgo attempt (S i) rest st1 ids1 in
      (es ++ es', st2, ids2)
  end.

(** *** One round *)

Definition exclusion (headlines : list string) : string :=
  JS.nl +:+ JS.nl +:+
  "IMPORTANT: Do NOT report any of the following stories as they are already known:"
  +:+ JS.nl +:+ "- " +:+ JS.join (JS.nl +:+ "- ") headlines.

(** The items created or recovered in a round are linked to the record
    of the query.  The last component tells whether the statements
    completed without throwing. *)
Definition linkItems (w : world) (cachedQuery : option searchQueryRow)
  (normalizedKey rawQuery : string) (st : state) (createdItemsIds : list string)
  : list effect * state * bool :=
  match createdItemsIds with
  | [] => ([], st, true)
  | _ =>
      let attempt := attempts st in
      let ok := linkSucceeds w attempt in
      match cachedQuery with
      | Some q =>
          ([DbLinkQuery (sq_id q) true createdItemsIds ok], tick st, ok)
      | None =>
          let existingQ := existingQuery w attempt in
          let st1 := tick st in
          match existingQ with
          | Thrown _ => ([DbFindQuery normalizedKey existingQ], st1, false)
          | Returned (Some queryId) =>
              ([DbFindQuery normalizedKey existingQ;
                DbLinkQuery queryId false createdItemsIds ok], tick st1, ok)
          | Returned None =>
              ([DbFindQuery normalizedKey existingQ;
                DbCreateQuery (queryUUID w attempt)
                  (if String.eqb rawQuery "" then "Global News" else rawQuery)
                  normalizedKey createdItemsIds ok], tick st1, ok)
          end
      end
  end.

(** The body of the [while] loop after [attempts++].  The last
    component tells whether the loop is left by [break]. *)
Definition round (w : world) (sevenDaysAgo : Z)
  (cachedQuery : option searchQueryRow) (normalizedKey rawQuery : string)
  (fetchCount : Z) (st : state) : list effect * state * bool :=
  let es0 :=
    if (1 <? attempts st)%nat then
      safeEnqueue w st
        (Status ("Scanning for more... (" +:+ pretty (fetchedCount st) +:+ "/" +:+
                 pretty fetchCount +:+ " found)"))
    else [] in
  let es1 := es0 ++ [LlmCall (attempts st) (userContent st)] in
  let st1 := tick st in
  let process (calls : list (option args)) (st2 : state) :=
    let '(es2, st3, createdItemsIds) :=
      processCalls w sevenDaysAgo (attempts st) 0 calls st2 [] in
    let '(es3, st4, ok) :=
      linkItems w cachedQuery normalizedKey rawQuery st3 createdItemsIds in
    let st5 :=
      if ok && (fetchedCount st4 <? fetchCount)
      then appendContent (exclusion (existingHeadlines st4)) st4 else st4 in
    (es1 ++ es2 ++ es3, st5, false) in
  match llm w (attempts st) with
  | LlmRejects | LlmNotOk => (es1, st1, false)
  | LlmNoBody => (es1, st1, true)
  | LlmReadFails =>
      if isActive w st1 then (es1, tick st1, false) else process [] st1
  | LlmCalls calls =>
      if isActive w st1 then process calls (tick st1) else process [] st1
  end.

(** *** The loop *)

Definition targetCount (scope : string) : Z :=
  if String.eqb scope "global" then 40
  else if String.eqb scope "region" then 20 else 5.

Definition fetchCountFor (targetCount cachedCount : Z) : Z :=
  let neededCount := Z.max 0 (targetCount - cachedCount) in
  Z.min (Z.max neededCount 5) 20.

(** The condition of the [while] loop; [loopNow w k] is the clock when
    it is evaluated after [k] rounds. *)
Definition continues (w : world) (fetchCount : Z) (st : state) : bool :=
  (fetchedCount st <? fetchCount) && (attempts st <? 10)%nat &&
  (loopNow w (attempts st) - processStartTime w <? 90000).

Fixpoint discover (fuel : nat) (w : world) (sevenDaysAgo : Z)
  (cachedQuery : option searchQueryRow) (normalizedKey rawQuery : string)
  (fetchCount : Z) (st : state) : list effect * state :=
  match fuel with
  | O => ([], st)
  | S fuel' =>
      if continues w fetchCount st then
        let '(es, st1, leave) :=
          round w sevenDaysAgo cachedQuery normalizedKey rawQuery fetchCount
            (nextAttempt st) in
        if leave then (es, st1)
        else
          let '(es', st2) :=
            discover fuel' w sevenDaysAgo cachedQuery normalizedKey rawQuery
              fetchCount st1 in
          (es ++ es', st2)
      else ([], st)
  end.

(** *** The stream *)

Definition initialContent (fetchCount : Z) (normalizedKey : string)
  (existingHeadlines : list string) : string :=
  "Find " +:+ pretty fetchCount +:+ " distinct breaking news stories for " +:+
  JS.dq +:+ normalizedKey +:+ JS.dq +:+
  ". Return headline, location, and a search query for X." +:+
  match existingHeadlines with
  | [] => ""
  | _ => exclusion existingHeadlines
  end.

Definition initialState : state := State 0 [] 0 0 "".

(** The statements inside the outer [try], between the two frames that
    precede the first wait and the [complete] frame that ends it: the
    effects in the order they happen, the state reached, and the
    exception thrown, if any. *)
Definition tryBody (w : world) (rawQuery : string) (st0 : state)
  : list effect * state * option string :=
  let st1 := tick st0 in
  let '(normalizedKey, scope) := normalizeQuery rawQuery (normalizeAnswer w) in
  let sixHoursAgo := nowSixHours w - SIX_HOURS in
  let sevenDaysAgo := nowSevenDays w - SEVEN_DAYS in
  let es1 := [NormalizeCall rawQuery; CacheLookup normalizedKey] in
  let st2 := tick st1 in
  match lookupFails w with
  | Some message => (es1, st2, Some message)
  | None =>
      let cachedQuery :=
        findFirstCached (table w) normalizedKey sixHoursAgo sevenDaysAgo in
      let '(es2, st3, thrown) :=
        match cachedQuery with
        | Some q =>
            match sq_items q with
            | [] => ([], st2, None)
            | items =>
                let '(es, st, thrown) := replay w items st2 in
                (safeEnqueue w st2
                   (Status ("Found cached results for " +:+ normalizedKey)) ++ es,
                 st, thrown)
            end
        | None => ([], st2, None)
        end in
      match thrown with
      | Some message => (es1 ++ es2, st3, Some message)
      | None =>
          let target := targetCount scope in
          let cachedCount := Z.of_nat (length (existingHeadlines st3)) in
          let fetchCount := fetchCountFor target cachedCount in
          let es3 :=
            safeEnqueue w st3
              (Status ("Scanning " +:+ scope +:+
                       " scope for updates (Quality target: " +:+ pretty target +:+
                       ", Fetching: " +:+ pretty fetchCount +:+ ")...")) in
          let st4 :=
            appendContent
              (initialContent fetchCount normalizedKey (existingHeadlines st3))
              st3 in
          let '(es4, st5) :=
            discover 10 w sevenDaysAgo cachedQuery normalizedKey rawQuery
              fetchCount st4 in
          (es1 ++ es2 ++ es3 ++ es4, st5, None)
      end
  end.

(** [start(controller)] up to the call of [cleanup]: the [try], whose
    last statement enqueues the [complete] frame, with its [catch], which
    turns the exception into an [error] frame. *)
Definition run (w : world) : list effect * state :=
  let st0 := initialState in
  let rawQuery := JS.orElse (queryParam w) "" in
  let es0 :=
    safeEnqueue w st0 (Connected "Connecting...") ++
    safeEnqueue w st0 (Status "Analyzing query scope...") in
  let '(es, st, thrown) := tryBody w rawQuery st0 in
  match thrown with
  | Some message => (es0 ++ es ++ safeEnqueue w st (Error message), st)
  | None => (es0 ++ es ++ safeEnqueue w st Complete, st)
  end.

(** The exception that reaches the outer [catch], if any. *)
Definition outerCatch (w : world) : option string :=
  snd (tryBody w (JS.orElse (queryParam w) "") initialState).

Inductive reply :=
| ConfigError (status : Z) (error : string)
| EventStream (log : list effect).

Definition GET (w : world) : reply :=
  if negb (JS.truthy (XAI_API_KEY w)) then
    ConfigError 500 "XAI_API_KEY Config Missing"
  else EventStream (fst (run w)).

(** The frames that reached the client, in order. *)
Definition frames (log : list effect) : list frame :=
  flat_map (fun e => match e with Enqueue f => [f] | _ => [] end) log.

Definition newsOf (fs : list frame) : list newsItem :=
  flat_map (fun f => match f with News n => [n] | _ => [] end) fs.

Definition isComplete (f : frame) : bool :=
  match f with Complete => true | _ => false end.

Definition isError (f : frame) : bool :=
  match f with Error _ => true | _ => false end.

(** *** Vocabulary for statements about a run *)

(** The headlines of the [news] frames of a log, in order. *)
Definition headlinesOf (log : list effect) : list string :=
  List.map headline (newsOf (frames log)).

(** The rounds for which the model was called, in order. *)
Definition llmRounds (log : list effect) : list nat :=
  flat_map (fun e => match e with LlmCall attempt _ => [attempt] | _ => [] end) log.

(** The record the run finds in the cache. *)
Definition cachedQueryOf (w : world) : option searchQueryRow :=
  findFirstCached (table w)
    (fst (normalizeQuery (JS.orElse (queryParam w) "") (normalizeAnswer w)))
    (nowSixHours w - SIX_HOURS) (nowSevenDays w - SEVEN_DAYS).

(** [n] is the frame payload of an item of that record. *)
Definition replayed (w : world) (n : newsItem) : Prop :=
  exists q item c,
    cachedQueryOf w = Some q /\ In item (sq_items q) /\
    parseCoordinates w (ni_coordinates item) = Some c /\
    n = cachedItem w c item.

(** [n] was built for candidate [i] of round [attempt]: its identifier
    and its time are the ones drawn then. *)
Definition builtAt (w : world) (attempt i : nat) (n : newsItem) : Prop :=
  id n = randomUUID w attempt i /\ timestamp n = IsoOf (itemNow w attempt i).



(** A failed search: the request fails, the status is not a success, the
    body is malformed, or no valid post is left. *)
Definition yieldsNothing (o : xOutcome) : bool :=
  match o with
  | XRejects _ | XNotOk _ | XBadJson _ => true
  | XBody DataAbsent _ | XBody DataMalformed _ | XBody _ UsersMalformed => true
  | XBody (DataList tweets) UsersAbsent =>
      match validTweets [] tweets with [] => true | _ => false end
  | XBody (DataList tweets) (UsersList users) =>
      match validTweets users tweets with [] => true | _ => false end
  end.

(** An effect that is neither a frame nor a save. *)
Definition quiet (e : effect) : Prop :=
  match e with
  | Enqueue _ | DbCreate _ _ => False
  | _ => True
  end.

(** Neither a [complete] nor an [error] frame. *)
Definition ordinary (f : frame) : bool :=
  negb (isComplete f) && negb (isError f).

Definition ordinaryEffect (e : effect) : Prop :=
  match e with
  | Enqueue f => ordinary f = true
  | _ => True
  end.


End BreakingNews.

(** ** Concrete servers, worlds and requests used as examples *)

Module Scenarios.

Definition degrees (hundredths : Z) : number := QArith_base.Qmake hundredths 100.

(** *** Geocoding *)

Definition emptyServer : Geocode.server := Geocode.Server [] ∅.

Definition paris : Geocode.nominatimResult :=
  Geocode.NominatimResult (degrees 235) (degrees 4885) "Paris, France".

(** Nominatim answers; with nothing, or with Paris. *)
Definition knowsNothing : Geocode.upstream :=
  Geocode.Upstream
    (fun _ => Geocode.FetchResponds 200 (Geocode.JsonArray []))
    (fun _ => Geocode.FetchRejects "TypeError" "fetch failed").

Definition knowsParis : Geocode.upstream :=
  Geocode.Upstream
    (fun _ => Geocode.FetchResponds 200 (Geocode.JsonArray [paris]))
    (fun _ => Geocode.FetchRejects "TypeError" "fetch failed").

Definition at_time (now : Z) (up : Geocode.upstream) : Geocode.world :=
  Geocode.World now now now up.

Definition client : string := "203.0.113.7".

Definition ask (location : string) : Geocode.request :=
  Geocode.Request (Some location) (Some client) None.

(** A request whose location is a tab, a no-break space and a space. *)
Definition blanks : string := JS.fromCharCode 9 +:+ JS.fromCharCode 160 +:+ " ".

(** A cache that holds the island (in French, with a circumflex on the
    first letter), under its key in small letters. *)
Definition island : string := JS.fromCharCode 206 +:+ "LE DE R" +:+ JS.fromCharCode 201.

Definition islandKey : string := JS.fromCharCode 238 +:+ "le de r" +:+ JS.fromCharCode 233.

Definition islandEntry : Geocode.cacheEntry :=
  Geocode.CacheEntry (degrees 4620) (degrees (-145)) "Ile de Re, France" 1000.

Definition islandCached : Geocode.server :=
  Geocode.Server [(islandKey, islandEntry)] ∅.

Definition parisCached : Geocode.server :=
  Geocode.Server
    [("paris", Geocode.CacheEntry (degrees 4885) (degrees 235) "Paris, France" 1000)]
    ∅.

(** Request number [i] of a client that asks for a different unknown
    place every 100 ms. *)
Definition unknownPlace (i : nat) : Geocode.world * Geocode.request :=
  (at_time (1000 + 100 * Z.of_nat i) knowsNothing, ask ("Place " +:+ pretty i)).

(** While that client asks, another client asks for the same places,
    and the first client also sends requests without a location. *)
Definition bystander (i : nat) : Geocode.world * Geocode.request :=
  (at_time (1000 + 100 * Z.of_nat i) knowsNothing,
   Geocode.Request (Some ("Place " +:+ pretty i)) (Some "198.51.100.9") None).

Definition noLocation (i : nat) : Geocode.world * Geocode.request :=
  (at_time (1000 + 100 * Z.of_nat i) knowsNothing, ask "   ").

Definition busy : list (Geocode.world * Geocode.request) :=
  flat_map (fun i => [unknownPlace i; bystander i; noLocation i]) (seq 0 51).

(** A request and an answer that stand for nothing. *)
Definition noExchange
  : (Geocode.world * Geocode.request) *
    (Geocode.response * list Geocode.effect) :=
  ((at_time 0 knowsNothing, Geocode.Request None None None),
   (Geocode.Response 0 [] (Geocode.BodyError ""), [])).

(** A client that asks for Paris 51 times within one second. *)
Definition parisAgain (i : nat) : Geocode.world * Geocode.request :=
  (at_time (1000 + Z.of_nat i) knowsParis, ask "Paris").

(** *** Discovery *)

Import BreakingNews.

Definition origin : coords := (degrees 0, degrees 0).

(** The clock of the examples: 2001-09-09T01:46:40Z. *)
Definition epoch : Z := 1000000000000.

Definition candidate (i : nat) : option args :=
  Some (Args (Some ("Headline " +:+ pretty i)) (Some ("Place " +:+ pretty i))
          (Some "Summary") None None None).

(** A world in which everything works and nothing is cached: the query
    is normalised to the global scope, the model proposes the given
    calls in the first round and gives no body in the second, every
    place is geocoded, every search fails, every save succeeds. *)
Definition calm (calls : list (option args)) : world :=
  World (Some "xai-key") (Some "x-token") None None
    (NormalizeJson (Some "Global News") (Some "global"))
    [] None (fun _ => None) (fun _ => Some origin)
    epoch epoch epoch epoch
    (fun k => epoch + 1000 * Z.of_nat k)
    (fun attempt i => epoch + 500)
    (fun attempt => match attempt with 1%nat => LlmCalls calls | _ => LlmNoBody end)
    (fun attempt i => PhotonFeatures [Some origin])
    (fun _ _ _ _ => XNotOk 503)
    (fun attempt i => "item-" +:+ pretty attempt +:+ "-" +:+ pretty i)
    (fun _ _ => true)
    (fun _ _ => Returned None)
    (fun _ => Returned None)
    (fun _ => true)
    (fun attempt => "query-" +:+ pretty attempt).

(** The fields of a world that the examples vary. *)
Definition withPhoton (f : nat -> nat -> photonOutcome) (w : world) : world :=
  World (XAI_API_KEY w) (X_BEARER_TOKEN w) (queryParam w) (abortAt w)
    (normalizeAnswer w) (table w) (lookupFails w) (parseDate w)
    (parseCoordinates w) (nowSixHours w) (nowSevenDays w) (nowReplay w)
    (processStartTime w) (loopNow w) (itemNow w) (llm w) f (xSearch w)
    (randomUUID w) (createSucceeds w) (findExisting w) (existingQuery w)
    (linkSucceeds w) (queryUUID w).

Definition withLlm (f : nat -> llmOutcome) (w : world) : world :=
  World (XAI_API_KEY w) (X_BEARER_TOKEN w) (queryParam w) (abortAt w)
    (normalizeAnswer w) (table w) (lookupFails w) (parseDate w)
    (parseCoordinates w) (nowSixHours w) (nowSevenDays w) (nowReplay w)
    (processStartTime w) (loopNow w) (itemNow w) f (photon w) (xSearch w)
    (randomUUID w) (createSucceeds w) (findExisting w) (existingQuery w)
    (linkSucceeds w) (queryUUID w).

Definition withStore (saves : nat -> nat -> bool)
  (finds : nat -> nat -> outcome (option string)) (w : world) : world :=
  World (XAI_API_KEY w) (X_BEARER_TOKEN w) (queryParam w) (abortAt w)
    (normalizeAnswer w) (table w) (lookupFails w) (parseDate w)
    (parseCoordinates w) (nowSixHours w) (nowSevenDays w) (nowReplay w)
    (processStartTime w) (loopNow w) (itemNow w) (llm w) (photon w) (xSearch w)
    (randomUUID w) saves finds (existingQuery w)
    (linkSucceeds w) (queryUUID w).

Definition withTable (rows : list searchQueryRow) (fails : option string)
  (w : world) : world :=
  World (XAI_API_KEY w) (X_BEARER_TOKEN w) (queryParam w) (abortAt w)
    (normalizeAnswer w) rows fails (parseDate w)
    (parseCoordinates w) (nowSixHours w) (nowSevenDays w) (nowReplay w)
    (processStartTime w) (loopNow w) (itemNow w) (llm w) (photon w) (xSearch w)
    (randomUUID w) (createSucceeds w) (findExisting w) (existingQuery w)
    (linkSucceeds w) (queryUUID w).

Definition withParseDate (f : string -> option Z) (w : world) : world :=
  World (XAI_API_KEY w) (X_BEARER_TOKEN w) (queryParam w) (abortAt w)
    (normalizeAnswer w) (table w) (lookupFails w) f
    (parseCoordinates w) (nowSixHours w) (nowSevenDays w) (nowReplay w)
    (processStartTime w) (loopNow w) (itemNow w) (llm w) (photon w) (xSearch w)
    (randomUUID w) (createSucceeds w) (findExisting w) (existingQuery w)
    (linkSucceeds w) (queryUUID w).

(** The scenario of the specification: five candidates, the third of
    which cannot be geocoded; the model keeps answering, without
    calls, in the later rounds. *)
Definition fourOfFive : world :=
  withLlm (fun attempt => match attempt with
                          | 1%nat => LlmCalls (List.map candidate (seq 0 5))
                          | _ => LlmCalls []
                          end)
    (withPhoton (fun attempt i => match i with
                                  | 2%nat => PhotonFeatures []
                                  | _ => PhotonFeatures [Some origin]
                                  end)
       (calm [])).

(** Twenty candidates, all of them accepted; the model would answer in
    every later round. *)
Definition twentyAtOnce : world :=
  withLlm (fun attempt => match attempt with
                          | 1%nat => LlmCalls (List.map candidate (seq 0 20))
                          | _ => LlmCalls (List.map candidate (seq 100 20))
                          end)
    (calm []).


(** The model reports the same story twice, and the store already holds
    a row for it: both saves fail and both lookups find that row. *)
Definition reportedTwice : world :=
  withStore (fun _ _ => false) (fun _ _ => Returned (Some "row-17"))
    (calm [candidate 0; candidate 0]).

(** The cache lookup is rejected by the database client. *)
Definition storeDown : world :=
  withTable [] (Some "PrismaClientInitializationError") (calm [candidate 0]).

(** One candidate that declares the time of its event, a little more
    than an hour before it is processed. *)
Definition declaredTime : string := "2001-09-09T00:30:00.000Z".

Definition declares : world :=
  withParseDate (fun s => if String.eqb s declaredTime then Some 999995400000 else None)
    (calm [Some (Args (Some "Headline") (Some "Place") (Some "Summary") None
                   (Some declaredTime) None)]).

(** A store with three records for the same key: one refreshed five
    hours before the run, one refreshed one hour before it, which links
    an item of the day before and an item ten days old, and one refreshed
    seven hours before it. *)
Definition hour : Z := 60 * 60 * 1000.
Definition day : Z := 24 * hour.

Definition recentRow : newsRow :=
  NewsRow "news-1" "Cached headline" "Lyon" "Summary" "Politics" "[4.83,45.76]"
    (epoch - day) [].

Definition staleRow : newsRow :=
  NewsRow "news-2" "Old headline" "Lille" "Summary" "Politics" "[3.06,50.63]"
    (epoch - 10 * day) [].

Definition rows : list searchQueryRow :=
  [ SearchQueryRow "query-old" "Global News" "Global News" (epoch - 5 * hour)
      [staleRow];
    SearchQueryRow "query-new" "world" "Global News" (epoch - hour)
      [recentRow; staleRow];
    SearchQueryRow "query-expired" "world" "Global News" (epoch - 7 * hour)
      [recentRow] ].

Definition cached : world := withTable rows None (calm [candidate 0; candidate 1]).

(** A fresh record that links two recent items with the same headline,
    reported from two places. *)
Definition sameHeadline : list searchQueryRow :=
  [ SearchQueryRow "query-new" "world" "Global News" (epoch - hour)
      [ recentRow;
        NewsRow "news-3" "Cached headline" "Nice" "Summary" "Politics" "[7.26,43.70]"
          (epoch - 2 * day) [] ] ].

Definition cachedTwice : world := withTable sameHeadline None (calm []).


Definition firstFresh : newsItem :=
  NewsItem "item-1-0" "Headline 0" "Place 0" (Some "Summary") "General" origin
    (IsoOf (epoch + 500)) [].


Definition declared : newsItem :=
  NewsItem "item-1-0" "Headline" "Place" (Some "Summary") "General" origin
    (IsoOf (epoch + 500)) [].

End Scenarios.


(** ** More vocabulary for the geocode endpoint *)

Module GeocodeInvariants.
Import Geocode.

Definition keysOf (m : cacheMap) : list string := List.map fst m.

(** What a JavaScript [Map] filled by the handler is: its keys are
    pairwise distinct and non-empty, and it holds at most a thousand of
    them. *)
Definition goodCache (m : cacheMap) : Prop :=
  NoDup (keysOf m) /\ Forall (fun k => k <> "") (keysOf m) /\
  (length m <= 1000)%nat.

(** Every bucket counts at least one and at most the maximum. *)
Definition goodLimits (m : gmap string rateLimit) : Prop :=
  forall k l, m !! k = Some l -> 1 <= count l <= MAX_REQUESTS_PER_WINDOW.

Definition isNominatim (e : effect) : bool :=
  match e with NominatimCall _ => true | _ => false end.

Definition isPhoton (e : effect) : bool :=
  match e with PhotonCall _ => true | _ => false end.

Definition isCacheSet (e : effect) : bool :=
  match e with CacheSet _ => true | _ => false end.

(** A call of one of the two providers for [q]. *)
Definition callsFor (q : string) (e : effect) : Prop :=
  e = NominatimCall q \/ e = PhotonCall q.

(** The key under which the handler files a location. *)
Definition keyOf (location : string) : string :=
  JS.toLowerCase (JS.trim location).

End GeocodeInvariants.


(** ** The located-posts endpoint ([src/app/api/x-api/geo/route.ts]),
    a caller of the geocode endpoint *)

Module GeoBatch.

Record user := User {
  u_id : string;
  u_username : option string;
  u_name : option string;
  u_location : option string
}.

Record locatedUser := LocatedUser {
  lu_id : string;
  lu_username : option string;
  lu_name : option string;
  lu_location : string
}.

Record geoItem := GeoItem {
  g_id : string;
  g_coordinates : number * number;
  g_location : string;
  g_display_name : string;
  g_username : option string;
  g_name : option string;
  g_created_at : Z
}.

(** The answer of the search API. *)
Inductive searchOutcome :=
| SearchRejects (message : string)
| SearchNotOk (status : Z) (text : outcomeText)
| SearchBadJson (message : string)
| SearchOk (users : option (list user)) (remaining reset : option string)
with outcomeText :=
| TextOf (details : string)
| TextFails (message : string).

(** What one request gets from outside: the two environment variables
    folded into one, the query, the answer of the search, and for the
    located user at each position the answer of the geocode endpoint
    ([None] when the request fails or times out) and the clock. *)
Record world := World {
  bearerToken : option string;
  queryParam : option string;
  search : searchOutcome;
  geocode : nat -> option Geocode.response;
  clock : nat -> Z
}.

Definition maxResults : nat := 10.
Definition batchSize : nat := 5.

(** [(data.includes?.users || []).filter(...).map(...)] *)
Definition usersWithLocation (users : option (list user)) : list locatedUser :=
  List.map
    (fun u => LocatedUser (u_id u) (u_username u) (u_name u)
                (JS.trim (JS.orElse (u_location u) "")))
    (List.filter
       (fun u => JS.truthy (u_location u) &&
                 negb (String.eqb (JS.trim (JS.orElse (u_location u) "")) ""))
       (match users with Some l => l | None => [] end)).

(** The body of [batch.map]: every failure gives [null]. *)
Definition locate (w : world) (index : nat) (u : locatedUser) : option geoItem :=
  match geocode w index with
  | None => None
  | Some resp =>
      if negb (Geocode.isOk (Geocode.status resp)) then None
      else match Geocode.body resp with
           | Geocode.BodySuccess _ coordinates display_name _ =>
               Some (GeoItem ("user-" +:+ lu_id u) coordinates (lu_location u)
                       display_name (lu_username u) (lu_name u) (clock w index))
           | _ => None
           end
  end.

Fixpoint locateFrom (w : world) (index : nat) (batch : list locatedUser)
  : list (option geoItem) :=
  match batch with
  | [] => []
  | u :: rest => locate w index u :: locateFrom w (S index) rest
  end.

(** [batchResults.filter(item => item !== null)] *)
Fixpoint validResults (results : list (option geoItem)) : list geoItem :=
  match results with
  | [] => []
  | Some item :: rest => item :: validResults rest
  | None :: rest => validResults rest
  end.

(** [arr.slice(i, j)] *)
Definition slice {A} (i j : nat) (l : list A) : list A :=
  firstn (j - i) (skipn i l).

(** The loop [for (i = 0; i < Math.min(length, maxResults * 2);
    i += batchSize)], with [fuel] iterations allowed: the items gathered
    and the positions of the users for which the geocode endpoint was
    asked. *)
Fixpoint batches (w : world) (users : list locatedUser) (fuel i : nat)
  (geoData : list geoItem) (asked : list nat) : list geoItem * list nat :=
  match fuel with
  | O => (geoData, asked)
  | S fuel' =>
      if (i <? Nat.min (length users) (maxResults * 2))%nat then
        let batch := slice i (i + batchSize) users in
        let geoData' := geoData ++ validResults (locateFrom w i batch) in
        let asked' := asked ++ seq i (length batch) in
        if (maxResults <=? length geoData')%nat then (geoData', asked')
        else batches w users fuel' (i + batchSize) geoData' asked'
      else (geoData, asked)
  end.

Inductive responseBody :=
| BodyError (error : string)
| BodyUpstream (error details : string)
| BodyFailed (error message : string)
| BodyGeo (query : string) (count : nat) (geoData : list geoItem)
    (usersProcessed : nat) (remaining reset : option string).

Record response := Response {
  status : Z;
  body : responseBody
}.

(** The handler: the answer and the positions asked.  The loop, which
    starts at 0, advances by 5 and stops at 20 at the latest, runs at
    most four times. *)
Definition GET (w : world) : response * list nat :=
  let query := JS.orElse (queryParam w) "" in
  if negb (JS.truthy (bearerToken w)) then
    (Response 500 (BodyError "X_BEARER_TOKEN or BEARER_TOKEN not found"), [])
  else if String.eqb query "" then
    (Response 400 (BodyError "query parameter is required"), [])
  else
    match search w with
    | SearchRejects message =>
        (Response 500 (BodyFailed "Failed to fetch geo data" message), [])
    | SearchNotOk status (TextOf details) =>
        (Response status (BodyUpstream ("X API error: " +:+ pretty status) details), [])
    | SearchNotOk status (TextFails message) =>
        (Response 500 (BodyFailed "Failed to fetch geo data" message), [])
    | SearchBadJson message =>
        (Response 500 (BodyFailed "Failed to fetch geo data" message), [])
    | SearchOk users remaining reset =>
        let located := usersWithLocation users in
        let '(geoData, asked) := batches w located 4 0 [] [] in
        let finalGeoData := firstn maxResults geoData in
        (Response 200
           (BodyGeo query (length finalGeoData) finalGeoData (length located)
              remaining reset),
         asked)
    end.

(** The items that the users at the positions from [i] up to 20 give. *)
Definition itemsFrom (w : world) (users : list locatedUser) (i : nat) : list geoItem :=
  validResults (locateFrom w i (slice i 20 users)).

(** The item [item] was made for the located user [u] at position
    [index] from a success answer of the geocode endpoint. *)
Definition answeredAt (w : world) (index : nat) (u : locatedUser) (item : geoItem)
  : Prop :=
  exists status headers location display_name cached,
    geocode w index =
      Some (Geocode.Response status headers
              (Geocode.BodySuccess location (g_coordinates item) display_name cached)) /\
    200 <= status < 300 /\
    item = GeoItem ("user-" +:+ lu_id u) (g_coordinates item) (lu_location u)
             display_name (lu_username u) (lu_name u) (clock w index).

End GeoBatch.


(** ** The map page ([src/unnamed/part_000]), the client of the
    discovery stream *)

Module Client.
Import BreakingNews.

(** The part of the state of the page that the stream drives, and
    whether the event source was closed. *)
Record view := View {
  loading : bool;
  status : string;
  newsItems : list newsItem;
  closed : bool
}.

(** [fetchBreakingNews] up to the creation of the event source. *)
Definition fetchBreakingNews : view :=
  View true "Fetching breaking news..." [] false.

(** The test of [prev.find] for the item [news] of a frame. *)
Definition sameStory (news item : newsItem) : bool :=
  (negb (String.eqb (id item) "") && negb (String.eqb (id news) "") &&
   String.eqb (id item) (id news))
  || (String.eqb (headline item) (headline news) &&
      String.eqb (location item) (location news)).

(** [eventSource.onmessage] on a frame of the stream.  The item of a
    [news] frame always has coordinates. *)
Definition onmessage (v : view) (f : frame) : view :=
  match f with
  | Connected message =>
      View (loading v) (JS.orElse (Some message) "Connecting...") (newsItems v)
        (closed v)
  | Status message =>
      View (loading v) (JS.orElse (Some message) "Processing...") (newsItems v)
        (closed v)
  | News news =>
      View (loading v) ("Found: " +:+ headline news)
        (if existsb (sameStory news) (newsItems v) then newsItems v
         else newsItems v ++ [news])
        (closed v)
  | Complete => View false "Loaded breaking news stories" (newsItems v) true
  | Error message =>
      View false ("Error: " +:+ JS.orElse (Some message) "Unknown error")
        (newsItems v) true
  end.

(** The frames are handled in order; none is delivered once the source
    is closed. *)
Fixpoint deliver (v : view) (fs : list frame) : view :=
  match fs with
  | [] => v
  | f :: rest => if closed v then v else deliver (onmessage v f) rest
  end.

(** No two items of the list are the same story. *)
Fixpoint distinctStories (l : list newsItem) : Prop :=
  match l with
  | [] => True
  | item :: rest =>
      Forall (fun later => sameStory later item = false) rest /\
      distinctStories rest
  end.

End Client.


(** ** Vocabulary for further statements about the discovery stream *)

Module BreakingNewsInvariants.
Import BreakingNews.


(** The status 429 of the search API. *)
Definition rateLimited (o : xOutcome) : bool :=
  match o with
  | XNotOk status => status =? 429
  | _ => false
  end.

(** The two parts of the outer [try] after the cache lookup: the replay
    of the cached items, and the search for fresh ones. *)
Definition cachedPart (w : world) (normalizedKey : string)
  (cachedQuery : option searchQueryRow) (st2 : state)
  : list effect * state * option string :=
  match cachedQuery with
  | Some q =>
      match sq_items q with
      | [] => ([], st2, None)
      | items =>
          let '(es, st, thrown) := replay w items st2 in
          (safeEnqueue w st2
             (Status ("Found cached results for " +:+ normalizedKey)) ++ es,
           st, thrown)
      end
  | None => ([], st2, None)
  end.

Definition fetchCountOf (scope : string) (st3 : state) : Z :=
  fetchCountFor (targetCount scope) (Z.of_nat (length (existingHeadlines st3))).

Definition freshPart (w : world) (rawQuery normalizedKey scope : string)
  (cachedQuery : option searchQueryRow) (st3 : state) : list effect * state :=
  let fetchCount := fetchCountOf scope st3 in
  let '(es4, st5) :=
    discover 10 w (nowSevenDays w - SEVEN_DAYS) cachedQuery normalizedKey rawQuery
      fetchCount
      (appendContent (initialContent fetchCount normalizedKey (existingHeadlines st3))
         st3) in
  (safeEnqueue w st3
     (Status ("Scanning " +:+ scope +:+
              " scope for updates (Quality target: " +:+ pretty (targetCount scope) +:+
              ", Fetching: " +:+ pretty fetchCount +:+ ")...")) ++ es4,
   st5).

(** The tool call [a] with the declared time [t] in place of its own. *)
Definition declaring (t : option string) (a : args) : args :=
  Args (a_headline a) (a_location a) (a_summary a) (a_category a) t
    (a_search_query a).

(** The item [n] is what the handler builds from the tool call [a],
    call [i] of round [attempt], which the seven-day check let pass. *)
Definition reportedAt (w : world) (sevenDaysAgo : Z) (attempt i : nat) (a : args)
  (n : newsItem) : Prop :=
  tooOld w sevenDaysAgo (a_timestamp a) = false /\
  a_headline a = Some (headline n) /\ headline n <> "" /\
  a_location a = Some (location n) /\ location n <> "" /\
  summary n = a_summary a /\
  category n = JS.orElse (a_category a) "General" /\
  geocodeLocation (photon w attempt i) = Some (coordinates n) /\
  id n = randomUUID w attempt i /\
  timestamp n = IsoOf (itemNow w attempt i) /\
  (if JS.truthy (a_search_query a)
   then fetchRealTweets (X_BEARER_TOKEN w) (xSearch w attempt i)
          (JS.orElse (a_search_query a) "") (Some (headline n))
        = Returned (top_tweets n)
   else top_tweets n = []).

(** The item [n] was built from a tool call of some round and its
    headline is not among [known]. *)
Definition fresh (w : world) (sevenDaysAgo : Z) (known : list string)
  (n : newsItem) : Prop :=
  exists attempt i calls a,
    llm w attempt = LlmCalls calls /\ nth_error calls i = Some (Some a) /\
    reportedAt w sevenDaysAgo attempt i a n /\ ~ In (headline n) known.

(** What processing the tool calls [calls] of round [attempt] can do. *)
Definition candidateEffect (w : world) (sevenDaysAgo : Z) (known : list string)
  (attempt : nat) (calls : list (option args)) (e : effect) : Prop :=
  match e with
  | Enqueue (Status _) | GeocodeCall _ | TweetSearch _ _ => True
  | Enqueue (News n) | DbCreate n _ =>
      exists i a, nth_error calls i = Some (Some a) /\
                  reportedAt w sevenDaysAgo attempt i a n /\
                  ~ In (headline n) known
  | DbFindExisting _ _ _ => True
  | _ => False
  end.

(** The writes that link items to the record of the query go to the
    record the cache lookup found, if any. *)
Definition linkedTo (cachedQuery : option searchQueryRow)
  (normalizedKey : string) (e : effect) : Prop :=
  match e with
  | DbLinkQuery queryId bump ids _ =>
      ids <> [] /\
      match cachedQuery with
      | Some q => queryId = sq_id q /\ bump = true
      | None => bump = false
      end
  | DbFindQuery key _ => cachedQuery = None /\ key = normalizedKey
  | DbCreateQuery _ originalQuery key ids _ =>
      cachedQuery = None /\ key = normalizedKey /\ ids <> [] /\ originalQuery <> ""
  | _ => True
  end.

(** What the loop can do. *)
Definition roundEffect (w : world) (sevenDaysAgo : Z)
  (cachedQuery : option searchQueryRow) (normalizedKey : string)
  (known : list string) (e : effect) : Prop :=
  match e with
  | Enqueue (Status _) | GeocodeCall _ | TweetSearch _ _
  | DbFindExisting _ _ _ | LlmCall _ _ => True
  | Enqueue (News n) | DbCreate n _ => fresh w sevenDaysAgo known n
  | DbLinkQuery _ _ _ _ | DbFindQuery _ _ | DbCreateQuery _ _ _ _ _ =>
      linkedTo cachedQuery normalizedKey e
  | _ => False
  end.

(** The headlines of the items of the record the run finds in the cache. *)
Definition cachedHeadlines (w : world) : list string :=
  match cachedQueryOf w with
  | Some q => List.map ni_headline (sq_items q)
  | None => []
  end.

Definition normalizedKeyOf (w : world) : string :=
  fst (normalizeQuery (JS.orElse (queryParam w) "") (normalizeAnswer w)).

(** What a run can do. *)
Definition runEffect (w : world) (e : effect) : Prop :=
  match e with
  | Enqueue (News n) =>
      replayed w n \/ fresh w (nowSevenDays w - SEVEN_DAYS) (cachedHeadlines w) n
  | DbCreate n _ => fresh w (nowSevenDays w - SEVEN_DAYS) (cachedHeadlines w) n
  | DbLinkQuery _ _ _ _ | DbFindQuery _ _ | DbCreateQuery _ _ _ _ _ =>
      linkedTo (cachedQueryOf w) (normalizedKeyOf w) e
  | _ => True
  end.

(** The identifiers of the items a log stores: those of the saves that
    succeeded and those of the rows found after a failed save. *)
Definition storedIds (log : list effect) : list string :=
  flat_map (fun e => match e with
                     | DbCreate n true => [id n]
                     | DbFindExisting _ _ (Returned (Some existingId)) => [existingId]
                     | _ => []
                     end) log.

(** The identifiers stored since the last call of the model, [pending]
    being those stored before the log begins. *)
Fixpoint pendingAfter (pending : list string) (log : list effect) : list string :=
  match log with
  | [] => pending
  | LlmCall _ _ :: rest => pendingAfter [] rest
  | DbCreate n true :: rest => pendingAfter (pending ++ [id n]) rest
  | DbFindExisting _ _ (Returned (Some existingId)) :: rest =>
      pendingAfter (pending ++ [existingId]) rest
  | _ :: rest => pendingAfter pending rest
  end.

(** Every write that links items to the record of the query carries
    the identifiers stored since the last call of the model, all of
    them and in the order they were stored. *)
Fixpoint linksCarry (pending : list string) (log : list effect) : Prop :=
  match log with
  | [] => True
  | e :: rest =>
      match e with
      | DbLinkQuery _ _ ids _ | DbCreateQuery _ _ _ ids _ => ids = pending
      | _ => True
      end /\ linksCarry (pendingAfter pending [e]) rest
  end.

(** Effects other than calls of the model and writes that link items. *)
Definition plain (e : effect) : Prop :=
  match e with
  | LlmCall _ _ | DbLinkQuery _ _ _ _ | DbCreateQuery _ _ _ _ _ => False
  | _ => True
  end.

End BreakingNewsInvariants.


(** ** Further servers, worlds and requests used as examples *)

Module MoreScenarios.
Import Scenarios.

(** *** Geocoding *)

(** The server after one client has asked for fifty unknown places
    within five seconds, and the request that client makes next. *)
Definition exhausted : Geocode.server :=
  snd (Geocode.serve emptyServer (List.map unknownPlace (seq 0 50))).

(** The entry of [parisCached]. *)
Definition parisEntry : Geocode.cacheEntry :=
  Geocode.CacheEntry (degrees 4885) (degrees 235) "Paris, France" 1000.

(** *** The located-posts endpoint *)

Definition lyonAnswer : Geocode.response :=
  Geocode.Response 200 []
    (Geocode.BodySuccess "Lyon" (degrees 483, degrees 4576) "Lyon, France" false).

Definition notFoundAnswer : Geocode.response :=
  Geocode.Response 404 [] (Geocode.BodyFailure "Location not found").

(** Three authors: one in Lyon, one without a location, one in a place
    the geocode endpoint does not find. *)
Definition authors : list GeoBatch.user :=
  [ GeoBatch.User "11" (Some "ana") (Some "Ana") (Some " Lyon ");
    GeoBatch.User "12" (Some "bo") (Some "Bo") (Some "   ");
    GeoBatch.User "13" (Some "cy") (Some "Cy") (Some "Nowhere") ].

Definition posts : GeoBatch.world :=
  GeoBatch.World (Some "x-token") (Some "earthquake")
    (GeoBatch.SearchOk (Some authors) (Some "449") (Some "1700000000"))
    (fun index => match index with
                  | 0%nat => Some lyonAnswer
                  | _ => Some notFoundAnswer
                  end)
    (fun index => epoch + 1200 * Z.of_nat index).

Definition lyonItem : GeoBatch.geoItem :=
  GeoBatch.GeoItem "user-11" (degrees 483, degrees 4576) "Lyon" "Lyon, France"
    (Some "ana") (Some "Ana") epoch.

(** *** Discovery *)

Import BreakingNews.

Definition withAbort (n : option nat) (w : world) : world :=
  World (XAI_API_KEY w) (X_BEARER_TOKEN w) (queryParam w) n
    (normalizeAnswer w) (table w) (lookupFails w) (parseDate w)
    (parseCoordinates w) (nowSixHours w) (nowSevenDays w) (nowReplay w)
    (processStartTime w) (loopNow w) (itemNow w) (llm w) (photon w) (xSearch w)
    (randomUUID w) (createSucceeds w) (findExisting w) (existingQuery w)
    (linkSucceeds w) (queryUUID w).

Definition withCoordinates (f : string -> option coords) (w : world) : world :=
  World (XAI_API_KEY w) (X_BEARER_TOKEN w) (queryParam w) (abortAt w)
    (normalizeAnswer w) (table w) (lookupFails w) (parseDate w)
    f (nowSixHours w) (nowSevenDays w) (nowReplay w)
    (processStartTime w) (loopNow w) (itemNow w) (llm w) (photon w) (xSearch w)
    (randomUUID w) (createSucceeds w) (findExisting w) (existingQuery w)
    (linkSucceeds w) (queryUUID w).

(** The client leaves while the query is normalised; the model would
    report a story in every round. *)
Definition gone : world :=
  withAbort (Some 1%nat) (withLlm (fun _ => LlmCalls [candidate 0]) (calm [])).

(** The store of [cached], with coordinates that cannot be read. *)
Definition unreadable : world := withCoordinates (fun _ => None) cached.

(** The record the run in [cached] finds, and the write that links the
    two fresh items to it. *)
Definition foundRecord : searchQueryRow :=
  SearchQueryRow "query-new" "world" "Global News" (epoch - hour) [recentRow].


(** A search API that answers the first query with the status 429 and
    would answer the others with a post. *)
Definition longPost : rawTweet :=
  RawTweet "900" (Some "A strong earthquake was felt in the city") "77" "en"
    None None None None.

Definition limitedFirst (k : nat) (q : string) : xOutcome :=
  match k with
  | 0%nat => XNotOk 429
  | _ => XBody (DataList [longPost]) UsersAbsent
  end.

End MoreScenarios.

(** * Properties *)

(** ** The string primitives on examples *)

Module JSFacts.
Import JS.

Example trim_ex : trim "  New  York " = "New  York".
Proof. reflexivity. Qed.

Example collapse_ex : collapseSpaces "a  b 	c" = "a b c".
Proof. reflexivity. Qed.

Example split_ex : split " "%char "a  b" = ["a"; ""; "b"].
Proof. reflexivity. Qed.

Example split_empty_ex : split ","%char "" = [""].
Proof. reflexivity. Qed.

Example dedupe_ex : removeDuplicates ["a"; "b"; "a"; "c"; "b"] = ["a"; "b"; "c"].
Proof. reflexivity. Qed.

Example lower_ex : toLowerCase "PaRis, FR" = "paris, fr".
Proof. reflexivity. Qed.

Example ceil_ex : ceilDiv 59001 1000 = 60 /\ ceilDiv 60000 1000 = 60 /\ ceilDiv 0 1000 = 0.
Proof. repeat split; reflexivity. Qed.

Example pretty_ex : pretty 42%Z = "42".
Proof. reflexivity. Qed.

Example blank_ex : isBlank "  " = true /\ isBlank "" = true /\ isBlank " a " = false.
Proof. repeat split; reflexivity. Qed.

(** The no-break space is white space. *)
Example nbsp_ex :
  isBlank (fromCharCode 160) = true /\
  trim (fromCharCode 160 +:+ " a" +:+ fromCharCode 160) = "a" /\
  collapseSpaces ("a" +:+ fromCharCode 160 +:+ " b") = "a b".
Proof. repeat split; reflexivity. Qed.

(** The accented capital letters are lowered, the multiplication sign
    and the sharp s are not changed. *)
Example lower_latin_ex :
  toLowerCase (fromCharCode 206 +:+ "LE") = fromCharCode 238 +:+ "le" /\
  toLowerCase (fromCharCode 215) = fromCharCode 215 /\
  toLowerCase (fromCharCode 223) = fromCharCode 223.
Proof. repeat split; reflexivity. Qed.

(** The white space among the code units below 256, and the code units
    that [toLowerCase] changes. *)
Lemma isSpace_spec (c : ascii) :
  isSpace c = true <-> In (nat_of_ascii c) [9; 10; 11; 12; 13; 32; 160]%nat.
Proof.
  destruct c as [[] [] [] [] [] [] [] []]; vm_compute;
    (split; [intros H; first [discriminate H | tauto]
            | intros H; first [reflexivity
                              | repeat (destruct H as [H | H]; [discriminate H|]);
                                destruct H]]).
Qed.

Lemma lowerChar_spec (c : ascii) :
  let n := nat_of_ascii c in
  lowerChar c =
    if ((65 <=? n) && (n <=? 90) ||
        (192 <=? n) && (n <=? 222) && negb (n =? 215))%nat
    then ascii_of_nat (n + 32) else c.
Proof. destruct c as [[] [] [] [] [] [] [] []]; vm_compute; reflexivity. Qed.

End JSFacts.

(** ** Facts about the geocode endpoint *)

Module GeocodeFacts.
Import Geocode.

(** A [Forall] obtained from a boolean test of the whole list. *)
Lemma Forall_by_test {A : Type} (P : A -> Prop) (p : A -> bool) (l : list A) :
  (forall x, p x = true -> P x) -> forallb p l = true -> Forall P l.
Proof.
  intros H Hl. apply List.Forall_forall. intros x Hx.
  apply H. exact (proj1 (forallb_forall p l) Hl x Hx).
Qed.

Lemma trimStart_blank s : JS.isBlank s = true -> JS.trimStart s = "".
Proof.
  induction s as [|c r IH]; simpl; [reflexivity|].
  destruct (JS.isSpace c); simpl; [exact IH | discriminate].
Qed.

Lemma trim_blank s : JS.isBlank s = true -> JS.trim s = "".
Proof.
  intros H. unfold JS.trim. rewrite (trimStart_blank s H). reflexivity.
Qed.

(** C7.  A request whose [location] parameter is absent, empty or made
    of white space only is answered with status 400 and the body
    [{error: "location parameter is required"}]; it has no effect at
    all: the cache is not read, the limiter is not consulted, no
    provider is called, and the state of the server is unchanged. *)
Theorem blank_location_is_rejected (w : world) (r : request) (s : server) :
  location r = None \/ (exists l, location r = Some l /\ JS.isBlank l = true) ->
  GET w r s =
    (Response 400 [] (BodyError "location parameter is required"), [], s).
Proof.
  intros [H | (l & H & Hb)]; unfold GET; rewrite H; [reflexivity|].
  rewrite (trim_blank l Hb). simpl. rewrite orb_true_r. reflexivity.
Qed.

Lemma fresh_hit (w : world) (r : request) (s : server) (l : string) (cached : cacheEntry) :
  location r = Some l ->
  JS.trim l <> "" ->
  mapGet (JS.toLowerCase (JS.trim l)) (geocodeCache s) = Some cached ->
  nowCache w - timestamp cached < CACHE_TTL ->
  GET w r s =
    (Response 200 []
       (BodySuccess l (lon cached, lat cached) (display_name cached) true),
     [CacheHas (JS.toLowerCase (JS.trim l)); CacheGet (JS.toLowerCase (JS.trim l))],
     s).
Proof.
  intros Hl Ht Hg Hn. unfold GET. rewrite Hl.
  assert (l <> "") as Hne by (intros ->; apply Ht; reflexivity).
  apply String.eqb_neq in Hne, Ht. rewrite Hne, Ht. simpl.
  unfold mapHas. rewrite Hg.
  apply Z.ltb_lt in Hn. rewrite Hn. reflexivity.
Qed.

(** C10.  A request for a location whose trimmed, lower-cased key has a
    cache entry younger than 24 hours is answered with status 200,
    [cached: true] and the stored coordinates and name.  The only
    effects are the two reads of the cache: the limiter is not
    consulted and no provider is called, so the answer is never 429 and
    the table of limits, like the rest of the state, is unchanged. *)
Theorem cached_location_skips_the_limiter (w : world) (r : request) (s : server)
  (l : string) (cached : cacheEntry) :
  location r = Some l ->
  JS.trim l <> "" ->
  mapGet (JS.toLowerCase (JS.trim l)) (geocodeCache s) = Some cached ->
  nowCache w - timestamp cached < CACHE_TTL ->
  fst (fst (GET w r s)) =
    Response 200 []
      (BodySuccess l (lon cached, lat cached) (display_name cached) true) /\
  status (fst (fst (GET w r s))) <> 429 /\
  snd (fst (GET w r s)) =
    [CacheHas (JS.toLowerCase (JS.trim l)); CacheGet (JS.toLowerCase (JS.trim l))] /\
  forallb (fun e => negb (isRateLimit e) && negb (isUpstream e))
    (snd (fst (GET w r s))) = true /\
  rateLimitMap (snd (GET w r s)) = rateLimitMap s /\
  snd (GET w r s) = s.
Proof.
  intros Hl Ht Hg Hn. rewrite (fresh_hit w r s l cached Hl Ht Hg Hn).
  cbn [fst snd status]. repeat split. discriminate.
Qed.

Lemma checkRateLimit_opens (now : Z) (ip : string) (m : gmap string rateLimit) :
  match m !! bucketKey ip with
  | Some l => resetAt l < now
  | None => True
  end ->
  checkRateLimit now ip m =
    (RateLimitResult true None,
     <[bucketKey ip := RateLimit 1 (now + RATE_LIMIT_WINDOW)]> m).
Proof.
  unfold checkRateLimit. destruct (m !! bucketKey ip) as [l|]; [|reflexivity].
  intros H. apply Z.ltb_lt in H. rewrite H. reflexivity.
Qed.

Lemma checkRateLimit_counts (now : Z) (ip : string) (m : gmap string rateLimit)
  (l : rateLimit) (c : Z) :
  m !! bucketKey ip = Some l -> now <= resetAt l -> c <= count l ->
  exists l',
    snd (checkRateLimit now ip m) !! bucketKey ip = Some l' /\
    resetAt l' = resetAt l /\ Z.min (c + 1) 50 <= count l' /\
    (50 <= c -> allowed (fst (checkRateLimit now ip m)) = false /\
                retryAfter (fst (checkRateLimit now ip m)) <> None).
Proof.
  intros Hm Hn Hc. unfold checkRateLimit. rewrite Hm.
  destruct (resetAt l <? now) eqn:E; [apply Z.ltb_lt in E; lia|].
  unfold MAX_REQUESTS_PER_WINDOW.
  destruct (50 <=? count l) eqn:F; simpl.
  - apply Z.leb_le in F. exists l. repeat split; try assumption; try lia; discriminate.
  - apply Z.leb_gt in F. eexists. rewrite lookup_insert_eq.
    repeat split; simpl; lia.
Qed.

(** What a request that consults the limiter does to the table of limits,
    and what it answers when the limiter refuses. *)
Lemma clientIp_not_empty (r : request) : clientIp r <> "".
Proof.
  unfold clientIp, JS.orElse.
  destruct (x_forwarded_for r) as [h|];
    [destruct (String.eqb_spec (hd "" (JS.split ","%char h)) "")|];
    try assumption;
    destruct (x_real_ip r) as [x|]; try discriminate;
    destruct (String.eqb_spec x ""); try assumption; discriminate.
Qed.

Lemma bucketKey_clientIp (r : request) : bucketKey (clientIp r) = clientIp r.
Proof.
  unfold bucketKey. destruct (String.eqb_spec (clientIp r) ""); [|reflexivity].
  exfalso. exact (clientIp_not_empty r e).
Qed.

(** The case analysis of the handler: the goal is split along the
    branches of [GET w r s]. *)
Ltac get_cases w r s :=
  unfold GET;
  let l := fresh "l" in
  let Hloc := fresh "Hloc" in
  let Hblank := fresh "Hblank" in
  destruct (location r) as [l|] eqn:Hloc;
  [destruct (String.eqb l "" || String.eqb (JS.trim l) "") eqn:Hblank|];
  [| let res := fresh "res" in
     let limits := fresh "limits" in
     let Hlim := fresh "Hlim" in
     let es2 := fresh "es2" in
     let result := fresh "result" in
     let Hgeo := fresh "Hgeo" in
     let cached := fresh "cached" in
     let Hget := fresh "Hget" in
     let Hfresh := fresh "Hfresh" in
     let Hallowed := fresh "Hallowed" in
     let es3 := fresh "es3" in
     let cache2 := fresh "cache2" in
     let Hevict := fresh "Hevict" in
     destruct (checkRateLimit (nowLimit w) (clientIp r) (rateLimitMap s))
       as [res limits] eqn:Hlim;
     destruct (geocodeWithRetry (providers w) l) as [es2 result] eqn:Hgeo;
     unfold mapHas;
     destruct (mapGet (JS.toLowerCase (JS.trim l)) (geocodeCache s))
       as [cached|] eqn:Hget;
     [destruct (nowCache w - timestamp cached <? CACHE_TTL) eqn:Hfresh|];
     cbn beta iota zeta;
     [| destruct (allowed res) eqn:Hallowed; cbn [negb];
        [destruct result;
         [match goal with
          | |- context [evict ?c] => destruct (evict c) as [es3 cache2] eqn:Hevict
          end|]|]
      | destruct (allowed res) eqn:Hallowed; cbn [negb];
        [destruct result;
         [match goal with
          | |- context [evict ?c] => destruct (evict c) as [es3 cache2] eqn:Hevict
          end|]|] ]
   |].

Lemma evict_effects (cache1 cache2 : cacheMap) (es3 : list effect) :
  evict cache1 = (es3, cache2) ->
  (es3 = [] /\ cache2 = cache1) \/
  (exists firstKey rest v,
     cache1 = (firstKey, v) :: rest /\ firstKey <> "" /\
     (1000 < length cache1)%nat /\
     es3 = [CacheDelete firstKey] /\ cache2 = mapDelete firstKey cache1).
Proof.
  unfold evict. destruct (1000 <? length cache1)%nat eqn:E;
    [|intros [= <- <-]; left; auto].
  destruct cache1 as [|[k v] rest]; cbn [mapFirstKey];
    [intros [= <- <-]; left; auto|].
  destruct (String.eqb_spec k "") as [-> | Hne]; intros [= <- <-]; [left; auto|].
  right. exists k, rest, v. apply Nat.ltb_lt in E. auto.
Qed.

(** What a request that consults the limiter does to the table of limits,
    and what it answers when the limiter refuses. *)
Lemma GET_consults (w : world) (r : request) (s s' : server)
  (resp : response) (es : list effect) :
  GET w r s = (resp, es, s') ->
  existsb isRateLimit es = true ->
  rateLimitMap s' = snd (checkRateLimit (nowLimit w) (clientIp r) (rateLimitMap s)) /\
  (allowed (fst (checkRateLimit (nowLimit w) (clientIp r) (rateLimitMap s))) = false ->
   status resp = 429 /\
   (exists v, headers resp = [("Retry-After", v)]) /\
   forallb (fun e => negb (isUpstream e)) es = true).
Proof.
  get_cases w r s; intros [= <- <- <-]; cbn [existsb isRateLimit orb];
    try discriminate; intros _; cbn [fst snd rateLimitMap status headers];
    (split; [reflexivity|]); intros Ha; try congruence.
  all: split; [reflexivity|]; split; [eauto | reflexivity].
Qed.

Lemma serve_app (s : server) (xs ys : list (world * request)) :
  serve s (xs ++ ys) =
    (fst (serve s xs) ++ fst (serve (snd (serve s xs)) ys),
     snd (serve (snd (serve s xs)) ys)).
Proof.
  revert s. induction xs as [|[w r] xs IH]; intros s; simpl.
  - destruct (serve s ys); reflexivity.
  - destruct (GET w r s) as [[resp es] s1]. rewrite IH.
    destruct (serve s1 xs) as [o1 s2]; simpl.
    destruct (serve s2 ys); reflexivity.
Qed.

(** A refusal comes from the limiter. *)
Lemma GET_429 (w : world) (r : request) (s : server) :
  status (fst (fst (GET w r s))) = 429 ->
  allowed (fst (checkRateLimit (nowLimit w) (clientIp r) (rateLimitMap s))) = false.
Proof.
  get_cases w r s; cbn; try discriminate; try (destruct (containsNotFound _); discriminate);
    intros _; assumption.
Qed.

Lemma checkRateLimit_other (now : Z) (ip k : string) (m : gmap string rateLimit) :
  k <> bucketKey ip -> snd (checkRateLimit now ip m) !! k = m !! k.
Proof.
  intros Hne. unfold checkRateLimit.
  destruct (m !! bucketKey ip) as [l|]; cbn.
  - destruct (resetAt l <? now); cbn; [apply lookup_insert_ne; congruence|].
    destruct (MAX_REQUESTS_PER_WINDOW <=? count l); cbn; [reflexivity|].
    apply lookup_insert_ne. congruence.
  - apply lookup_insert_ne. congruence.
Qed.

Lemma checkRateLimit_admits (now : Z) (ip : string) (m : gmap string rateLimit)
  (l : rateLimit) :
  m !! bucketKey ip = Some l -> now <= resetAt l -> count l < 50 ->
  allowed (fst (checkRateLimit now ip m)) = true /\
  snd (checkRateLimit now ip m) !! bucketKey ip =
    Some (RateLimit (count l + 1) (resetAt l)).
Proof.
  intros Hm Hn Hc. unfold checkRateLimit. rewrite Hm.
  destruct (resetAt l <? now) eqn:E; [apply Z.ltb_lt in E; lia|].
  unfold MAX_REQUESTS_PER_WINDOW.
  destruct (50 <=? count l) eqn:F; [apply Z.leb_le in F; lia|].
  cbn. split; [reflexivity | apply lookup_insert_eq].
Qed.

Lemma checkRateLimit_refuses (now : Z) (ip : string) (m : gmap string rateLimit)
  (l : rateLimit) :
  m !! bucketKey ip = Some l -> now <= resetAt l -> 50 <= count l ->
  allowed (fst (checkRateLimit now ip m)) = false /\
  snd (checkRateLimit now ip m) = m.
Proof.
  intros Hm Hn Hc. unfold checkRateLimit. rewrite Hm.
  destruct (resetAt l <? now) eqn:E; [apply Z.ltb_lt in E; lia|].
  unfold MAX_REQUESTS_PER_WINDOW.
  destruct (50 <=? count l) eqn:F; [|apply Z.leb_gt in F; lia].
  split; reflexivity.
Qed.

(** The table of limits after a request: untouched, or the one the
    limiter returns. *)
Lemma GET_limits (w : world) (r : request) (s : server) :
  rateLimitMap (snd (GET w r s)) = rateLimitMap s \/
  rateLimitMap (snd (GET w r s)) =
    snd (checkRateLimit (nowLimit w) (clientIp r) (rateLimitMap s)).
Proof.
  get_cases w r s; cbn [fst snd rateLimitMap]; auto.
Qed.

(** A request for which the limiter is not consulted leaves the table of
    limits as it is. *)
Lemma GET_skips (w : world) (r : request) (s : server) :
  existsb isRateLimit (snd (fst (GET w r s))) = false ->
  rateLimitMap (snd (GET w r s)) = rateLimitMap s.
Proof.
  get_cases w r s; cbn [fst snd rateLimitMap existsb isRateLimit orb];
    try reflexivity; discriminate.
Qed.

(** The limiter is consulted exactly for the requests that name a
    location that is not blank and is not served from the cache. *)
Lemma GET_reaches (w : world) (r : request) (s : server) :
  existsb isRateLimit (snd (fst (GET w r s))) = true <-> reachesLimiter w r s.
Proof.
  unfold reachesLimiter. get_cases w r s;
    cbn [fst snd existsb isRateLimit orb app].
  - (* blank *)
    split; [intros H; discriminate H|]. intros (l' & E & Hne & _).
    injection E as <-. apply orb_true_iff in Hblank. exfalso.
    destruct Hblank as [Hb | Hb]; apply String.eqb_eq in Hb.
    + subst l. apply Hne. reflexivity.
    + contradiction.
  - (* served from the cache *)
    split; [intros H; discriminate H|]. intros (l' & E & _ & Hc).
    injection E as <-. rewrite Hget in Hc. apply Z.ltb_lt in Hfresh. lia.
  - split; [intros _ | reflexivity].
    apply orb_false_iff in Hblank. destruct Hblank as [_ Hb].
    apply String.eqb_neq in Hb. exists l. rewrite Hget.
    apply Z.ltb_ge in Hfresh. auto.
  - split; [intros _ | reflexivity].
    apply orb_false_iff in Hblank. destruct Hblank as [_ Hb].
    apply String.eqb_neq in Hb. exists l. rewrite Hget.
    apply Z.ltb_ge in Hfresh. auto.
  - split; [intros _ | reflexivity].
    apply orb_false_iff in Hblank. destruct Hblank as [_ Hb].
    apply String.eqb_neq in Hb. exists l. rewrite Hget.
    apply Z.ltb_ge in Hfresh. auto.
  - split; [intros _ | reflexivity].
    apply orb_false_iff in Hblank. destruct Hblank as [_ Hb].
    apply String.eqb_neq in Hb. exists l. rewrite Hget. auto.
  - split; [intros _ | reflexivity].
    apply orb_false_iff in Hblank. destruct Hblank as [_ Hb].
    apply String.eqb_neq in Hb. exists l. rewrite Hget. auto.
  - split; [intros _ | reflexivity].
    apply orb_false_iff in Hblank. destruct Hblank as [_ Hb].
    apply String.eqb_neq in Hb. exists l. rewrite Hget. auto.
  - split; [intros H; discriminate H|]. intros (l' & E & _). discriminate E.
Qed.

(** Inside an open window whose bucket has counted [j] requests, the
    requests counted next are admitted up to the fiftieth and refused
    from the fifty-first on, whatever else the server is asked in
    between. *)
Lemma serve_window (ip : string) (T : Z) (rs : list (world * request)) :
  ip <> "" ->
  forall (s : server) (j : Z),
    1 <= j ->
    rateLimitMap s !! ip = Some (RateLimit (Z.min j 50) T) ->
    Forall (fun p => nowLimit (fst (fst p)) <= T)
      (countedFor ip rs (fst (serve s rs))) ->
    forall (k : nat) p,
      nth_error (countedFor ip rs (fst (serve s rs))) k = Some p ->
      (j + Z.of_nat k < 50 -> status (fst (snd p)) <> 429) /\
      (50 <= j + Z.of_nat k ->
       status (fst (snd p)) = 429 /\
       (exists v, headers (fst (snd p)) = [("Retry-After", v)]) /\
       forallb (fun e => negb (isUpstream e)) (snd (snd p)) = true).
Proof.
  intros Hip. assert (bucketKey ip = ip) as Hkey
    by (unfold bucketKey; destruct (String.eqb_spec ip ""); [contradiction | reflexivity]).
  induction rs as [|[w r] rs IH]; intros s j Hj Hb Htimes k p Hnth.
  - destruct k; discriminate.
  - revert Htimes Hnth. cbn [serve].
    pose proof (GET_429 w r s) as H429.
    pose proof (GET_skips w r s) as Hskip.
    pose proof (GET_limits w r s) as Hlim.
    destruct (GET w r s) as [[resp es] s1] eqn:HG.
    destruct (serve s1 rs) as [outs s2] eqn:Hs.
    cbn [fst snd] in *. unfold countedFor. cbn [List.filter combine fst snd].
    fold (countedFor ip rs outs).
    destruct (String.eqb_spec (clientIp r) ip) as [E | E]; cbn [andb].
    + destruct (existsb isRateLimit es) eqn:Hc.
      * intros Htimes Hnth. apply Forall_cons in Htimes as [Ht Htimes].
        cbn [fst snd] in Ht.
        destruct (GET_consults _ _ _ _ _ _ HG Hc) as [Hmap Hdeny].
        rewrite E in *. rewrite <- Hkey in Hb.
        destruct (Z_lt_le_dec j 50) as [Hlt | Hge].
        -- destruct (checkRateLimit_admits (nowLimit w) ip (rateLimitMap s) _ Hb
                       ltac:(cbn; lia) ltac:(cbn; lia)) as [Ha Hnew].
           cbn [count resetAt] in Hnew. rewrite Hkey in Hnew. rewrite <- Hmap in Hnew.
           destruct k as [|k]; cbn [nth_error] in Hnth.
           ++ injection Hnth as <-. cbn [fst snd]. split; [|lia].
              intros _ E429. rewrite (H429 E429) in Ha. discriminate.
           ++ specialize (IH s1 (j + 1) ltac:(lia)).
              rewrite Hs in IH. cbn [fst] in IH.
              replace (Z.min (j + 1) 50) with (Z.min j 50 + 1) in IH by lia.
              destruct (IH Hnew Htimes k p Hnth) as [I1 I2].
              split; intros H; [apply I1 | apply I2]; lia.
        -- destruct (checkRateLimit_refuses (nowLimit w) ip (rateLimitMap s) _ Hb
                       ltac:(cbn; lia) ltac:(cbn; lia)) as [Ha Hsame].
           rewrite Hsame in Hmap. rewrite Hkey in Hb. rewrite <- Hmap in Hb.
           destruct k as [|k]; cbn [nth_error] in Hnth.
           ++ injection Hnth as <-. cbn [fst snd]. split; [lia|].
              intros _. apply Hdeny. exact Ha.
           ++ specialize (IH s1 j Hj). rewrite Hs in IH. cbn [fst] in IH.
              destruct (IH Hb Htimes k p Hnth) as [I1 I2].
              split; intros H; [lia | apply I2; lia].
      * intros Htimes Hnth. rewrite <- (Hskip eq_refl) in Hb.
        specialize (IH s1 j Hj). rewrite Hs in IH. cbn [fst] in IH.
        exact (IH Hb Htimes k p Hnth).
    + intros Htimes Hnth.
      assert (rateLimitMap s1 !! ip = rateLimitMap s !! ip) as Hsame.
      { destruct Hlim as [-> | ->]; [reflexivity|].
        apply checkRateLimit_other. rewrite bucketKey_clientIp. congruence. }
      rewrite <- Hsame in Hb.
      specialize (IH s1 j Hj). rewrite Hs in IH. cbn [fst] in IH.
      exact (IH Hb Htimes k p Hnth).
Qed.

(** C6, as the code has it.  Take any sequence of requests served one
    after the other, from any clients, and in it the requests the
    limiter counted for one client: those of that client that name a
    location that is not blank and are not served from the cache.  Let
    the first of them open a window (no bucket of the client, or an
    expired one) and the others arrive before that window ends, 60
    seconds later.  Then the first fifty of them are not refused, and the
    fifty-first, like every later one, is answered with status 429 and a
    [Retry-After] header, and no provider is called for it. *)
Theorem request_51_is_limited (s : server) (rs : list (world * request))
  (ip : string) (first : (world * request) * (response * list effect))
  (rest : list ((world * request) * (response * list effect))) :
  countedFor ip rs (fst (serve s rs)) = first :: rest ->
  match rateLimitMap s !! ip with
  | Some l => resetAt l < nowLimit (fst (fst first))
  | None => True
  end ->
  Forall (fun p => nowLimit (fst (fst p)) <=
                   nowLimit (fst (fst first)) + RATE_LIMIT_WINDOW) rest ->
  (forall (k : nat) p,
      nth_error (first :: rest) k = Some p -> (k < 50)%nat ->
      status (fst (snd p)) <> 429) /\
  (forall (k : nat) p,
      nth_error (first :: rest) k = Some p -> (50 <= k)%nat ->
      status (fst (snd p)) = 429 /\
      (exists v, headers (fst (snd p)) = [("Retry-After", v)]) /\
      forallb (fun e => negb (isUpstream e)) (snd (snd p)) = true) /\
  (forall w r s0,
      existsb isRateLimit (snd (fst (GET w r s0))) = true <-> reachesLimiter w r s0).
Proof.
  intros Hcounted Hopen Htimes.
  assert (forall (k : nat) p,
            nth_error (first :: rest) k = Some p ->
            (Z.of_nat k < 50 -> status (fst (snd p)) <> 429) /\
            (50 <= Z.of_nat k ->
             status (fst (snd p)) = 429 /\
             (exists v, headers (fst (snd p)) = [("Retry-After", v)]) /\
             forallb (fun e => negb (isUpstream e)) (snd (snd p)) = true)) as Hall.
  { revert s Hcounted Hopen.
    induction rs as [|[w r] rs IH]; intros s Hcounted Hopen; [discriminate|].
    revert Hcounted. cbn [serve].
    pose proof (GET_429 w r s) as H429.
    pose proof (GET_skips w r s) as Hskip.
    pose proof (GET_limits w r s) as Hlim.
    destruct (GET w r s) as [[resp es] s1] eqn:HG.
    pose proof (serve_window ip (nowLimit w + RATE_LIMIT_WINDOW) rs) as Hwin.
    destruct (serve s1 rs) as [outs s2] eqn:Hs.
    cbn [fst snd] in *. unfold countedFor. cbn [List.filter combine fst snd].
    fold (countedFor ip rs outs).
    destruct (String.eqb_spec (clientIp r) ip) as [E | E]; cbn [andb].
    - destruct (existsb isRateLimit es) eqn:Hc.
      + intros [= <- <-]. cbn [fst snd] in *.
        destruct (GET_consults _ _ _ _ _ _ HG Hc) as [Hmap _].
        assert (ip <> "") as Hip by (rewrite <- E; apply clientIp_not_empty).
        assert (bucketKey ip = ip) as Hkey
          by (unfold bucketKey; destruct (String.eqb_spec ip "");
              [contradiction | reflexivity]).
        rewrite E in *. rewrite <- Hkey in Hopen.
        rewrite (checkRateLimit_opens _ _ _ Hopen) in Hmap, H429.
        cbn [fst snd allowed] in Hmap, H429.
        assert (rateLimitMap s1 !! ip =
                Some (RateLimit (Z.min 1 50) (nowLimit w + RATE_LIMIT_WINDOW))) as Hb
          by (rewrite Hmap, Hkey; apply lookup_insert_eq).
        intros [|k] p Hnth; cbn [nth_error] in Hnth.
        * injection Hnth as <-. cbn [fst snd]. split; [|lia].
          intros _ E429. specialize (H429 E429). discriminate.
        * pose proof (Hwin Hip s1 1 ltac:(lia) Hb) as Hw.
          rewrite Hs in Hw. cbn [fst] in Hw.
          destruct (Hw Htimes k p Hnth) as [I1 I2].
          split; intros H; [apply I1 | apply I2]; lia.
      + intros Hcounted. rewrite <- (Hskip eq_refl) in Hopen.
        specialize (IH s1). rewrite Hs in IH. exact (IH Hcounted Hopen).
    - intros Hcounted.
      assert (first :: rest <> []) as Hne by discriminate.
      assert (ip <> "") as Hip.
      { assert (In first (countedFor ip rs outs)) as Hin
          by (rewrite Hcounted; left; reflexivity).
        unfold countedFor in Hin. apply filter_In in Hin. destruct Hin as [_ Hin].
        apply andb_true_iff in Hin. destruct Hin as [Hin _].
        apply String.eqb_eq in Hin. rewrite <- Hin. apply clientIp_not_empty. }
      assert (rateLimitMap s1 !! ip = rateLimitMap s !! ip) as Hsame.
      { destruct Hlim as [-> | ->]; [reflexivity|].
        apply checkRateLimit_other. rewrite bucketKey_clientIp.
        unfold bucketKey. destruct (String.eqb_spec ip ""); congruence. }
      rewrite <- Hsame in Hopen.
      specialize (IH s1). rewrite Hs in IH. exact (IH Hcounted Hopen). }
  split; [|split; [|apply GET_reaches]].
  - intros k p Hnth Hk. apply (Hall k p Hnth). lia.
  - intros k p Hnth Hk. apply (Hall k p Hnth). lia.
Qed.

(** *** The properties on concrete requests *)

Import Scenarios.

Lemma blank_location_is_rejected_witness :
  JS.isBlank blanks = true /\
  GET (at_time 1000 knowsParis) (ask blanks) parisCached =
    (Response 400 [] (BodyError "location parameter is required"), [], parisCached).
Proof.
  split; [reflexivity|].
  apply (blank_location_is_rejected (at_time 1000 knowsParis) (ask blanks) parisCached).
  right. exists blanks. split; reflexivity.
Defined.

Lemma cached_location_skips_the_limiter_witness :
  5000 - 1000 < CACHE_TTL /\
  fst (fst (GET (at_time 5000 knowsNothing)
              (ask (" " +:+ island +:+ JS.fromCharCode 160)) islandCached)) =
    Response 200 []
      (BodySuccess (" " +:+ island +:+ JS.fromCharCode 160)
         (degrees (-145), degrees 4620) "Ile de Re, France" true).
Proof.
  split; [reflexivity|].
  destruct (cached_location_skips_the_limiter (at_time 5000 knowsNothing)
              (ask (" " +:+ island +:+ JS.fromCharCode 160)) islandCached
              (" " +:+ island +:+ JS.fromCharCode 160) islandEntry
              eq_refl ltac:(discriminate) eq_refl eq_refl) as [H _].
  rewrite H. reflexivity.
Defined.

(** C6 as stated fails: the fifty-first request of one client within one
    second is served from the cache, with status 200, when the place
    it names was resolved by the first. *)
Lemma cached_request_51_is_not_limited :
  length (List.map parisAgain (seq 0 51)) = 51%nat /\
  forallb (fun wr => String.eqb (clientIp (snd wr)) client &&
                     (nowLimit (fst wr) <=? 1000 + RATE_LIMIT_WINDOW))
    (List.map parisAgain (seq 0 51)) = true /\
  List.last (fst (serve emptyServer (List.map parisAgain (seq 0 51))))
    (Response 0 [] (BodyError ""), []) =
    (Response 200 []
       (BodySuccess "Paris" (degrees 235, degrees 4885) "Paris, France" true),
     [CacheHas "paris"; CacheGet "paris"]) /\
  status (fst (List.last (fst (serve emptyServer (List.map parisAgain (seq 0 51))))
                 (Response 0 [] (BodyError ""), []))) <> 429.
Proof.
  split; [reflexivity|]. split; [vm_compute; reflexivity|].
  split; [vm_compute; reflexivity|]. vm_compute. discriminate.
Qed.

Lemma request_51_is_limited_witness :
  length (countedFor client busy (fst (serve emptyServer busy))) = 51%nat /\
  status (fst (snd (nth 50 (countedFor client busy (fst (serve emptyServer busy)))
                      noExchange))) = 429 /\
  (exists v,
     headers (fst (snd (nth 50 (countedFor client busy (fst (serve emptyServer busy)))
                          noExchange))) = [("Retry-After", v)]) /\
  forallb (fun e => negb (isUpstream e))
    (snd (snd (nth 50 (countedFor client busy (fst (serve emptyServer busy)))
                 noExchange))) = true.
Proof.
  split; [vm_compute; reflexivity|].
  apply (proj1 (proj2
           (request_51_is_limited emptyServer busy client
              (hd noExchange (countedFor client busy (fst (serve emptyServer busy))))
              (tl (countedFor client busy (fst (serve emptyServer busy))))
              ltac:(vm_compute; reflexivity)
              ltac:(vm_compute; exact I)
              ltac:(apply (Forall_by_test _
                             (fun p => nowLimit (fst (fst p)) <=?
                                       1000 + RATE_LIMIT_WINDOW));
                    [intros x Hx; apply Z.leb_le; exact Hx
                    | vm_compute; reflexivity])))
           50%nat).
  - vm_compute. reflexivity.
  - lia.
Defined.

End GeocodeFacts.

(** ** Facts about the discovery stream *)

Module BreakingNewsFacts.
Import BreakingNews.

(** A [Forall] over an explicit list, element by element. *)
Ltac each tac :=
  repeat (apply List.Forall_cons; [tac|]); try apply List.Forall_nil.

(** A disjunction one disjunct of which holds by reflexivity. *)
Ltac pick := solve [reflexivity | left; pick | right; pick].

(** *** Frames of a log *)

Lemma frames_app (a b : list effect) : frames (a ++ b) = frames a ++ frames b.
Proof. unfold frames. apply flat_map_app. Qed.

Lemma newsOf_app (a b : list frame) : newsOf (a ++ b) = newsOf a ++ newsOf b.
Proof. unfold newsOf. apply flat_map_app. Qed.


Lemma safeEnqueue_cases (w : world) (st : state) (f : frame) :
  safeEnqueue w st f = [Enqueue f] \/ safeEnqueue w st f = [].
Proof. unfold safeEnqueue. destruct (isActive w st); auto. Qed.

Lemma safeEnqueue_connected (w : world) (st : state) (f : frame) :
  abortAt w = None -> safeEnqueue w st f = [Enqueue f].
Proof. intros H. unfold safeEnqueue, isActive. rewrite H. reflexivity. Qed.

Lemma includes_In (l : list string) (x : string) :
  JS.includes l x = true <-> In x l.
Proof.
  unfold JS.includes. rewrite existsb_exists. split.
  - intros (y & Hy & E). apply String.eqb_eq in E. subst. exact Hy.
  - intros H. exists x. split; [exact H | apply String.eqb_refl].
Qed.

(** *** Properties of the effects of the loop that compose

    A property of logs that holds of the empty log, is kept by
    concatenation, and holds of each elementary piece of a round
    holds of everything the loop does. *)

Section Composition.
Variable w : world.
Variable P : list effect -> Prop.
Hypothesis P_nil : P [].
Hypothesis P_app : forall a b, P a -> P b -> P (a ++ b).
Hypothesis P_status : forall m, P [Enqueue (Status m)].
Hypothesis P_quiet : forall e, quiet e -> P [e].
Hypothesis P_save :
  forall attempt i n st ids,
    builtAt w attempt i n -> P (fst (fst (emitAndSave w attempt i n st ids))).

Lemma P_enqueue_status (st : state) (m : string) :
  P (safeEnqueue w st (Status m)).
Proof. destruct (safeEnqueue_cases w st (Status m)) as [-> | ->]; auto. Qed.

Lemma P_tweetsStatus (st : state) (h : string) (l : list post) :
  P (safeEnqueue w st (tweetsStatus h l)).
Proof. unfold tweetsStatus. destruct (0 <? length l)%nat; apply P_enqueue_status. Qed.

Lemma processCall_composes sevenDaysAgo attempt i call st ids :
  P (fst (fst (processCall w sevenDaysAgo attempt i call st ids))).
Proof.
  unfold processCall.
  destruct call as [a|]; [|exact P_nil].
  destruct (a_headline a) as [h|]; [|exact P_nil].
  destruct (a_location a) as [loc|]; [|exact P_nil].
  destruct (String.eqb h "" || String.eqb loc ""); [exact P_nil|].
  destruct (JS.includes (existingHeadlines st) h); [exact P_nil|].
  destruct (tooOld w sevenDaysAgo (a_timestamp a)); [exact P_nil|].
  assert (P (safeEnqueue w st (Status ("Found: " +:+ h)) ++ [GeocodeCall loc])) as H1
    by (apply P_app; [apply P_enqueue_status | apply P_quiet; exact I]).
  destruct (geocodeLocation (photon w attempt i)) as [c|]; [|exact H1].
  destruct (JS.truthy (a_search_query a)).
  - destruct (fetchRealTweets _ _ _ _) as [tweets|msg]; cbn [fst].
    + match goal with
      | |- context [emitAndSave w attempt i ?n ?s ?l] =>
          pose proof (P_save attempt i n s l (conj eq_refl eq_refl)) as Hs;
          destruct (emitAndSave w attempt i n s l) as [[es4 st4] ids4]
      end.
      cbn [fst] in *.
      repeat apply P_app;
        auto using P_enqueue_status, P_tweetsStatus; apply P_quiet; exact I.
    + repeat apply P_app; auto using P_enqueue_status; apply P_quiet; exact I.
  - match goal with
    | |- context [emitAndSave w attempt i ?n ?s ?l] =>
        pose proof (P_save attempt i n s l (conj eq_refl eq_refl)) as Hs;
        destruct (emitAndSave w attempt i n s l) as [[es4 st4] ids4]
    end.
    cbn [fst] in *. apply P_app; assumption.
Qed.

Lemma processCalls_composes sevenDaysAgo attempt calls :
  forall i st ids,
    P (fst (fst (processCalls w sevenDaysAgo attempt i calls st ids))).
Proof.
  induction calls as [|call rest IH]; intros i st ids; cbn [processCalls].
  - exact P_nil.
  - pose proof (processCall_composes sevenDaysAgo attempt i call st ids) as H1.
    destruct (processCall w sevenDaysAgo attempt i call st ids) as [[es st1] ids1].
    specialize (IH (S i) st1 ids1).
    destruct (processCalls w sevenDaysAgo attempt (S i) rest st1 ids1)
      as [[es' st2] ids2].
    cbn [fst] in *. apply P_app; assumption.
Qed.

Lemma linkItems_composes cachedQuery key raw st ids :
  P (fst (fst (linkItems w cachedQuery key raw st ids))).
Proof.
  unfold linkItems. destruct ids as [|x ids]; [exact P_nil|].
  destruct cachedQuery as [q|]; cbn [fst].
  - apply P_quiet; exact I.
  - destruct (existingQuery w (attempts st)) as [[qid|]|msg]; cbn [fst].
    + apply (P_app [_] [_]); apply P_quiet; exact I.
    + apply (P_app [_] [_]); apply P_quiet; exact I.
    + apply P_quiet; exact I.
Qed.

Lemma round_composes sevenDaysAgo cachedQuery key raw fetchCount st :
  P (fst (fst (round w sevenDaysAgo cachedQuery key raw fetchCount st))).
Proof.
  unfold round.
  set (es1 := (if (1 <? attempts st)%nat then _ else _) ++ [LlmCall _ _]).
  assert (P es1) as H1.
  { apply P_app; [|apply P_quiet; exact I].
    destruct (1 <? attempts st)%nat; [apply P_enqueue_status | exact P_nil]. }
  clearbody es1.
  assert (forall calls st2,
             P (fst (fst (
               let '(es2, st3, createdItemsIds) :=
                 processCalls w sevenDaysAgo (attempts st) 0 calls st2 [] in
               let '(es3, st4, ok) :=
                 linkItems w cachedQuery key raw st3 createdItemsIds in
               (es1 ++ es2 ++ es3,
                if ok && (fetchedCount st4 <? fetchCount)
                then appendContent (exclusion (existingHeadlines st4)) st4
                else st4, false))))) as Hp.
  { intros calls st2.
    pose proof (processCalls_composes sevenDaysAgo (attempts st) calls 0%nat st2 [])
      as H2.
    destruct (processCalls w sevenDaysAgo (attempts st) 0 calls st2 [])
      as [[es2 st3] ids].
    pose proof (linkItems_composes cachedQuery key raw st3 ids) as H3.
    destruct (linkItems w cachedQuery key raw st3 ids) as [[es3 st4] ok].
    cbn [fst] in *. repeat apply P_app; assumption. }
  destruct (llm w (attempts st)); try exact H1;
    destruct (isActive w (tick st)); try exact H1; apply Hp.
Qed.

Lemma discover_composes sevenDaysAgo cachedQuery key raw fetchCount fuel :
  forall st,
    P (fst (discover fuel w sevenDaysAgo cachedQuery key raw fetchCount st)).
Proof.
  induction fuel as [|fuel IH]; intros st; cbn [discover]; [exact P_nil|].
  destruct (continues w fetchCount st); [|exact P_nil].
  pose proof (round_composes sevenDaysAgo cachedQuery key raw fetchCount
                (nextAttempt st)) as H1.
  destruct (round w sevenDaysAgo cachedQuery key raw fetchCount (nextAttempt st))
    as [[es st1] leave].
  cbn [fst] in *. destruct leave; [exact H1|].
  specialize (IH st1).
  destruct (discover fuel w sevenDaysAgo cachedQuery key raw fetchCount st1)
    as [es' st2].
  cbn [fst] in *. apply P_app; assumption.
Qed.

Hypothesis P_replayed : forall n, replayed w n -> P [Enqueue (News n)].

Lemma replay_composes (items : list newsRow) :
  forall st,
    (forall item c, In item items ->
       parseCoordinates w (ni_coordinates item) = Some c ->
       P [Enqueue (News (cachedItem w c item))]) ->
    P (fst (fst (replay w items st))).
Proof.
  induction items as [|item rest IH]; intros st H; cbn [replay]; [exact P_nil|].
  destruct (parseCoordinates w (ni_coordinates item)) as [c|] eqn:E; [|exact P_nil].
  specialize (IH (pushHeadline (ni_headline item) st)
                (fun it c' Hin => H it c' (or_intror Hin))).
  destruct (replay w rest (pushHeadline (ni_headline item) st)) as [[es' st2] thrown].
  cbn [fst] in *. apply P_app; [|exact IH].
  destruct (safeEnqueue_cases w (pushHeadline (ni_headline item) st)
              (News (cachedItem w c item))) as [-> | ->]; [|exact P_nil].
  apply (H item c); [left; reflexivity | exact E].
Qed.

Lemma tryBody_composes :
  P (fst (fst (tryBody w (JS.orElse (queryParam w) "") initialState))).
Proof.
  unfold tryBody.
  assert (forall q item c,
             cachedQueryOf w = Some q -> In item (sq_items q) ->
             parseCoordinates w (ni_coordinates item) = Some c ->
             P [Enqueue (News (cachedItem w c item))]) as Hrep
    by (intros q item c H1 H2 H3; apply P_replayed; exists q, item, c; auto).
  unfold cachedQueryOf in Hrep.
  destruct (normalizeQuery (JS.orElse (queryParam w) "") (normalizeAnswer w))
    as [key scope]. cbn [fst] in Hrep.
  set (es1 := [NormalizeCall (JS.orElse (queryParam w) ""); CacheLookup key]).
  assert (P es1) as H1 by (apply (P_app [_] [_]); apply P_quiet; exact I).
  clearbody es1.
  destruct (lookupFails w) as [msg|].
  { cbn [fst]. repeat apply P_app; assumption. }
  assert (forall st3 scope' es2, P es2 ->
             P (fst (fst (
               let '(es4, st5) :=
                 discover 10 w (nowSevenDays w - SEVEN_DAYS)
                   (findFirstCached (table w) key (nowSixHours w - SIX_HOURS)
                      (nowSevenDays w - SEVEN_DAYS))
                   key (JS.orElse (queryParam w) "")
                   (fetchCountFor (targetCount scope')
                      (Z.of_nat (length (existingHeadlines st3))))
                   (appendContent
                      (initialContent
                         (fetchCountFor (targetCount scope')
                            (Z.of_nat (length (existingHeadlines st3))))
                         key (existingHeadlines st3)) st3) in
               (es1 ++ es2 ++
                safeEnqueue w st3
                  (Status ("Scanning " +:+ scope' +:+
                           " scope for updates (Quality target: " +:+
                           pretty (targetCount scope') +:+ ", Fetching: " +:+
                           pretty (fetchCountFor (targetCount scope')
                                     (Z.of_nat (length (existingHeadlines st3))))
                           +:+ ")...")) ++
                es4, st5, @None string))))) as Hloop.
  { intros st3 scope' es2 H2.
    match goal with
    | |- context [discover ?f w ?a ?b ?c ?d ?e ?s] =>
        pose proof (discover_composes a b c d e f s) as Hd;
        destruct (discover f w a b c d e s) as [es4 st5]
    end.
    cbn [fst] in *. repeat apply P_app; try assumption; apply P_enqueue_status. }
  destruct (findFirstCached (table w) key (nowSixHours w - SIX_HOURS)
              (nowSevenDays w - SEVEN_DAYS)) as [q|] eqn:Ecq.
  2: { specialize (Hloop (tick (tick initialState)) scope [] P_nil).
       cbn beta iota zeta in *. destruct (discover _ _ _ _ _ _ _ _).
       exact Hloop. }
  destruct (sq_items q) as [|item rest] eqn:Ei.
  { specialize (Hloop (tick (tick initialState)) scope [] P_nil).
    cbn beta iota zeta in *. destruct (discover _ _ _ _ _ _ _ _).
    exact Hloop. }
  pose proof (replay_composes (item :: rest) (tick (tick initialState))) as Hr.
  destruct (replay w (item :: rest) (tick (tick initialState)))
    as [[es st] thrown].
  assert (P (safeEnqueue w (tick (tick initialState))
               (Status ("Found cached results for " +:+ key)) ++ es)) as H2.
  { apply P_app; [apply P_enqueue_status|]. apply Hr. intros it c Hin Hc.
    apply (Hrep q it c); [reflexivity | rewrite Ei; exact Hin | exact Hc]. }
  set (es2 := safeEnqueue w (tick (tick initialState)) _ ++ es) in *.
  clearbody es2.
  destruct thrown as [msg|].
  { cbn [fst]. repeat apply P_app; assumption. }
  specialize (Hloop st scope _ H2).
  cbn beta iota zeta in *. destruct (discover _ _ _ _ _ _ _ _).
  exact Hloop.
Qed.
End Composition.


(** *** Frames and saves *)





(** *** The end of the stream *)

Lemma emitAndSave_ordinary (w : world) (attempt i : nat) (n : newsItem)
  (st : state) (ids : list string) :
  Forall ordinaryEffect (fst (fst (emitAndSave w attempt i n st ids))).
Proof.
  unfold emitAndSave.
  destruct (safeEnqueue_cases w st (News n)) as [-> | ->];
    destruct (createSucceeds w attempt i); cbn;
    try destruct (findExisting w attempt i) as [[x|]|m]; cbn;
    each ltac:(cbn; auto).
Qed.

Lemma tryBody_ordinary (w : world) :
  Forall ordinaryEffect
    (fst (fst (tryBody w (JS.orElse (queryParam w) "") initialState))).
Proof.
  apply (tryBody_composes w (Forall ordinaryEffect) (List.Forall_nil _)
           (fun a b Ha Hb => proj2 (Forall_app _ a b) (conj Ha Hb))).
  - intros m. each ltac:(reflexivity).
  - intros [] H; each ltac:(cbn in *; auto; contradiction).
  - intros. apply emitAndSave_ordinary.
  - intros n Hn. each ltac:(reflexivity).
Qed.

Lemma frames_ordinary (es : list effect) :
  Forall ordinaryEffect es -> Forall (fun f => ordinary f = true) (frames es).
Proof.
  induction 1 as [|e es He Hes IH]; [constructor|].
  change (e :: es) with ([e] ++ es). rewrite frames_app.
  apply Forall_app; split; [|exact IH].
  destruct e; cbn; each ltac:(exact He).
Qed.


(** *** The cache lookup *)

Lemma mostRecent_In (rows : list searchQueryRow) (r : searchQueryRow) :
  mostRecent rows = Some r -> In r rows.
Proof.
  revert r. induction rows as [|x rows IH]; intros r; cbn [mostRecent];
    [discriminate|].
  destruct (mostRecent rows) as [r'|].
  - destruct (sq_timestamp x <? sq_timestamp r'); intros [= <-];
      [right; apply IH; reflexivity | left; reflexivity].
  - intros [= <-]. left. reflexivity.
Qed.

Lemma mostRecent_latest (rows : list searchQueryRow) (r : searchQueryRow) :
  mostRecent rows = Some r ->
  forall r', In r' rows -> sq_timestamp r' <= sq_timestamp r.
Proof.
  revert r. induction rows as [|x rows IH]; intros r; cbn [mostRecent];
    [discriminate|].
  destruct (mostRecent rows) as [r0|] eqn:E.
  - specialize (IH r0 eq_refl).
    destruct (sq_timestamp x <? sq_timestamp r0) eqn:C; intros [= <-] r' [<- | Hin].
    + apply Z.ltb_lt in C. lia.
    + apply IH. exact Hin.
    + lia.
    + apply Z.ltb_ge in C. specialize (IH r' Hin). lia.
  - intros [= <-] r' [<- | Hin]; [lia|].
    destruct rows; [contradiction | cbn in E; destruct (mostRecent rows);
      [destruct (_ <? _)|]; discriminate].
Qed.

(** C5.  The record the lookup returns carries the key asked for and was
    refreshed less than six hours before the clock reading [now6]; it
    is a stored record, the most recently refreshed of those, and its
    items are exactly the stored items whose own time is less than
    seven days before the reading [now7]: an older item is never part
    of the result, however fresh the record. *)
Theorem cache_lookup_is_fresh (rows : list searchQueryRow) (key : string)
  (now6 now7 : Z) (q : searchQueryRow) :
  findFirstCached rows key (now6 - SIX_HOURS) (now7 - SEVEN_DAYS) = Some q ->
  SIX_HOURS = 21600000 /\ SEVEN_DAYS = 604800000 /\
  sq_normalizedKey q = key /\
  now6 - SIX_HOURS < sq_timestamp q /\
  Forall (fun item => now7 - SEVEN_DAYS < ni_timestamp item) (sq_items q) /\
  (exists r, In r rows /\ sq_id r = sq_id q /\ sq_timestamp r = sq_timestamp q /\
             forall item, In item (sq_items q) <->
                          In item (sq_items r) /\ now7 - SEVEN_DAYS < ni_timestamp item) /\
  (forall r', In r' rows -> sq_normalizedKey r' = key ->
              now6 - SIX_HOURS < sq_timestamp r' ->
              sq_timestamp r' <= sq_timestamp q).
Proof.
  unfold findFirstCached. intros H.
  destruct (mostRecent _) as [r|] eqn:E; [|discriminate].
  injection H as <-.
  pose proof (mostRecent_In _ _ E) as Hin.
  apply filter_In in Hin as [Hin Hm]. unfold matchesWhere in Hm.
  apply andb_true_iff in Hm as [Hk Ht].
  apply String.eqb_eq in Hk. apply Z.ltb_lt in Ht.
  split; [reflexivity|]. split; [reflexivity|].
  split; [exact Hk|]. split; [exact Ht|]. split; [|split].
  - cbn. apply List.Forall_forall. intros item Hi.
    apply filter_In in Hi as [_ Hi].
    apply Z.ltb_lt in Hi. exact Hi.
  - exists r. split; [exact Hin|]. split; [reflexivity|]. split; [reflexivity|].
    intros item. cbn. rewrite filter_In, Z.ltb_lt. tauto.
  - intros r' Hr' Hk' Ht'. cbn.
    apply (mostRecent_latest _ _ E). apply filter_In. split; [exact Hr'|].
    unfold matchesWhere. apply andb_true_iff. split.
    + apply String.eqb_eq. exact Hk'.
    + apply Z.ltb_lt. exact Ht'.
Qed.

(** *** The end of the stream, continued *)

(** C4, as the code has it.  While the client stays connected, the
    frames of a run are ordinary frames followed by exactly one final
    frame: [complete] when no exception reached the outer handler, and
    otherwise the [error] frame, after which no [complete] frame is
    sent. *)
Theorem stream_ends_with_complete_or_error (w : world) :
  abortAt w = None ->
  exists pre,
    Forall (fun f => ordinary f = true) pre /\
    frames (fst (run w)) =
      pre ++ [match outerCatch w with
              | Some message => Error message
              | None => Complete
              end].
Proof.
  intros Hc. unfold run, outerCatch.
  pose proof (tryBody_ordinary w) as Hb.
  destruct (tryBody w (JS.orElse (queryParam w) "") initialState)
    as [[es st] thrown].
  cbn [fst snd] in *.
  exists ([Connected "Connecting..."; Status "Analyzing query scope..."] ++ frames es).
  split.
  - apply Forall_app. split; [each ltac:(reflexivity) | apply frames_ordinary, Hb].
  - destruct thrown; cbn [fst];
      rewrite !frames_app, ?(safeEnqueue_connected w _ _ Hc), <- ?app_assoc;
      reflexivity.
Qed.

(** *** Frames and saves, continued *)




(** *** The evidence fetcher *)

Lemma searchVariants_returns (search : nat -> string -> xOutcome)
  (variants : list string) :
  forall k, exists tweets, searchVariants search k variants = Returned tweets.
Proof.
  induction variants as [|v rest IH]; intros k; cbn [searchVariants]; [eauto|].
  destruct (tryVariant (search k (cleanQuery v))) as [[| |tweets]|msg]; eauto.
Qed.

Lemma tryVariant_nothing (o : xOutcome) :
  yieldsNothing o = true ->
  match tryVariant o with
  | Returned (Return _) => False
  | _ => True
  end.
Proof.
  destruct o as [m|status|m|d u]; cbn; auto.
  - destruct (status =? 429); auto.
  - destruct d as [| |[|t ts]], u as [| |us];
      cbn [yieldsNothing tryVariant]; auto;
      match goal with
      | |- context [validTweets ?us ?ts] => destruct (validTweets us ts)
      end; auto; discriminate.
Qed.

Lemma searchVariants_nothing (search : nat -> string -> xOutcome)
  (variants : list string) :
  (forall k q, yieldsNothing (search k q) = true) ->
  forall k, searchVariants search k variants = Returned [].
Proof.
  intros H. induction variants as [|v rest IH]; intros k; cbn [searchVariants];
    [reflexivity|].
  pose proof (tryVariant_nothing _ (H k (cleanQuery v))) as Hn.
  destruct (tryVariant (search k (cleanQuery v))) as [[| |tweets]|msg];
    auto; contradiction.
Qed.

Lemma fetchRealTweets_returns (token : option string)
  (search : nat -> string -> xOutcome) (query : string) (headline : option string) :
  exists tweets, fetchRealTweets token search query headline = Returned tweets.
Proof.
  unfold fetchRealTweets. destruct (negb (JS.truthy token)); [eauto|].
  apply searchVariants_returns.
Qed.

Lemma fetchRealTweets_nothing (token : option string)
  (search : nat -> string -> xOutcome) (query : string) (headline : option string) :
  JS.truthy token = false \/ (forall k q, yieldsNothing (search k q) = true) ->
  fetchRealTweets token search query headline = Returned [].
Proof.
  unfold fetchRealTweets. intros [-> | H]; [reflexivity|].
  destruct (negb (JS.truthy token)); [reflexivity|].
  apply searchVariants_nothing, H.
Qed.

Lemma processCall_ordinary (w : world) sevenDaysAgo attempt i call st ids :
  Forall ordinaryEffect (fst (fst (processCall w sevenDaysAgo attempt i call st ids))).
Proof.
  apply (processCall_composes w (Forall ordinaryEffect) (List.Forall_nil _)
           (fun a b Ha Hb => proj2 (Forall_app _ a b) (conj Ha Hb))).
  - intros m. each ltac:(reflexivity).
  - intros [] H; each ltac:(cbn in *; auto; contradiction).
  - intros. apply emitAndSave_ordinary.
Qed.

(** C8.  The evidence fetcher returns a list on every input and never
    throws; it returns the empty list when the bearer token is missing
    or when every query variant fails (no response, a status that is not
    a success, a malformed body, no valid post).  A candidate that passed
    the checks and was geocoded, and for which the search gave nothing or
    no search hint was given, is still saved, with an empty list of
    posts, and sent in a [news] frame while the client is connected; none
    of this produces an [error] frame. *)
Theorem failed_search_keeps_the_event (w : world) (sevenDaysAgo : Z)
  (attempt i : nat) (a : args) (st : state) (ids : list string)
  (h loc : string) (c : coords) :
  a_headline a = Some h -> h <> "" ->
  a_location a = Some loc -> loc <> "" ->
  JS.includes (existingHeadlines st) h = false ->
  tooOld w sevenDaysAgo (a_timestamp a) = false ->
  geocodeLocation (photon w attempt i) = Some c ->
  (JS.truthy (a_search_query a) = false \/
   JS.truthy (X_BEARER_TOKEN w) = false \/
   (forall k q, yieldsNothing (xSearch w attempt i k q) = true)) ->
  (forall token search query headline,
      exists tweets, fetchRealTweets token search query headline = Returned tweets) /\
  (forall token search query headline,
      JS.truthy token = false \/ (forall k q, yieldsNothing (search k q) = true) ->
      fetchRealTweets token search query headline = Returned []) /\
  In (DbCreate
        (NewsItem (randomUUID w attempt i) h loc (a_summary a)
           (JS.orElse (a_category a) "General") c
           (IsoOf (itemNow w attempt i)) [])
        (createSucceeds w attempt i))
     (fst (fst (processCall w sevenDaysAgo attempt i (Some a) st ids))) /\
  (abortAt w = None ->
   In (Enqueue (News
        (NewsItem (randomUUID w attempt i) h loc (a_summary a)
           (JS.orElse (a_category a) "General") c
           (IsoOf (itemNow w attempt i)) [])))
     (fst (fst (processCall w sevenDaysAgo attempt i (Some a) st ids)))) /\
  Forall ordinaryEffect
    (fst (fst (processCall w sevenDaysAgo attempt i (Some a) st ids))).
Proof.
  intros Hh Hhne Hl Hlne Hinc Hold Hgeo Hfail.
  split; [intros; apply fetchRealTweets_returns|].
  split; [intros; apply fetchRealTweets_nothing; assumption|].
  split; [|split; [|apply processCall_ordinary]].
  all: unfold processCall; rewrite Hh, Hl.
  all: apply String.eqb_neq in Hhne, Hlne; rewrite Hhne, Hlne; cbn [orb].
  all: rewrite Hinc, Hold, Hgeo.
  all: try (intros Hc; rewrite !(safeEnqueue_connected w _ _ Hc)).
  all: unfold emitAndSave.
  all: try rewrite !(safeEnqueue_connected w _ _ Hc).
  all: destruct (JS.truthy (a_search_query a)) eqn:Hq;
    [ rewrite (fetchRealTweets_nothing (X_BEARER_TOKEN w) (xSearch w attempt i)
                 (JS.orElse (a_search_query a) "") (Some h))
        by (destruct Hfail as [? | ?]; [discriminate | assumption]) |].
  all: destruct (createSucceeds w attempt i);
    try destruct (findExisting w attempt i) as [[x|]|m]; cbn [fst];
    try rewrite !(safeEnqueue_connected w _ _ Hc);
    rewrite ?in_app_iff; cbn [In]; rewrite ?in_app_iff; cbn [In]; pick.
Qed.

(** *** The loop *)

Lemma emitAndSave_attempts (w : world) attempt i n st ids :
  attempts (snd (fst (emitAndSave w attempt i n st ids))) = attempts st.
Proof.
  unfold emitAndSave. destruct (createSucceeds w attempt i); [reflexivity|].
  destruct (findExisting w attempt i) as [[x|]|m]; reflexivity.
Qed.

Lemma processCall_attempts (w : world) sevenDaysAgo attempt i call st ids :
  attempts (snd (fst (processCall w sevenDaysAgo attempt i call st ids))) = attempts st.
Proof.
  unfold processCall.
  destruct call as [a|]; [|reflexivity].
  destruct (a_headline a) as [h|]; [|reflexivity].
  destruct (a_location a) as [loc|]; [|reflexivity].
  destruct (String.eqb h "" || String.eqb loc ""); [reflexivity|].
  destruct (JS.includes (existingHeadlines st) h); [reflexivity|].
  destruct (tooOld w sevenDaysAgo (a_timestamp a)); [reflexivity|].
  destruct (geocodeLocation (photon w attempt i)) as [c|]; [|reflexivity].
  destruct (JS.truthy (a_search_query a));
    [destruct (fetchRealTweets _ _ _ _) as [tweets|msg]; [|reflexivity]|].
  all: match goal with
       | |- context [emitAndSave ?w' ?a' ?i' ?n ?s ?l] =>
           pose proof (emitAndSave_attempts w' a' i' n s l) as Hs;
           destruct (emitAndSave w' a' i' n s l) as [[es4 st4] ids4]
       end; cbn [fst snd] in *; exact Hs.
Qed.

Lemma processCalls_attempts (w : world) sevenDaysAgo attempt calls :
  forall i st ids,
    attempts (snd (fst (processCalls w sevenDaysAgo attempt i calls st ids)))
    = attempts st.
Proof.
  induction calls as [|call rest IH]; intros i st ids; cbn [processCalls];
    [reflexivity|].
  pose proof (processCall_attempts w sevenDaysAgo attempt i call st ids) as H1.
  destruct (processCall w sevenDaysAgo attempt i call st ids) as [[es st1] ids1].
  specialize (IH (S i) st1 ids1).
  destruct (processCalls w sevenDaysAgo attempt (S i) rest st1 ids1)
    as [[es' st2] ids2].
  cbn [fst snd] in *. congruence.
Qed.

Lemma linkItems_attempts (w : world) cachedQuery key raw st ids :
  attempts (snd (fst (linkItems w cachedQuery key raw st ids))) = attempts st.
Proof.
  unfold linkItems. destruct ids; [reflexivity|].
  destruct cachedQuery; [reflexivity|].
  destruct (existingQuery w (attempts st)) as [[x|]|m]; reflexivity.
Qed.

Lemma round_attempts (w : world) sevenDaysAgo cachedQuery key raw fetchCount st :
  attempts (snd (fst (round w sevenDaysAgo cachedQuery key raw fetchCount st)))
  = attempts st.
Proof.
  unfold round.
  assert (forall calls st2, attempts st2 = attempts st ->
            forall es1,
              attempts (snd (fst (
                let '(es2, st3, createdItemsIds) :=
                  processCalls w sevenDaysAgo (attempts st) 0 calls st2 [] in
                let '(es3, st4, ok) :=
                  linkItems w cachedQuery key raw st3 createdItemsIds in
                (es1 ++ es2 ++ es3,
                 if ok && (fetchedCount st4 <? fetchCount)
                 then appendContent (exclusion (existingHeadlines st4)) st4
                 else st4, false)))) = attempts st) as Hp.
  { intros calls st2 E es1.
    pose proof (processCalls_attempts w sevenDaysAgo (attempts st) calls 0%nat st2 [])
      as H2.
    destruct (processCalls w sevenDaysAgo (attempts st) 0 calls st2 [])
      as [[es2 st3] ids].
    pose proof (linkItems_attempts w cachedQuery key raw st3 ids) as H3.
    destruct (linkItems w cachedQuery key raw st3 ids) as [[es3 st4] ok].
    cbn [fst snd] in *.
    destruct (ok && (fetchedCount st4 <? fetchCount)); cbn; congruence. }
  destruct (llm w (attempts st)); try reflexivity;
    destruct (isActive w (tick st)); try reflexivity; apply Hp; reflexivity.
Qed.

(** The bound of ten rounds comes from the condition of the loop, not
    from the fuel of the model: more fuel changes nothing. *)
Lemma discover_fuel (w : world) sevenDaysAgo cachedQuery key raw fetchCount :
  forall fuel st,
    (10 - attempts st <= fuel)%nat ->
    discover fuel w sevenDaysAgo cachedQuery key raw fetchCount st =
    discover (10 - attempts st) w sevenDaysAgo cachedQuery key raw fetchCount st.
Proof.
  induction fuel as [|fuel IH]; intros st H.
  - replace (10 - attempts st)%nat with 0%nat by lia. reflexivity.
  - cbn [discover]. destruct (continues w fetchCount st) eqn:C.
    + pose proof C as C'. unfold continues in C'.
      apply andb_true_iff in C' as [C' _]. apply andb_true_iff in C' as [_ C'].
      apply Nat.ltb_lt in C'.
      destruct (10 - attempts st)%nat as [|k] eqn:E; [lia|].
      cbn [discover]. rewrite C.
      pose proof (round_attempts w sevenDaysAgo cachedQuery key raw fetchCount
                    (nextAttempt st)) as Ha.
      destruct (round w sevenDaysAgo cachedQuery key raw fetchCount (nextAttempt st))
        as [[es st1] leave].
      cbn [fst snd nextAttempt attempts] in Ha.
      destruct leave; [reflexivity|].
      rewrite (IH st1) by lia. replace k with (10 - attempts st1)%nat by lia.
      reflexivity.
    + destruct (10 - attempts st)%nat; cbn [discover]; [reflexivity|].
      rewrite C. reflexivity.
Qed.


Lemma round_calls_the_model (w : world) sevenDaysAgo cachedQuery key raw
  fetchCount st :
  In (LlmCall (attempts st) (userContent st))
     (fst (fst (round w sevenDaysAgo cachedQuery key raw fetchCount st))).
Proof.
  unfold round.
  assert (forall calls st2 es0,
            In (LlmCall (attempts st) (userContent st))
              (fst (fst (
                let '(es2, st3, createdItemsIds) :=
                  processCalls w sevenDaysAgo (attempts st) 0 calls st2 [] in
                let '(es3, st4, ok) :=
                  linkItems w cachedQuery key raw st3 createdItemsIds in
                ((es0 ++ [LlmCall (attempts st) (userContent st)]) ++ es2 ++ es3,
                 if ok && (fetchedCount st4 <? fetchCount)
                 then appendContent (exclusion (existingHeadlines st4)) st4
                 else st4, false))))) as Hp.
  { intros calls st2 es0.
    destruct (processCalls w sevenDaysAgo (attempts st) 0 calls st2 [])
      as [[es2 st3] ids].
    destruct (linkItems w cachedQuery key raw st3 ids) as [[es3 st4] ok].
    cbn [fst]. rewrite !in_app_iff. cbn [In]. auto. }
  destruct (llm w (attempts st)); try apply Hp;
    try destruct (isActive w (tick st)); try apply Hp;
    cbn [fst]; rewrite in_app_iff; cbn [In]; auto.
Qed.

(** C2, as the code has it.  The loop goes on exactly while fewer events
    than [fetchCount] were fetched, fewer than ten rounds were made and
    less than ninety seconds have passed; it then calls the model for
    one more round, and otherwise stops at once.  [fetchCount] is the
    target of the scope (40, 20 or 5) less the number of cached
    headlines, brought into the range from 5 to 20.  For the global scope
    without cached headlines it is 20, so that after a first round that
    fetched four events the second round starts, four being less than
    twenty. *)
Theorem loop_continues_below_fetch_count (w : world) (sevenDaysAgo : Z)
  (cachedQuery : option searchQueryRow) (key raw : string) (fetchCount : Z)
  (fuel : nat) (st : state) :
  (continues w fetchCount st = true <->
     fetchedCount st < fetchCount /\ (attempts st < 10)%nat /\
     loopNow w (attempts st) - processStartTime w < 90000) /\
  (continues w fetchCount st = false ->
     discover (S fuel) w sevenDaysAgo cachedQuery key raw fetchCount st = ([], st)) /\
  (continues w fetchCount st = true ->
     In (LlmCall (S (attempts st)) (userContent st))
        (fst (discover (S fuel) w sevenDaysAgo cachedQuery key raw fetchCount st))) /\
  targetCount "global" = 40 /\ targetCount "region" = 20 /\
  targetCount "local" = 5 /\
  (forall target cached,
      fetchCountFor target cached = Z.min (Z.max (target - cached) 5) 20) /\
  fetchCountFor (targetCount "global") 0 = 20 /\
  (fetchedCount st = 4 -> attempts st = 1%nat ->
   loopNow w 1 - processStartTime w < 90000 ->
   continues w (fetchCountFor (targetCount "global") 0) st = true).
Proof.
  assert (forall fc, continues w fc st = true <->
            fetchedCount st < fc /\ (attempts st < 10)%nat /\
            loopNow w (attempts st) - processStartTime w < 90000) as Hiff.
  { intros fc. unfold continues.
    rewrite !andb_true_iff, !Z.ltb_lt, Nat.ltb_lt. tauto. }
  split; [apply Hiff|]. split; [|split].
  - intros C. cbn [discover]. rewrite C. reflexivity.
  - intros C. cbn [discover]. rewrite C.
    pose proof (round_calls_the_model w sevenDaysAgo cachedQuery key raw fetchCount
                  (nextAttempt st)) as Hr.
    destruct (round w sevenDaysAgo cachedQuery key raw fetchCount (nextAttempt st))
      as [[es st1] leave].
    cbn [fst nextAttempt attempts userContent] in Hr.
    destruct leave; [exact Hr|].
    destruct (discover fuel w sevenDaysAgo cachedQuery key raw fetchCount st1).
    cbn [fst]. apply in_app_iff. left. exact Hr.
  - do 3 (split; [reflexivity|]). split; [|split; [reflexivity|]].
    + intros target cached. unfold fetchCountFor. lia.
    + intros H4 H1 Ht. apply Hiff. rewrite H4, H1.
      change (fetchCountFor (targetCount "global") 0) with 20.
      split; [lia|]. split; [lia|exact Ht].
Qed.

(** *** Headlines *)








Section AllSavesSucceed.
Variable w : world.
Hypothesis saves : forall attempt i, createSucceeds w attempt i = true.







End AllSavesSucceed.



(** *** The properties on concrete runs *)

Import Scenarios.



(** C2 as stated fails: in [twentyAtOnce] the scope is global and
    nothing is cached; after the first round twenty events are fetched,
    which is less than the target of forty, one round of ten was made
    and one second of ninety has passed, and yet the model is not called
    a second time. *)
Lemma loop_stops_below_target :
  snd (normalizeQuery "" (normalizeAnswer twentyAtOnce)) = "global" /\
  cachedQueryOf twentyAtOnce = None /\
  fetchedCount (snd (run twentyAtOnce)) = 20 /\
  20 < targetCount "global" /\
  attempts (snd (run twentyAtOnce)) = 1%nat /\ (1 < 10)%nat /\
  loopNow twentyAtOnce 1 - processStartTime twentyAtOnce < 90000 /\
  llmRounds (fst (run twentyAtOnce)) = [1%nat].
Proof.
  do 3 (split; [vm_compute; reflexivity|]). split; [reflexivity|].
  split; [vm_compute; reflexivity|]. split; [lia|].
  split; vm_compute; reflexivity.
Qed.

(** The scenario of the specification: four events after the first
    round of a global run without cache, and the loop goes on (here up
    to the tenth round, since the model finds nothing more). *)
Example second_round_after_four_events :
  fetchCountFor (targetCount "global") 0 = 20 /\
  llmRounds (fst (run fourOfFive)) = seq 1 10 /\
  length (headlinesOf (fst (run fourOfFive))) = 4%nat /\
  fetchedCount (snd (run fourOfFive)) = 4.
Proof. repeat split; vm_compute; reflexivity. Qed.


(** The replay of the cache checks nothing: two cached items with one
    headline give two frames with that headline. *)
Example cached_headline_replayed_twice :
  headlinesOf (fst (run cachedTwice)) = ["Cached headline"; "Cached headline"].
Proof. vm_compute. reflexivity. Qed.


(** C4 as stated fails: in [storeDown] the exception of the cache lookup
    is caught, the [error] frame is sent, and the stream ends without
    any [complete] frame. *)
Lemma error_path_has_no_complete_frame :
  GET storeDown = EventStream (fst (run storeDown)) /\
  frames (fst (run storeDown)) =
    [Connected "Connecting..."; Status "Analyzing query scope...";
     Error "PrismaClientInitializationError"] /\
  ~ In Complete (frames (fst (run storeDown))).
Proof.
  split; [reflexivity|].
  assert (frames (fst (run storeDown)) =
            [Connected "Connecting..."; Status "Analyzing query scope...";
             Error "PrismaClientInitializationError"]) as E
    by (vm_compute; reflexivity).
  split; [exact E|]. rewrite E. intros H.
  repeat (destruct H as [H | H]; [discriminate H|]). exact H.
Qed.

Lemma stream_ends_with_complete_or_error_witness :
  abortAt cached = None /\
  exists pre,
    Forall (fun f => ordinary f = true) pre /\
    frames (fst (run cached)) =
      pre ++ [match outerCatch cached with
              | Some message => Error message
              | None => Complete
              end].
Proof.
  split; [reflexivity|].
  apply (stream_ends_with_complete_or_error cached). reflexivity.
Defined.

Lemma cache_lookup_is_fresh_witness :
  findFirstCached rows "Global News" (epoch - SIX_HOURS) (epoch - SEVEN_DAYS) =
    Some (SearchQueryRow "query-new" "world" "Global News" (epoch - hour) [recentRow]) /\
  sq_items (SearchQueryRow "query-new" "world" "Global News" (epoch - hour) [recentRow])
    = [recentRow] /\
  epoch - SIX_HOURS < epoch - hour.
Proof.
  assert (findFirstCached rows "Global News" (epoch - SIX_HOURS) (epoch - SEVEN_DAYS) =
            Some (SearchQueryRow "query-new" "world" "Global News" (epoch - hour)
                    [recentRow])) as E by (vm_compute; reflexivity).
  split; [exact E|]. split; [reflexivity|].
  exact (proj1 (proj2 (proj2 (proj2 (cache_lookup_is_fresh rows "Global News"
                                       epoch epoch _ E))))).
Defined.

Lemma failed_search_keeps_the_event_witness :
  In (DbCreate firstFresh true)
    (fst (fst (processCall (calm []) (epoch - SEVEN_DAYS) 1 0
                 (Some (Args (Some "Headline 0") (Some "Place 0") (Some "Summary")
                          None None (Some "headline zero")))
                 initialState []))) /\
  In (Enqueue (News firstFresh))
    (fst (fst (processCall (calm []) (epoch - SEVEN_DAYS) 1 0
                 (Some (Args (Some "Headline 0") (Some "Place 0") (Some "Summary")
                          None None (Some "headline zero")))
                 initialState []))).
Proof.
  destruct (failed_search_keeps_the_event (calm []) (epoch - SEVEN_DAYS) 1 0
              (Args (Some "Headline 0") (Some "Place 0") (Some "Summary")
                 None None (Some "headline zero"))
              initialState [] "Headline 0" "Place 0" origin
              eq_refl ltac:(discriminate) eq_refl ltac:(discriminate)
              eq_refl eq_refl eq_refl
              (or_intror (or_intror (fun k q => eq_refl))))
    as (_ & _ & Hsave & Hsend & _).
  split; [exact Hsave | exact (Hsend eq_refl)].
Defined.

(** C9 as stated fails: in [declares] the candidate declares the time of
    its event; the item that is sent and saved carries the reading of
    the clock made when it was processed, which is neither the declared
    text nor the instant it denotes. *)
Lemma declared_time_is_not_kept :
  In (Enqueue (News declared)) (fst (run declares)) /\
  In (DbCreate declared true) (fst (run declares)) /\
  parseDate declares declaredTime = Some (epoch - 4600000) /\
  itemNow declares 1 0 = epoch + 500 /\
  timestamp declared = IsoOf (epoch + 500) /\
  timestamp declared <> IsoOf (epoch - 4600000) /\
  timestamp declared <> IsoText declaredTime.
Proof.
  split; [vm_compute; pick|]. split; [vm_compute; pick|].
  repeat split; try reflexivity; discriminate.
Qed.

Lemma loop_continues_below_fetch_count_witness :
  continues fourOfFive 20 (State 9 [] 4 1 "prompt") = true /\
  In (LlmCall 2 "prompt")
    (fst (discover 1 fourOfFive (epoch - SEVEN_DAYS) None "Global News" "" 20
            (State 9 [] 4 1 "prompt"))).
Proof.
  split; [reflexivity|].
  apply (proj1 (proj2 (proj2
           (loop_continues_below_fetch_count fourOfFive (epoch - SEVEN_DAYS) None
              "Global News" "" 20 0 (State 9 [] 4 1 "prompt"))))).
  reflexivity.
Defined.


End BreakingNewsFacts.


(** ** Facts about the string primitives *)

Module JSMoreFacts.
Import GeocodeInvariants.

Lemma append_cons (x : ascii) (s t : string) :
  String x s +:+ t = String x (s +:+ t).
Proof. reflexivity. Qed.

Lemma append_nil_r (s : string) : s +:+ "" = s.
Proof.
  induction s as [|x s IH]; [reflexivity|]. rewrite append_cons, IH. reflexivity.
Qed.

Lemma append_assoc (a b c : string) : (a +:+ b) +:+ c = a +:+ (b +:+ c).
Proof.
  induction a as [|x a IH]; [reflexivity|]. rewrite !append_cons, IH. reflexivity.
Qed.

Lemma rev_app_rev_app (a : string) :
  forall b c, String.rev_app (String.rev_app a b) c = String.rev_app b (a +:+ c).
Proof.
  induction a as [|x a IH]; intros b c; cbn [String.rev_app]; [reflexivity|].
  rewrite IH. reflexivity.
Qed.

Lemma rev_rev (s : string) : String.rev (String.rev s) = s.
Proof.
  unfold String.rev. rewrite rev_app_rev_app. cbn [String.rev_app].
  apply append_nil_r.
Qed.

Lemma rev_app_append (a : string) :
  forall b, String.rev_app a b = String.rev_app a "" +:+ b.
Proof.
  induction a as [|x a IH]; intros b; cbn [String.rev_app]; [reflexivity|].
  rewrite (IH (String x b)), (IH (String x "")), append_assoc. reflexivity.
Qed.

Lemma rev_app_of_append (a : string) :
  forall b c, String.rev_app (a +:+ b) c = String.rev_app b (String.rev_app a c).
Proof.
  induction a as [|x a IH]; intros b c; [reflexivity|].
  rewrite append_cons. cbn [String.rev_app]. apply IH.
Qed.

Lemma trimStart_idempotent (s : string) :
  JS.trimStart (JS.trimStart s) = JS.trimStart s.
Proof.
  induction s as [|c r IH]; cbn; [reflexivity|].
  destruct (JS.isSpace c) eqn:E; [exact IH|]. cbn. rewrite E. reflexivity.
Qed.

Lemma trimStart_before (c : ascii) (v : string) :
  JS.isSpace c = false ->
  forall u, JS.trimStart (u +:+ String c v) = JS.trimStart u +:+ String c v.
Proof.
  intros Hc. induction u as [|x u IH].
  - change ("" +:+ String c v) with (String c v). cbn. rewrite Hc. reflexivity.
  - rewrite append_cons. cbn [JS.trimStart].
    destruct (JS.isSpace x); [exact IH | reflexivity].
Qed.

Lemma trimEnd_idempotent (s : string) : JS.trimEnd (JS.trimEnd s) = JS.trimEnd s.
Proof. unfold JS.trimEnd. rewrite rev_rev, trimStart_idempotent. reflexivity. Qed.

Lemma trimEnd_keeps_start (c : ascii) (r : string) :
  JS.isSpace c = false ->
  exists r', JS.trimEnd (String c r) = String c r'.
Proof.
  intros Hc. unfold JS.trimEnd, String.rev. cbn [String.rev_app].
  rewrite (rev_app_append r), (trimStart_before c "" Hc), rev_app_of_append.
  cbn [String.rev_app]. rewrite rev_app_append. eexists. apply append_cons.
Qed.

Lemma trim_idempotent (s : string) : JS.trim (JS.trim s) = JS.trim s.
Proof.
  unfold JS.trim.
  assert (JS.trimStart (JS.trimEnd (JS.trimStart s)) = JS.trimEnd (JS.trimStart s))
    as ->; [|apply trimEnd_idempotent].
  assert (JS.trimStart s = "" \/
          exists c r, JS.isSpace c = false /\ JS.trimStart s = String c r) as [-> | H].
  { induction s as [|c r IH]; cbn; [auto|].
    destruct (JS.isSpace c) eqn:E; [exact IH | right; eauto]. }
  - reflexivity.
  - destruct H as (c & r & Hc & ->).
    destruct (trimEnd_keeps_start c r Hc) as (r' & ->). cbn. rewrite Hc. reflexivity.
Qed.

Lemma isSpace_lowerChar (c : ascii) : JS.isSpace (JS.lowerChar c) = JS.isSpace c.
Proof. destruct c as [[] [] [] [] [] [] [] []]; vm_compute; reflexivity. Qed.

Lemma lowerChar_idempotent (c : ascii) :
  JS.lowerChar (JS.lowerChar c) = JS.lowerChar c.
Proof. destruct c as [[] [] [] [] [] [] [] []]; vm_compute; reflexivity. Qed.

Lemma toLowerCase_idempotent (s : string) :
  JS.toLowerCase (JS.toLowerCase s) = JS.toLowerCase s.
Proof.
  induction s as [|c r IH]; cbn; [reflexivity|].
  rewrite lowerChar_idempotent, IH. reflexivity.
Qed.

Lemma toLowerCase_trimStart (s : string) :
  JS.toLowerCase (JS.trimStart s) = JS.trimStart (JS.toLowerCase s).
Proof.
  induction s as [|c r IH]; cbn; [reflexivity|].
  rewrite isSpace_lowerChar. destruct (JS.isSpace c); [exact IH | reflexivity].
Qed.

Lemma toLowerCase_rev_app (a : string) :
  forall b, JS.toLowerCase (String.rev_app a b)
            = String.rev_app (JS.toLowerCase a) (JS.toLowerCase b).
Proof. induction a as [|x a IH]; intros b; cbn; [reflexivity | apply IH]. Qed.

Lemma toLowerCase_trim (s : string) :
  JS.toLowerCase (JS.trim s) = JS.trim (JS.toLowerCase s).
Proof.
  unfold JS.trim, JS.trimEnd, String.rev.
  rewrite toLowerCase_rev_app, toLowerCase_trimStart, toLowerCase_rev_app,
    toLowerCase_trimStart.
  reflexivity.
Qed.

(** X1.  The key under which a location is cached does not depend on
    the case of its letters nor on white space around it: trimming or
    lower-casing the location first gives the same key, and the key is
    itself trimmed and in lower case. *)
Theorem cache_key_ignores_case_and_blanks (location : string) :
  keyOf (JS.trim location) = keyOf location /\
  keyOf (JS.toLowerCase location) = keyOf location /\
  keyOf (keyOf location) = keyOf location.
Proof.
  unfold keyOf. split; [|split].
  - rewrite trim_idempotent. reflexivity.
  - rewrite <- toLowerCase_trim, toLowerCase_idempotent. reflexivity.
  - rewrite <- toLowerCase_trim, toLowerCase_idempotent, toLowerCase_trim,
      <- toLowerCase_trim, trim_idempotent. reflexivity.
Qed.

End JSMoreFacts.


(** ** More facts about the geocode endpoint *)

Module GeocodeMoreFacts.
Import Geocode GeocodeInvariants GeocodeFacts.

(** *** The insertion-ordered map *)

Lemma mapGet_None (k : string) (m : cacheMap) :
  mapGet k m = None <-> ~ In k (keysOf m).
Proof.
  induction m as [|[k' v] m IH]; cbn; [tauto|].
  destruct (String.eqb_spec k k') as [-> | Hne].
  - split; [discriminate | intros H; exfalso; apply H; auto].
  - rewrite IH. split; [intros H [E | Hin]; [congruence | auto] | tauto].
Qed.

Lemma mapGet_mapSet_eq (k : string) (v : cacheEntry) (m : cacheMap) :
  mapGet k (mapSet k v m) = Some v.
Proof.
  induction m as [|[k' v'] m IH]; cbn; [rewrite String.eqb_refl; reflexivity|].
  destruct (String.eqb_spec k k') as [-> | Hne]; cbn.
  - rewrite String.eqb_refl. reflexivity.
  - destruct (String.eqb_spec k k'); [contradiction | exact IH].
Qed.

Lemma mapSet_new (k : string) (v : cacheEntry) (m : cacheMap) :
  mapGet k m = None -> mapSet k v m = m ++ [(k, v)].
Proof.
  induction m as [|[k' v'] m IH]; cbn; [reflexivity|].
  destruct (String.eqb k k'); [discriminate|].
  intros H. rewrite (IH H). reflexivity.
Qed.

Lemma mapGet_mapDelete_ne (k k' : string) (m : cacheMap) :
  k <> k' -> mapGet k' (mapDelete k m) = mapGet k' m.
Proof.
  intros Hne. induction m as [|[k0 v] m IH]; cbn; [reflexivity|].
  destruct (String.eqb_spec k k0) as [-> | H0]; cbn.
  - destruct (String.eqb_spec k' k0); [congruence | reflexivity].
  - destruct (String.eqb k' k0); [reflexivity | exact IH].
Qed.

Lemma mapDelete_sublist (k : string) (m : cacheMap) :
  sublist (mapDelete k m) m.
Proof.
  induction m as [|[k' v] m IH]; cbn; [constructor|].
  destruct (String.eqb k k'); [apply sublist_cons; reflexivity|].
  apply sublist_skip. exact IH.
Qed.

Lemma mapDelete_gone (k : string) (m : cacheMap) :
  NoDup (keysOf m) -> mapGet k (mapDelete k m) = None.
Proof.
  induction m as [|[k' v] m IH]; cbn; [reflexivity|].
  intros Hnd. apply NoDup_cons in Hnd as [Hk Hnd].
  destruct (String.eqb_spec k k') as [-> | Hne]; cbn.
  - apply mapGet_None. intros H. apply Hk, list_elem_of_In, H.
  - destruct (String.eqb_spec k k'); [contradiction | exact (IH Hnd)].
Qed.

Lemma keysOf_sublist (m m' : cacheMap) :
  sublist m' m -> sublist (keysOf m') (keysOf m).
Proof.
  induction 1; cbn; [constructor | apply sublist_skip | apply sublist_cons];
    assumption.
Qed.

Lemma goodCache_sublist (m m' : cacheMap) :
  sublist m' m -> goodCache m -> goodCache m'.
Proof.
  intros Hs (Hnd & Hne & Hlen).
  pose proof (keysOf_sublist m m' Hs) as Hk.
  split; [exact (sublist_NoDup _ _ Hnd Hk)|]. split.
  - apply List.Forall_forall. intros k Hin.
    apply (proj1 (List.Forall_forall _ _) Hne).
    apply list_elem_of_In. apply (elem_of_sublist _ _ _ (proj2 (list_elem_of_In _ _) Hin) Hk).
  - apply sublist_length in Hs. lia.
Qed.

Lemma toLowerCase_empty (s : string) : JS.toLowerCase s = "" -> s = "".
Proof. destruct s; [reflexivity | discriminate]. Qed.

(** *** The limiter *)

Lemma checkRateLimit_good (now : Z) (ip : string) (m : gmap string rateLimit) :
  goodLimits m -> goodLimits (snd (checkRateLimit now ip m)).
Proof.
  intros Hg k l'. destruct (decide (k = bucketKey ip)) as [-> | Hne].
  - unfold checkRateLimit. destruct (m !! bucketKey ip) as [l|] eqn:E; cbn.
    + destruct (resetAt l <? now); cbn;
        [rewrite lookup_insert_eq; intros [= <-]; cbn; unfold MAX_REQUESTS_PER_WINDOW; lia|].
      destruct (MAX_REQUESTS_PER_WINDOW <=? count l) eqn:F; cbn.
      * rewrite E. intros [= <-]. exact (Hg _ _ E).
      * rewrite lookup_insert_eq. intros [= <-]. cbn.
        apply Z.leb_gt in F. specialize (Hg _ _ E). lia.
    + rewrite lookup_insert_eq. intros [= <-]. cbn.
      unfold MAX_REQUESTS_PER_WINDOW. lia.
  - rewrite (checkRateLimit_other now ip k m Hne). apply Hg.
Qed.


(** X2.  Serving requests changes no bucket of the limiter other than
    those of the clients that sent them. *)
Theorem other_buckets_are_untouched (s : server) (rs : list (world * request))
  (k : string) :
  Forall (fun wr => clientIp (snd wr) <> k) rs ->
  rateLimitMap (snd (serve s rs)) !! k = rateLimitMap s !! k.
Proof.
  revert s. induction rs as [|[w r] rs IH]; intros s H; [reflexivity|].
  apply Forall_cons in H as [Hk H]. cbn in Hk. cbn [serve].
  pose proof (GET_limits w r s) as Hl.
  destruct (GET w r s) as [[resp es] s1]. specialize (IH s1 H).
  destruct (serve s1 rs) as [outs s2]. cbn [snd] in *. rewrite IH.
  destruct Hl as [-> | ->]; [reflexivity|].
  apply checkRateLimit_other. rewrite bucketKey_clientIp. congruence.
Qed.

(** X3.  Whatever is served, every bucket keeps a count between one and
    the maximum of fifty. *)
Theorem counts_stay_in_range (s : server) (rs : list (world * request)) :
  goodLimits (rateLimitMap s) -> goodLimits (rateLimitMap (snd (serve s rs))).
Proof.
  revert s. induction rs as [|[w r] rs IH]; intros s H; [exact H|].
  cbn [serve]. pose proof (GET_limits w r s) as Hl.
  destruct (GET w r s) as [[resp es] s1]. specialize (IH s1).
  destruct (serve s1 rs) as [outs s2]. cbn [snd] in *. apply IH.
  destruct Hl as [-> | ->]; [exact H | apply checkRateLimit_good, H].
Qed.

Lemma serve_admits (ip : string) (T : Z) (rs : list (world * request)) :
  forall (s : server) (l : rateLimit),
    rateLimitMap s !! bucketKey ip = Some l -> resetAt l = T ->
    count l + Z.of_nat (length rs) <= 50 ->
    Forall (fun wr => clientIp (snd wr) = ip /\ nowLimit (fst wr) <= T) rs ->
    Forall (fun out => existsb isRateLimit (snd out) = true) (fst (serve s rs)) ->
    Forall (fun out => status (fst out) <> 429) (fst (serve s rs)).
Proof.
  induction rs as [|[w r] rs IH]; intros s l Hm HT Hc Hrs Houts; [constructor|].
  cbn [serve] in *. pose proof (GET_429 w r s) as H429.
  destruct (GET w r s) as [[resp es] s1] eqn:HG.
  destruct (serve s1 rs) as [outs s2] eqn:Hs. cbn [fst snd] in *.
  apply Forall_cons in Hrs as [[Hip Hnow] Hrs].
  apply Forall_cons in Houts as [Hout Houts]. cbn [fst snd] in *.
  destruct (GET_consults _ _ _ _ _ _ HG Hout) as [Hlim _]. subst ip.
  cbn [length] in Hc.
  destruct (checkRateLimit_admits (nowLimit w) (clientIp r) (rateLimitMap s) l Hm
              ltac:(lia) ltac:(lia)) as [Ha Hl1].
  rewrite <- Hlim in Hl1.
  apply List.Forall_cons.
  - cbn. intros E. rewrite (H429 E) in Ha. discriminate.
  - specialize (IH s1 _ Hl1 HT ltac:(cbn; lia) Hrs). rewrite Hs in IH.
    apply IH, Houts.
Qed.

(** X4.  The limiter refuses none of the first fifty requests that a
    client has counted within one window: when the first of at most
    fifty such requests opens the window, none of them is answered
    with status 429. *)
Theorem first_fifty_are_admitted (s : server) (first : world * request)
  (rest : list (world * request)) (ip : string) :
  (length rest < 50)%nat ->
  Forall (fun wr => clientIp (snd wr) = ip) (first :: rest) ->
  match rateLimitMap s !! bucketKey ip with
  | Some l => resetAt l < nowLimit (fst first)
  | None => True
  end ->
  Forall (fun wr => nowLimit (fst wr) <= nowLimit (fst first) + RATE_LIMIT_WINDOW)
    rest ->
  Forall (fun out => existsb isRateLimit (snd out) = true)
    (fst (serve s (first :: rest))) ->
  Forall (fun out => status (fst out) <> 429) (fst (serve s (first :: rest))).
Proof.
  intros Hlen Hips Hopen Htimes Houts. destruct first as [w1 r1].
  apply Forall_cons in Hips as [Hip1 Hips]. cbn in Hip1, Hopen, Htimes.
  revert Houts. cbn [serve]. pose proof (GET_429 w1 r1 s) as H429.
  destruct (GET w1 r1 s) as [[resp1 es1] s1] eqn:HG1.
  destruct (serve s1 rest) as [outs s2] eqn:Hrest. cbn [fst snd] in *.
  intros Houts. apply Forall_cons in Houts as [Hout1 Houts]. cbn in Hout1.
  destruct (GET_consults _ _ _ _ _ _ HG1 Hout1) as [Hlim1 _].
  rewrite Hip1 in Hlim1, H429.
  rewrite (checkRateLimit_opens _ _ _ Hopen) in Hlim1, H429. cbn in Hlim1, H429.
  apply List.Forall_cons; [cbn; intros E; specialize (H429 E); discriminate|].
  assert (rateLimitMap s1 !! bucketKey ip =
          Some (RateLimit 1 (nowLimit w1 + RATE_LIMIT_WINDOW))) as Hb1
    by (rewrite Hlim1; apply lookup_insert_eq).
  pose proof (serve_admits ip (nowLimit w1 + RATE_LIMIT_WINDOW) rest s1 _ Hb1
                eq_refl ltac:(cbn; lia)) as H.
  rewrite Hrest in H. apply H; [|exact Houts].
  apply List.Forall_forall. intros wr Hin. split.
  - exact (proj1 (List.Forall_forall _ _) Hips wr Hin).
  - exact (proj1 (List.Forall_forall _ _) Htimes wr Hin).
Qed.

(** X5.  A refusal tells how long to wait: the answer with status 429
    carries in its body and in its [Retry-After] header the number of
    seconds, rounded up, that remain until the window of the client's
    bucket ends; the number is never negative, and it is at most sixty
    when the window ends at most a minute later. *)
Theorem refusal_tells_the_wait (w : world) (r : request) (s : server) :
  status (fst (fst (GET w r s))) = 429 ->
  exists (l : rateLimit) (seconds : Z) (error message : string),
    rateLimitMap s !! clientIp r = Some l /\
    body (fst (fst (GET w r s))) = BodyRateLimited error message (Some seconds) /\
    headers (fst (fst (GET w r s))) = [("Retry-After", pretty seconds)] /\
    0 <= seconds /\
    1000 * (seconds - 1) < resetAt l - nowLimit w <= 1000 * seconds /\
    (resetAt l <= nowLimit w + RATE_LIMIT_WINDOW -> seconds <= 60).
Proof.
  intros H. pose proof (GET_429 w r s H) as Hd. revert H Hd.
  assert (forall res limits,
            checkRateLimit (nowLimit w) (clientIp r) (rateLimitMap s) = (res, limits) ->
            allowed res = false ->
            exists l, rateLimitMap s !! clientIp r = Some l /\
                      nowLimit w <= resetAt l /\
                      retryAfter res =
                        Some (JS.ceilDiv (resetAt l - nowLimit w) 1000)) as Hres.
  { intros res limits E Ha. unfold checkRateLimit in E.
    rewrite bucketKey_clientIp in E.
    destruct (rateLimitMap s !! clientIp r) as [l|]; [|injection E as <- _; discriminate].
    destruct (resetAt l <? nowLimit w) eqn:C; [injection E as <- _; discriminate|].
    destruct (MAX_REQUESTS_PER_WINDOW <=? count l); injection E as <- _;
      [|discriminate].
    exists l. apply Z.ltb_ge in C. auto. }
  get_cases w r s; cbn [fst snd status]; try discriminate;
    try (destruct (containsNotFound _); discriminate); intros _ _.
  all: destruct (Hres _ _ eq_refl Hallowed) as (lim & Hb & Hnow & ->).
  all: exists lim, (JS.ceilDiv (resetAt lim - nowLimit w) 1000).
  all: do 2 eexists; split; [exact Hb|]; split; [reflexivity|];
    split; [reflexivity|].
  all: unfold JS.ceilDiv, RATE_LIMIT_WINDOW;
    pose proof (Z.div_mod (- (resetAt lim - nowLimit w)) 1000 ltac:(lia));
    pose proof (Z.mod_pos_bound (- (resetAt lim - nowLimit w)) 1000 ltac:(lia));
    repeat split; try lia; intros; lia.
Qed.


(** *** The resolver *)

Lemma geocodeAttempts_calls (up : upstream) (q : string) (retries : nat) :
  forall left attempt,
    let es := fst (geocodeAttempts up q retries attempt left) in
    (length (List.filter isNominatim es) <= left)%nat /\
    (length (List.filter isPhoton es) <= length (List.filter isNominatim es))%nat /\
    Forall (callsFor q) es.
Proof.
  induction left as [|left IH]; intros attempt; cbn [geocodeAttempts];
    [cbn; repeat split; try lia; constructor|].
  assert (forall done otherwise,
            (length (List.filter isNominatim done) = 1)%nat ->
            (length (List.filter isPhoton done) <= 1)%nat ->
            Forall (callsFor q) done ->
            let es := fst (if (attempt <? retries)%nat
                           then let '(es, r) :=
                                  geocodeAttempts up q retries (S attempt) left in
                                (done ++ es, r)
                           else (done, otherwise)) in
            (length (List.filter isNominatim es) <= S left)%nat /\
            (length (List.filter isPhoton es) <=
             length (List.filter isNominatim es))%nat /\
            Forall (callsFor q) es) as Hagain.
  { intros done otherwise H1 H2 H3.
    destruct (attempt <? retries)%nat; cbn; [|repeat split; try lia; exact H3].
    specialize (IH (S attempt)).
    destruct (geocodeAttempts up q retries (S attempt) left) as [es r].
    cbn in *. destruct IH as (I1 & I2 & I3).
    rewrite !List.filter_app, !length_app.
    repeat split; try lia. apply Forall_app; auto. }
  assert (forall done,
            (length (List.filter isNominatim done) = 1)%nat ->
            (length (List.filter isPhoton done) <= 1)%nat ->
            Forall (callsFor q) done ->
            (length (List.filter isNominatim done) <= S left)%nat /\
            (length (List.filter isPhoton done) <=
             length (List.filter isNominatim done))%nat /\
            Forall (callsFor q) done) as Hdone
    by (intros done H1 H2 H3; repeat split; try lia; exact H3).
  assert (Forall (callsFor q) [NominatimCall q]) as F1
    by (repeat constructor; left; reflexivity).
  assert (Forall (callsFor q) [NominatimCall q; PhotonCall q]) as F2
    by (constructor; [left; reflexivity|]; constructor; [right; reflexivity|];
        constructor).
  destruct (nominatim up attempt) as [n m|status j].
  - destruct (photon up attempt) as [n' m'|status j].
    + destruct (isTimeout n'); apply Hagain; auto.
    + destruct (status =? 429); [apply Hagain; auto|].
      destruct (negb (isOk status)); [apply Hagain; auto|].
      destruct (interpretJson j) as [res|msg]; [apply Hdone; auto|].
      cbn [isTimeout String.eqb orb]. apply Hagain; auto.
  - destruct (status =? 429); [apply Hagain; auto|].
    destruct (negb (isOk status)); [apply Hagain; auto|].
    destruct (interpretJson j) as [res|msg]; [apply Hdone; auto|].
    cbn [isTimeout String.eqb orb]. apply Hagain; auto.
Qed.

Lemma geocodeAttempts_first (up : upstream) (q : string) (retries attempt left : nat) :
  exists rest,
    fst (geocodeAttempts up q retries attempt (S left)) = NominatimCall q :: rest.
Proof.
  cbn [geocodeAttempts].
  assert (forall done otherwise,
            (exists r0, done = NominatimCall q :: r0) ->
            exists rest,
              fst (if (attempt <? retries)%nat
                   then let '(es, r) :=
                          geocodeAttempts up q retries (S attempt) left in
                        (done ++ es, r)
                   else (done, otherwise)) = NominatimCall q :: rest) as Hagain.
  { intros done otherwise [r0 ->]. destruct (attempt <? retries)%nat; [|eauto].
    destruct (geocodeAttempts up q retries (S attempt) left) as [es r].
    cbn. eauto. }
  destruct (nominatim up attempt) as [n m|status j].
  - destruct (photon up attempt) as [n' m'|status j].
    + destruct (isTimeout n'); apply Hagain; eauto.
    + destruct (status =? 429); [apply Hagain; eauto|].
      destruct (negb (isOk status)); [apply Hagain; eauto|].
      destruct (interpretJson j) as [res|msg]; [cbn; eauto|].
      cbn [isTimeout String.eqb orb]. apply Hagain; eauto.
  - destruct (status =? 429); [apply Hagain; eauto|].
    destruct (negb (isOk status)); [apply Hagain; eauto|].
    destruct (interpretJson j) as [res|msg]; [cbn; eauto|].
    cbn [isTimeout String.eqb orb]. apply Hagain; eauto.
Qed.

(** X6.  One resolution asks Nominatim first, asks it at most three
    times in all (the first try and two more), and asks Photon at most
    as often as Nominatim; every call is made for the trimmed location.
    It reads and writes neither the cache nor the limiter. *)
Theorem resolution_makes_at_most_three_tries (up : upstream) (location : string) :
  let es := fst (geocodeWithRetry up location) in
  (exists rest, es = NominatimCall (JS.trim location) :: rest) /\
  (1 <= length (List.filter isNominatim es) <= 3)%nat /\
  (length (List.filter isPhoton es) <= length (List.filter isNominatim es))%nat /\
  Forall (callsFor (JS.trim location)) es.
Proof.
  unfold geocodeWithRetry.
  destruct (geocodeAttempts_calls up (JS.trim location) 2 3 0) as (H1 & H2 & H3).
  destruct (geocodeAttempts_first up (JS.trim location) 2 0 2) as [rest Hr].
  cbn zeta. split; [eauto|]. rewrite Hr in *. cbn [List.filter isNominatim length] in *.
  repeat split; try assumption; lia.
Qed.


(** *** The handler and its cache *)

(** X7.  Only a successful resolution writes the cache: after any answer
    other than 200 the cache holds a part of what it held (an expired
    entry of the location may have been removed), and no entry was
    set. *)
Theorem only_success_is_cached (w : world) (r : request) (s : server) :
  status (fst (fst (GET w r s))) <> 200 ->
  sublist (geocodeCache (snd (GET w r s))) (geocodeCache s) /\
  forallb (fun e => negb (isCacheSet e)) (snd (fst (GET w r s))) = true /\
  (geocodeCache (snd (GET w r s)) = geocodeCache s \/
   exists l, location r = Some l /\
             geocodeCache (snd (GET w r s)) = mapDelete (keyOf l) (geocodeCache s)).
Proof.
  assert (forall es2 q, fst (geocodeWithRetry (providers w) q) = es2 ->
            forallb (fun e => negb (isCacheSet e)) es2 = true) as Hup.
  { intros es2 q <-.
    unfold geocodeWithRetry.
    destruct (geocodeAttempts_calls (providers w) (JS.trim q) 2 3 0) as (_ & _ & H).
    cbn zeta in H.
    apply forallb_forall. intros e He.
    destruct (proj1 (List.Forall_forall _ _) H e He) as [-> | ->]; reflexivity. }
  get_cases w r s; cbn [fst snd status geocodeCache]; intros H;
    try (exfalso; apply H; reflexivity).
  all: split; [try reflexivity; apply mapDelete_sublist|].
  all: split; [rewrite ?forallb_app; cbn;
               rewrite ?(Hup es2 l (f_equal fst Hgeo)); reflexivity|].
  all: first [left; reflexivity | right; exists l; split; reflexivity].
Qed.

Lemma GET_keeps_cache_good (w : world) (r : request) (s : server) :
  goodCache (geocodeCache s) -> goodCache (geocodeCache (snd (GET w r s))).
Proof.
  intros Hg.
  assert (forall l, goodCache (mapDelete (JS.toLowerCase (JS.trim l)) (geocodeCache s)))
    as Hdel by (intros l; exact (goodCache_sublist _ _ (mapDelete_sublist _ _) Hg)).
  assert (forall l c0 v,
            goodCache c0 -> mapGet (JS.toLowerCase (JS.trim l)) c0 = None ->
            (String.eqb l "" || String.eqb (JS.trim l) "") = false ->
            goodCache (snd (evict (mapSet (JS.toLowerCase (JS.trim l)) v c0))))
    as Hset.
  { intros l c0 v (Hnd & Hne & Hlen) Hnone Hblank.
    apply orb_false_iff in Hblank as [_ Htrim]. apply String.eqb_neq in Htrim.
    rewrite (mapSet_new _ v _ Hnone).
    set (k := JS.toLowerCase (JS.trim l)) in *.
    assert (k <> "") as Hk by (intros E; apply Htrim, toLowerCase_empty, E).
    assert (NoDup (keysOf (c0 ++ [(k, v)])) /\
            Forall (fun x => x <> "") (keysOf (c0 ++ [(k, v)]))) as [Hnd' Hne'].
    { unfold keysOf. rewrite List.map_app. cbn. split.
      - apply NoDup_app. split; [exact Hnd|]. split; [|apply NoDup_singleton].
        intros x Hx Hx'. apply list_elem_of_In in Hx'. destruct Hx' as [<- | []].
        apply (proj1 (mapGet_None k c0) Hnone). apply list_elem_of_In, Hx.
      - apply Forall_app. split; [exact Hne | repeat constructor; exact Hk]. }
    unfold evict.
    destruct (1000 <? length (c0 ++ [(k, v)]))%nat eqn:Hbig.
    - destruct c0 as [|[k0 v0] c0]; [cbn in Hbig; discriminate|].
      cbn [app mapFirstKey].
      cbn [keysOf List.map fst] in Hne'. apply Forall_cons in Hne' as [Hk0 Hne'].
      cbn in Hk0. apply String.eqb_neq in Hk0. rewrite Hk0.
      cbn [snd mapDelete]. rewrite String.eqb_refl.
      cbn [keysOf List.map fst] in Hnd'. apply NoDup_cons in Hnd' as [_ Hnd'].
      split; [exact Hnd'|]. split; [exact Hne'|].
      rewrite length_app. cbn in *. lia.
    - apply Nat.ltb_ge in Hbig. cbn [snd].
      split; [exact Hnd'|]. split; [exact Hne' | lia]. }
  get_cases w r s; cbn [fst snd geocodeCache]; try exact Hg; try apply Hdel.
  - pose proof (Hset l _ (CacheEntry (snd coordinates) (fst coordinates)
                            display_name0 (nowStore w))
                  (Hdel l) (mapDelete_gone _ _ (proj1 Hg)) Hblank) as H.
    rewrite Hevict in H. exact H.
  - pose proof (Hset l _ (CacheEntry (snd coordinates) (fst coordinates)
                            display_name0 (nowStore w))
                  Hg Hget Hblank) as H.
    rewrite Hevict in H. exact H.
Qed.

(** X8.  The cache stays a bounded map: if its keys are pairwise
    distinct and non-empty and there are at most a thousand of them,
    the same holds after any sequence of requests. *)
Theorem cache_stays_bounded (s : server) (rs : list (world * request)) :
  goodCache (geocodeCache s) -> goodCache (geocodeCache (snd (serve s rs))).
Proof.
  revert s. induction rs as [|[w r] rs IH]; intros s H; [exact H|].
  cbn [serve]. pose proof (GET_keeps_cache_good w r s H) as H1.
  destruct (GET w r s) as [[resp es] s1]. specialize (IH s1 H1).
  destruct (serve s1 rs) as [outs s2]. exact IH.
Qed.

(** X9.  What was resolved is served from the cache: after a request
    answered with fresh coordinates ([cached: false]), the next request
    for a location with the same trimmed, lower-cased key, made less
    than 24 hours after the entry was stored, is answered with the same
    coordinates and name and [cached: true], reads the cache only, and
    changes nothing. *)
Theorem resolved_location_is_cached (w1 w2 : world) (r1 r2 : request) (s : server)
  (l1 l2 name : string) (c : number * number) :
  goodCache (geocodeCache s) ->
  location r1 = Some l1 ->
  fst (fst (GET w1 r1 s)) = Response 200 [] (BodySuccess l1 c name false) ->
  location r2 = Some l2 ->
  keyOf l2 = keyOf l1 ->
  nowCache w2 - nowStore w1 < CACHE_TTL ->
  GET w2 r2 (snd (GET w1 r1 s)) =
    (Response 200 [] (BodySuccess l2 c name true),
     [CacheHas (keyOf l2); CacheGet (keyOf l2)],
     snd (GET w1 r1 s)).
Proof.
  intros Hg Hl1 H200 Hl2 Hkey Hage.
  assert (exists lim,
            JS.trim l1 <> "" /\
            mapGet (keyOf l1) (geocodeCache (snd (GET w1 r1 s))) =
              Some (CacheEntry (snd c) (fst c) name (nowStore w1)) /\
            snd (GET w1 r1 s) = Server (geocodeCache (snd (GET w1 r1 s))) lim)
    as (lim & Htrim & Hstored & _).
  { assert (forall l c0 v,
              goodCache c0 -> mapGet (keyOf l) c0 = None ->
              mapGet (keyOf l) (snd (evict (mapSet (keyOf l) v c0))) = Some v) as Hset.
    { intros l c0 v _ Hnone. unfold evict.
      destruct (1000 <? length (mapSet (keyOf l) v c0))%nat eqn:Hbig;
        [|apply mapGet_mapSet_eq].
      destruct c0 as [|[k0 v0] c0]; [cbn in Hbig; discriminate|].
      cbn [mapGet] in Hnone. cbn [mapSet].
      destruct (String.eqb (keyOf l) k0) eqn:E; [discriminate|].
      cbn [mapFirstKey].
      destruct (String.eqb k0 ""); cbn [snd].
      - cbn [mapGet]. rewrite E. apply mapGet_mapSet_eq.
      - cbn [mapDelete]. rewrite String.eqb_refl. apply mapGet_mapSet_eq. }
    revert H200. unfold keyOf in *. get_cases w1 r1 s;
      cbn [fst snd geocodeCache]; try discriminate;
      try (destruct (containsNotFound _); discriminate);
      intros [= <- <- <-]; try discriminate.
    all: clear Hl1.
    all: apply orb_false_iff in Hblank as [_ Htrim]; apply String.eqb_neq in Htrim.
    all: eexists; split; [exact Htrim|]; split; [|reflexivity].
    - pose proof (Hset l _ (CacheEntry (snd coordinates) (fst coordinates)
                              display_name0 (nowStore w1))
                    (goodCache_sublist _ _ (mapDelete_sublist _ _) Hg)
                    (mapDelete_gone _ _ (proj1 Hg))) as H.
      rewrite Hevict in H. exact H.
    - pose proof (Hset l _ (CacheEntry (snd coordinates) (fst coordinates)
                              display_name0 (nowStore w1)) Hg Hget) as H.
      rewrite Hevict in H. exact H. }
  assert (JS.trim l2 <> "") as Htrim2.
  { intros E. unfold keyOf in Hkey. rewrite E in Hkey. cbn in Hkey.
    symmetry in Hkey. apply toLowerCase_empty in Hkey. contradiction. }
  rewrite <- Hkey in Hstored. unfold keyOf in *.
  rewrite (fresh_hit w2 r2 _ l2 _ Hl2 Htrim2 Hstored Hage).
  destruct c. reflexivity.
Qed.

(** [cleanupCache] and the freshness test of the handler. *)
Lemma cleanup_keeps (now : Z) (k : string) (m : cacheMap) (e : cacheEntry) :
  mapGet k m = Some e -> now - timestamp e <= CACHE_TTL ->
  mapGet k (cleanupCache now m) = Some e.
Proof.
  unfold cleanupCache. induction m as [|[k' v] m IH]; cbn; [discriminate|].
  destruct (String.eqb_spec k k') as [-> | Hne].
  - intros [= ->] Hage.
    destruct (CACHE_TTL <? now - timestamp e) eqn:C; [apply Z.ltb_lt in C; lia|].
    cbn. rewrite String.eqb_refl. reflexivity.
  - intros H Hage. destruct (CACHE_TTL <? now - timestamp v); cbn; [auto|].
    destruct (String.eqb_spec k k'); [contradiction | auto].
Qed.

Lemma cleanup_sublist (now : Z) (m : cacheMap) : sublist (cleanupCache now m) m.
Proof.
  unfold cleanupCache. induction m as [|kv m IH]; cbn; [constructor|].
  destruct (negb _); [apply sublist_skip | apply sublist_cons]; exact IH.
Qed.

(** X10.  The hourly clean-up removes exactly the entries older than 24
    hours, keeping the others in order, and never an entry that the
    handler would still serve: a request answered from the cache is
    answered in the same way when a clean-up has run before it. *)
Theorem cleanup_spares_what_is_served (now : Z) (w : world) (r : request)
  (s : server) (l : string) (cached : cacheEntry) :
  location r = Some l ->
  JS.trim l <> "" ->
  mapGet (keyOf l) (geocodeCache s) = Some cached ->
  nowCache w - timestamp cached < CACHE_TTL ->
  now <= nowCache w ->
  cleanupCache now (geocodeCache s) =
    List.filter (fun kv => now - timestamp (snd kv) <=? CACHE_TTL) (geocodeCache s) /\
  sublist (cleanupCache now (geocodeCache s)) (geocodeCache s) /\
  fst (fst (GET w r (Server (cleanupCache now (geocodeCache s)) (rateLimitMap s)))) =
    fst (fst (GET w r s)) /\
  fst (fst (GET w r s)) =
    Response 200 []
      (BodySuccess l (lon cached, lat cached) (display_name cached) true).
Proof.
  intros Hl Ht Hg Hage Hnow. unfold keyOf in *. split; [|split].
  - unfold cleanupCache. apply List.filter_ext. intros [k e]. cbn.
    rewrite Z.leb_antisym. reflexivity.
  - apply cleanup_sublist.
  - rewrite (fresh_hit w r s l cached Hl Ht Hg Hage).
    rewrite (fresh_hit w r (Server (cleanupCache now (geocodeCache s)) (rateLimitMap s))
               l cached Hl Ht); [split; reflexivity| |exact Hage].
    cbn [geocodeCache]. apply cleanup_keeps; [exact Hg | lia].
Qed.

(** X11.  The answers of the endpoint: the status is one of 200, 400,
    404, 429 and 500; only a refusal carries a header, and only an
    answer with status 200 carries coordinates. *)
Theorem answers_of_the_endpoint (w : world) (r : request) (s : server) :
  In (status (fst (fst (GET w r s)))) [200; 400; 404; 429; 500] /\
  (headers (fst (fst (GET w r s))) <> [] -> status (fst (fst (GET w r s))) = 429) /\
  ((exists l c name cached,
       body (fst (fst (GET w r s))) = BodySuccess l c name cached) <->
   status (fst (fst (GET w r s))) = 200).
Proof.
  get_cases w r s; cbn [fst snd status headers body];
    try destruct (containsNotFound _); cbn [In];
    (split; [tauto|]); (split; [try congruence; reflexivity|]);
    (split; [intros (? & ? & ? & ? & ?); try discriminate; reflexivity
            | intros ?; try discriminate; eauto]).
Qed.


(** *** The further properties on concrete requests *)

Import Scenarios MoreScenarios.

Lemma other_buckets_are_untouched_witness :
  rateLimitMap (snd (serve exhausted [unknownPlace 50; parisAgain 51]))
    !! "198.51.100.1"
  = rateLimitMap exhausted !! "198.51.100.1".
Proof.
  apply (other_buckets_are_untouched exhausted [unknownPlace 50; parisAgain 51]
           "198.51.100.1").
  apply (Forall_by_test _
           (fun wr => negb (String.eqb (clientIp (snd wr)) "198.51.100.1"))).
  - intros x Hx. apply negb_true_iff, String.eqb_neq in Hx. exact Hx.
  - vm_compute. reflexivity.
Defined.

Lemma counts_stay_in_range_witness :
  goodLimits (rateLimitMap (snd (serve emptyServer (List.map unknownPlace (seq 0 60))))).
Proof.
  apply (counts_stay_in_range emptyServer (List.map unknownPlace (seq 0 60))).
  intros k l H. cbn in H. rewrite lookup_empty in H. discriminate H.
Defined.

Lemma first_fifty_are_admitted_witness :
  Forall (fun out => status (fst out) <> 429)
    (fst (serve emptyServer (unknownPlace 0 :: List.map unknownPlace (seq 1 49)))).
Proof.
  apply (first_fifty_are_admitted emptyServer (unknownPlace 0)
           (List.map unknownPlace (seq 1 49)) client).
  - vm_compute. lia.
  - apply (Forall_by_test _ (fun wr => String.eqb (clientIp (snd wr)) client)).
    + intros x Hx. apply String.eqb_eq. exact Hx.
    + vm_compute. reflexivity.
  - vm_compute. exact I.
  - apply (Forall_by_test _
             (fun wr => nowLimit (fst wr) <=?
                        nowLimit (fst (unknownPlace 0)) + RATE_LIMIT_WINDOW)).
    + intros x Hx. apply Z.leb_le. exact Hx.
    + vm_compute. reflexivity.
  - apply (Forall_by_test _ (fun out => existsb isRateLimit (snd out))).
    + intros x Hx. exact Hx.
    + vm_compute. reflexivity.
Defined.

Lemma refusal_tells_the_wait_witness :
  exists (l : rateLimit) (seconds : Z) (error message : string),
    rateLimitMap exhausted !! clientIp (snd (unknownPlace 50)) = Some l /\
    body (fst (fst (GET (fst (unknownPlace 50)) (snd (unknownPlace 50)) exhausted)))
      = BodyRateLimited error message (Some seconds) /\
    headers (fst (fst (GET (fst (unknownPlace 50)) (snd (unknownPlace 50)) exhausted)))
      = [("Retry-After", pretty seconds)] /\
    0 <= seconds /\
    1000 * (seconds - 1) < resetAt l - nowLimit (fst (unknownPlace 50))
      <= 1000 * seconds /\
    (resetAt l <= nowLimit (fst (unknownPlace 50)) + RATE_LIMIT_WINDOW ->
     seconds <= 60).
Proof.
  apply (refusal_tells_the_wait (fst (unknownPlace 50)) (snd (unknownPlace 50))
           exhausted).
  vm_compute. reflexivity.
Defined.

Lemma only_success_is_cached_witness :
  status (fst (fst (GET (at_time 5000 knowsNothing) (ask "Atlantis") parisCached)))
    = 404 /\
  sublist (geocodeCache (snd (GET (at_time 5000 knowsNothing) (ask "Atlantis")
                                parisCached)))
    (geocodeCache parisCached).
Proof.
  split; [vm_compute; reflexivity|].
  apply (only_success_is_cached (at_time 5000 knowsNothing) (ask "Atlantis")
           parisCached).
  vm_compute. discriminate.
Defined.

Lemma cache_stays_bounded_witness :
  goodCache (geocodeCache (snd (serve emptyServer [parisAgain 0; unknownPlace 1]))).
Proof.
  apply (cache_stays_bounded emptyServer [parisAgain 0; unknownPlace 1]).
  split; [apply NoDup_nil_2|]. split; [apply List.Forall_nil | cbn; lia].
Defined.

Lemma resolved_location_is_cached_witness :
  GET (at_time 2000 knowsNothing) (ask " PARIS ")
    (snd (GET (at_time 1000 knowsParis) (ask "Paris") emptyServer)) =
    (Response 200 []
       (BodySuccess " PARIS " (degrees 235, degrees 4885) "Paris, France" true),
     [CacheHas (keyOf " PARIS "); CacheGet (keyOf " PARIS ")],
     snd (GET (at_time 1000 knowsParis) (ask "Paris") emptyServer)).
Proof.
  apply (resolved_location_is_cached (at_time 1000 knowsParis)
           (at_time 2000 knowsNothing) (ask "Paris") (ask " PARIS ") emptyServer
           "Paris" " PARIS " "Paris, France" (degrees 235, degrees 4885)).
  - split; [apply NoDup_nil_2|]. split; [apply List.Forall_nil | cbn; lia].
  - reflexivity.
  - vm_compute. reflexivity.
  - reflexivity.
  - vm_compute. reflexivity.
  - vm_compute. reflexivity.
Defined.

Lemma cleanup_spares_what_is_served_witness :
  fst (fst (GET (at_time 5000 knowsNothing) (ask "Paris")
              (Server (cleanupCache 4000 (geocodeCache parisCached))
                 (rateLimitMap parisCached)))) =
  fst (fst (GET (at_time 5000 knowsNothing) (ask "Paris") parisCached)).
Proof.
  apply (cleanup_spares_what_is_served 4000 (at_time 5000 knowsNothing) (ask "Paris")
           parisCached "Paris" parisEntry).
  - reflexivity.
  - vm_compute. discriminate.
  - vm_compute. reflexivity.
  - vm_compute. reflexivity.
  - vm_compute. discriminate.
Defined.

End GeocodeMoreFacts.


(** ** Facts about the located-posts endpoint *)

Module GeoBatchFacts.
Import GeoBatch.

Lemma firstn_plus {A} (a b : nat) (l : list A) :
  firstn (a + b) l = firstn a l ++ firstn b (skipn a l).
Proof.
  revert l. induction a as [|a IH]; intros l; [reflexivity|].
  destruct l as [|x l]; cbn; [destruct b; reflexivity|].
  rewrite IH. reflexivity.
Qed.

Lemma locateFrom_app (w : world) (a b : list locatedUser) :
  forall i, locateFrom w i (a ++ b) = locateFrom w i a ++ locateFrom w (i + length a) b.
Proof.
  induction a as [|u a IH]; intros i; cbn.
  - rewrite Nat.add_0_r. reflexivity.
  - rewrite IH. replace (S i + length a)%nat with (i + S (length a))%nat by lia.
    reflexivity.
Qed.

Lemma validResults_app (a b : list (option geoItem)) :
  validResults (a ++ b) = validResults a ++ validResults b.
Proof.
  induction a as [|[x|] a IH]; cbn; [reflexivity| |]; rewrite IH; reflexivity.
Qed.

Lemma validResults_length (l : list (option geoItem)) :
  (length (validResults l) <= length l)%nat.
Proof. induction l as [|[x|] l IH]; cbn; lia. Qed.

Lemma locateFrom_length (w : world) (l : list locatedUser) :
  forall i, length (locateFrom w i l) = length l.
Proof. induction l as [|u l IH]; intros i; cbn; [reflexivity | rewrite IH; reflexivity]. Qed.

Lemma firstn_covered {A} (n : nat) (a b : list A) :
  (n <= length a)%nat -> firstn n (a ++ b) = firstn n a.
Proof.
  intros H. rewrite List.firstn_app. replace (n - length a)%nat with 0%nat by lia.
  cbn. apply app_nil_r.
Qed.

Lemma itemsFrom_step (w : world) (users : list locatedUser) (i : nat) :
  (i + 5 <= 20)%nat ->
  itemsFrom w users i =
    validResults (locateFrom w i (slice i (i + 5) users)) ++ itemsFrom w users (i + 5).
Proof.
  intros Hi. unfold itemsFrom, slice.
  replace (20 - i)%nat with (5 + (20 - (i + 5)))%nat by lia.
  replace (i + 5 - i)%nat with 5%nat by lia.
  rewrite firstn_plus, locateFrom_app, validResults_app, List.skipn_skipn.
  replace (5 + i)%nat with (i + 5)%nat by lia.
  destruct (Nat.le_gt_cases (i + 5) (length users)) as [Hlen | Hlen].
  - rewrite List.length_firstn, List.length_skipn.
    replace (Nat.min 5 (length users - i)) with 5%nat by lia. reflexivity.
  - rewrite (List.skipn_all2 (n := i + 5) users) by lia.
    rewrite List.firstn_nil. reflexivity.
Qed.

Lemma batches_result (w : world) (users : list locatedUser) :
  forall fuel k geoData asked,
    (20 <= 5 * fuel + 5 * k)%nat -> (length geoData < 10)%nat ->
    let r := batches w users fuel (5 * k) geoData asked in
    firstn 10 (fst r) = firstn 10 (geoData ++ itemsFrom w users (5 * k)) /\
    exists n, snd r = asked ++ seq (5 * k) n /\
              (5 * k + n <= Nat.max (5 * k) (Nat.min (length users) 20))%nat.
Proof.
  induction fuel as [|fuel IH]; intros k geoData asked Hfuel Hlen; cbn [batches].
  - cbv zeta. cbn [fst snd]. split.
    + unfold itemsFrom, slice. replace (20 - 5 * k)%nat with 0%nat by lia.
      cbn [firstn locateFrom validResults]. rewrite app_nil_r. reflexivity.
    + exists 0%nat. cbn [seq]. rewrite app_nil_r. split; [reflexivity | lia].
  - cbv zeta. unfold maxResults, batchSize. change (10 * 2)%nat with 20%nat.
    destruct (5 * k <? Nat.min (length users) 20)%nat eqn:C.
    + apply Nat.ltb_lt in C.
      assert (5 * k + 5 <= 20)%nat as H20 by lia.
      rewrite (itemsFrom_step w users (5 * k) H20).
      set (valid := validResults (locateFrom w (5 * k) (slice (5 * k) (5 * k + 5) users))).
      assert (length (slice (5 * k) (5 * k + 5) users) <= 5 /\
              5 * k + length (slice (5 * k) (5 * k + 5) users)
              <= Nat.min (length users) 20)%nat as [Hb1 Hb2].
      { unfold slice. rewrite List.length_firstn, List.length_skipn. lia. }
      destruct (10 <=? length (geoData ++ valid))%nat eqn:D.
      * apply Nat.leb_le in D. cbn [fst snd]. split.
        -- rewrite app_assoc. symmetry. apply firstn_covered. exact D.
        -- eexists. split; [reflexivity | lia].
      * apply Nat.leb_gt in D.
        replace (5 * k + 5)%nat with (5 * S k)%nat in * by lia.
        destruct (IH (S k) (geoData ++ valid)
                    (asked ++ seq (5 * k) (length (slice (5 * k) (5 * S k) users)))
                    ltac:(lia) D) as [I1 (n & I2 & I3)].
        cbn zeta in *. split; [rewrite I1, <- app_assoc; reflexivity|].
        destruct (Nat.eq_dec (length (slice (5 * k) (5 * S k) users)) 5%nat) as [E | E].
        -- exists (5 + n)%nat. rewrite I2, E, <- app_assoc, List.seq_app.
           replace (5 * k + 5)%nat with (5 * S k)%nat by lia.
           split; [reflexivity | lia].
        -- assert (n = 0%nat) as ->.
           { unfold slice in E. rewrite List.length_firstn, List.length_skipn in E. lia. }
           exists (length (slice (5 * k) (5 * S k) users)).
           rewrite I2. cbn [seq]. rewrite app_nil_r. split; [reflexivity | lia].
    + apply Nat.ltb_ge in C. cbn [fst snd]. split.
      * unfold itemsFrom, slice.
        destruct (Nat.le_gt_cases 20 (5 * k)) as [H | H].
        -- replace (20 - 5 * k)%nat with 0%nat by lia.
           cbn [firstn locateFrom validResults]. rewrite app_nil_r. reflexivity.
        -- rewrite (List.skipn_all2 users) by lia. rewrite List.firstn_nil.
           cbn [locateFrom validResults]. rewrite app_nil_r. reflexivity.
      * exists 0%nat. cbn [seq]. rewrite app_nil_r. split; [reflexivity | lia].
Qed.

(** X12.  The located-posts endpoint answers a successful search with the
    first ten items that the first twenty located users give, in their
    order: leaving the loop early only saves requests.  It asks the
    geocode endpoint for the located users at the positions 0, 1, 2, ...
    in this order, for at most twenty of them.  Four iterations are all
    the loop can make: allowed more, it gives the same answer. *)
Theorem located_posts_are_the_first_ten (w : world)
  (users : option (list user)) (remaining reset : option string) :
  JS.truthy (bearerToken w) = true ->
  JS.orElse (queryParam w) "" <> "" ->
  search w = SearchOk users remaining reset ->
  let located := usersWithLocation users in
  let items := firstn 10 (validResults (locateFrom w 0 (firstn 20 located))) in
  fst (GET w) =
    Response 200
      (BodyGeo (JS.orElse (queryParam w) "") (length items) items (length located)
         remaining reset) /\
  (length items <= 10)%nat /\
  (exists n, snd (GET w) = seq 0 n /\ (n <= Nat.min (length located) 20)%nat) /\
  (forall fuel, (4 <= fuel)%nat ->
                firstn 10 (fst (batches w located fuel 0 [] [])) = items).
Proof.
  intros Htoken Hquery Hsearch located items.
  assert (forall fuel, (4 <= fuel)%nat ->
            firstn 10 (fst (batches w located fuel 0 [] [])) = items /\
            exists n, snd (batches w located fuel 0 [] []) = seq 0 n /\
                      (n <= Nat.min (length located) 20)%nat) as Hloop.
  { intros fuel Hfuel.
    destruct (batches_result w located fuel 0 [] [] ltac:(lia) ltac:(cbn; lia))
      as [H1 (n & H2 & H3)].
    cbn zeta in *. change (5 * 0)%nat with 0%nat in *. cbn [app] in *. split.
    - rewrite H1. unfold items, itemsFrom, slice. cbn [skipn]. reflexivity.
    - exists n. split; [exact H2 | lia]. }
  destruct (Hloop 4%nat ltac:(lia)) as [H1 (n & H2 & H3)].
  unfold GET. rewrite Htoken, Hsearch. apply String.eqb_neq in Hquery.
  rewrite Hquery. cbn [negb]. fold located.
  destruct (batches w located 4 0 [] []) as [geoData asked].
  cbn [fst snd] in *. unfold maxResults. rewrite H1.
  split; [reflexivity|]. split; [|split].
  - unfold items. rewrite List.length_firstn. lia.
  - exists n. auto.
  - intros fuel Hfuel. apply (Hloop fuel Hfuel).
Qed.

Lemma In_firstn {A} (n : nat) (x : A) :
  forall l, In x (firstn n l) -> In x l.
Proof.
  induction n as [|n IH]; intros [|y l] H; cbn in *; try contradiction.
  destruct H as [H | H]; [left; exact H | right; apply IH; exact H].
Qed.

Lemma locate_answered (w : world) (index : nat) (u : locatedUser) (item : geoItem) :
  locate w index u = Some item -> answeredAt w index u item.
Proof.
  unfold locate, answeredAt.
  destruct (geocode w index) as [[st hs b]|]; [|discriminate].
  cbn [Geocode.status Geocode.body].
  destruct (Geocode.isOk st) eqn:Hok; cbn [negb]; [|discriminate].
  destruct b as [e|l c name cached|e m r|e]; try discriminate.
  intros [= <-]. cbn [g_coordinates]. exists st, hs, l, name, cached.
  split; [reflexivity|]. split; [|reflexivity].
  unfold Geocode.isOk in Hok. apply andb_true_iff in Hok.
  destruct Hok as [H1 H2]. apply Z.leb_le in H1. apply Z.leb_le in H2. lia.
Qed.

Lemma validResults_answered (w : world) (l : list locatedUser) :
  forall i item,
    In item (validResults (locateFrom w i l)) ->
    exists j u, nth_error l j = Some u /\ answeredAt w (i + j) u item.
Proof.
  induction l as [|u l IH]; intros i item Hin; [destruct Hin|].
  cbn [locateFrom validResults] in Hin.
  destruct (locate w i u) as [x|] eqn:E.
  - destruct Hin as [<- | Hin].
    + exists 0%nat, u. rewrite Nat.add_0_r. split; [reflexivity|].
      apply locate_answered. exact E.
    + destruct (IH (S i) item Hin) as (j & u' & H1 & H2).
      exists (S j), u'. replace (i + S j)%nat with (S i + j)%nat by lia. auto.
  - destruct (IH (S i) item Hin) as (j & u' & H1 & H2).
    exists (S j), u'. replace (i + S j)%nat with (S i + j)%nat by lia. auto.
Qed.

Lemma usersWithLocation_trimmed (users : option (list user)) (u : locatedUser) :
  In u (usersWithLocation users) ->
  lu_location u <> "" /\
  exists original l,
    In original (match users with Some us => us | None => [] end) /\
    u_location original = Some l /\ lu_location u = JS.trim l /\
    lu_id u = u_id original.
Proof.
  unfold usersWithLocation. intros Hin. apply in_map_iff in Hin.
  destruct Hin as (original & <- & Hin). apply filter_In in Hin.
  destruct Hin as [Hin Hkeep]. apply andb_true_iff in Hkeep.
  destruct Hkeep as [Ht Hne]. cbn [lu_location lu_id].
  apply negb_true_iff, String.eqb_neq in Hne. split; [exact Hne|].
  destruct (u_location original) as [l|] eqn:El; [|discriminate].
  exists original, l. split; [exact Hin|]. split; [exact El|].
  unfold JS.truthy in Ht. apply negb_true_iff in Ht.
  unfold JS.orElse. rewrite Ht. auto.
Qed.

(** X13.  Every item of a successful answer of the located-posts
    endpoint was made for one of the first twenty located users from a
    success answer (status 200 to 299, with coordinates) of the geocode
    endpoint for that user: it carries the coordinates and the display
    name of that answer, the identifier [user-] followed by the
    identifier of the user, and as location the profile location of the
    user, trimmed and not empty. *)
Theorem located_items_come_from_answers (w : world)
  (users : option (list user)) (remaining reset : option string)
  (query : string) (count processed : nat) (geoData : list geoItem)
  (r1 r2 : option string) (item : geoItem) :
  search w = SearchOk users remaining reset ->
  fst (GET w) = Response 200 (BodyGeo query count geoData processed r1 r2) ->
  In item geoData ->
  exists index u original l,
    (index < 20)%nat /\
    nth_error (usersWithLocation users) index = Some u /\
    answeredAt w index u item /\
    In original (match users with Some us => us | None => [] end) /\
    u_location original = Some l /\ g_location item = JS.trim l /\
    JS.trim l <> "" /\ g_id item = "user-" +:+ u_id original.
Proof.
  intros Hsearch Hget Hin. unfold GET in Hget. rewrite Hsearch in Hget.
  destruct (negb (JS.truthy (bearerToken w))); [discriminate|].
  destruct (String.eqb (JS.orElse (queryParam w) "") ""); [discriminate|].
  destruct (batches_result w (usersWithLocation users) 4 0 [] []
              ltac:(lia) ltac:(cbn; lia)) as [H1 _].
  cbn zeta in H1. change (5 * 0)%nat with 0%nat in H1.
  destruct (batches w (usersWithLocation users) 4 0 [] []) as [g asked].
  cbn [fst snd app] in *. injection Hget as _ _ <- _ _ _.
  unfold maxResults in Hin. rewrite H1 in Hin. apply In_firstn in Hin.
  unfold itemsFrom, slice in Hin. cbn [skipn] in Hin.
  replace (20 - 0)%nat with 20%nat in Hin by lia.
  destruct (validResults_answered w _ 0%nat item Hin) as (j & u & Hnth & Hans).
  cbn [Nat.add] in Hans.
  rewrite List.nth_error_firstn in Hnth.
  destruct (j <? 20)%nat eqn:Hj; [|discriminate]. apply Nat.ltb_lt in Hj.
  pose proof Hnth as Hnth'.
  destruct (usersWithLocation_trimmed users u (nth_error_In _ _ Hnth'))
    as (Hne & original & l & Ho & Hl & Htrim & Hid).
  exists j, u, original, l. do 3 (split; [assumption|]).
  do 2 (split; [assumption|]).
  destruct Hans as (st & hs & loc & name & cached & _ & _ & ->).
  cbn [g_location g_id]. rewrite <- Htrim, Hid. auto.
Qed.


(** *** The properties on a concrete request *)

Import Scenarios MoreScenarios.

Lemma located_posts_are_the_first_ten_witness :
  fst (GET posts) =
    Response 200 (BodyGeo "earthquake" 1 [lyonItem] 2 (Some "449") (Some "1700000000")) /\
  snd (GET posts) = [0%nat; 1%nat].
Proof.
  destruct (located_posts_are_the_first_ten posts (Some authors) (Some "449")
              (Some "1700000000") eq_refl ltac:(discriminate) eq_refl)
    as (H1 & _ & _).
  split; [rewrite H1; vm_compute; reflexivity | vm_compute; reflexivity].
Defined.

Lemma located_items_come_from_answers_witness :
  exists index u original l,
    (index < 20)%nat /\
    nth_error (usersWithLocation (Some authors)) index = Some u /\
    answeredAt posts index u lyonItem /\
    In original authors /\
    u_location original = Some l /\ g_location lyonItem = JS.trim l /\
    JS.trim l <> "" /\ g_id lyonItem = "user-" +:+ u_id original.
Proof.
  apply (located_items_come_from_answers posts (Some authors) (Some "449")
           (Some "1700000000") "earthquake" 1 2 [lyonItem] (Some "449")
           (Some "1700000000") lyonItem).
  - reflexivity.
  - vm_compute. reflexivity.
  - left. reflexivity.
Defined.

End GeoBatchFacts.


(** ** Further facts about the discovery stream *)

Module BreakingNewsMoreFacts.
Import BreakingNews BreakingNewsInvariants BreakingNewsFacts.

(** *** The query variants *)







(** *** What the evidence fetcher returns *)





Lemma searchVariants_limited (search : nat -> string -> xOutcome)
  (variants : list string) :
  forall k j v,
    nth_error variants j = Some v ->
    rateLimited (search (k + j)%nat (cleanQuery v)) = true ->
    (forall j' v', (j' < j)%nat -> nth_error variants j' = Some v' ->
       yieldsNothing (search (k + j')%nat (cleanQuery v')) = true) ->
    searchVariants search k variants = Returned [].
Proof.
  induction variants as [|v0 rest IH]; intros k j v Hnth Hlim Hbefore;
    [destruct j; discriminate|].
  cbn [searchVariants]. destruct j as [|j]; cbn [nth_error] in Hnth.
  - injection Hnth as ->. rewrite Nat.add_0_r in Hlim.
    destruct (search k (cleanQuery v)) as [m|status|m|d u]; try discriminate.
    cbn [rateLimited] in Hlim. cbn [tryVariant]. rewrite Hlim. reflexivity.
  - pose proof (Hbefore 0%nat v0 ltac:(lia) eq_refl) as H0.
    rewrite Nat.add_0_r in H0. apply tryVariant_nothing in H0.
    assert (searchVariants search (S k) rest = Returned []) as Hrest.
    { apply (IH (S k) j v Hnth).
      - replace (S k + j)%nat with (k + S j)%nat by lia. exact Hlim.
      - intros j' v' Hj Hn. replace (S k + j')%nat with (k + S j')%nat by lia.
        apply (Hbefore (S j') v'); [lia | exact Hn]. }
    destruct (tryVariant (search k (cleanQuery v0))) as [[| |tweets]|msg];
      auto; contradiction.
Qed.

(** X16.  A search answered with the status 429 ends the fetch: when the
    variants before it gave nothing, no post is returned, whatever the
    later variants would have given. *)
Theorem rate_limit_stops_the_search (token : option string)
  (search : nat -> string -> xOutcome) (query : string) (headline : option string)
  (j : nat) (v : string) :
  nth_error (queryVariations query headline) j = Some v ->
  rateLimited (search j (cleanQuery v)) = true ->
  (forall j' v', (j' < j)%nat ->
     nth_error (queryVariations query headline) j' = Some v' ->
     yieldsNothing (search j' (cleanQuery v')) = true) ->
  fetchRealTweets token search query headline = Returned [].
Proof.
  intros Hnth Hlim Hbefore. unfold fetchRealTweets.
  destruct (negb (JS.truthy token)); [reflexivity|].
  apply (searchVariants_limited search _ 0%nat j v Hnth Hlim Hbefore).
Qed.

(** *** The parts of a run *)

Lemma tryBody_parts (w : world) (raw : string) (st0 : state) :
  tryBody w raw st0 =
  let key := fst (normalizeQuery raw (normalizeAnswer w)) in
  let scope := snd (normalizeQuery raw (normalizeAnswer w)) in
  let cachedQuery :=
    findFirstCached (table w) key (nowSixHours w - SIX_HOURS)
      (nowSevenDays w - SEVEN_DAYS) in
  let es1 := [NormalizeCall raw; CacheLookup key] in
  match lookupFails w with
  | Some message => (es1, tick (tick st0), Some message)
  | None =>
      match cachedPart w key cachedQuery (tick (tick st0)) with
      | (es2, st3, Some message) => (es1 ++ es2, st3, Some message)
      | (es2, st3, None) =>
          (es1 ++ es2 ++ fst (freshPart w raw key scope cachedQuery st3),
           snd (freshPart w raw key scope cachedQuery st3), None)
      end
  end.
Proof.
  unfold tryBody, cachedPart, freshPart, fetchCountOf.
  destruct (normalizeQuery raw (normalizeAnswer w)) as [key scope].
  cbn [fst snd]. cbv zeta.
  destruct (lookupFails w) as [msg|]; [reflexivity|].
  destruct (findFirstCached _ _ _ _) as [q|].
  2: { destruct (discover _ _ _ _ _ _ _ _). reflexivity. }
  destruct (sq_items q) as [|item rest].
  { destruct (discover _ _ _ _ _ _ _ _). reflexivity. }
  destruct (replay w (item :: rest) (tick (tick st0))) as [[es st] [msg|]];
    [reflexivity|].
  destruct (discover _ _ _ _ _ _ _ _). reflexivity.
Qed.

(** *** What the loop does *)

Lemma emitAndSave_shape (w : world) (attempt i : nat) (n : newsItem)
  (st : state) (ids : list string) :
  Forall (fun e => e = Enqueue (News n) \/ (exists ok, e = DbCreate n ok) \/
                   exists found, e = DbFindExisting (headline n) (location n) found)
    (fst (fst (emitAndSave w attempt i n st ids))) /\
  incl (existingHeadlines st)
    (existingHeadlines (snd (fst (emitAndSave w attempt i n st ids)))).
Proof.
  unfold emitAndSave.
  destruct (safeEnqueue_cases w st (News n)) as [-> | ->];
    destruct (createSucceeds w attempt i);
    try destruct (findExisting w attempt i) as [[x|]|m];
    cbn [fst snd app existingHeadlines tick countFetched pushHeadline].
  all: split; [each ltac:(eauto) | try apply incl_refl; try apply incl_appl, incl_refl].
Qed.

Lemma processCall_shape (w : world) (known : list string) sevenDaysAgo attempt
  (calls : list (option args)) i call st ids :
  nth_error calls i = Some call ->
  incl known (existingHeadlines st) ->
  Forall (candidateEffect w sevenDaysAgo known attempt calls)
    (fst (fst (processCall w sevenDaysAgo attempt i call st ids))) /\
  incl known
    (existingHeadlines (snd (fst (processCall w sevenDaysAgo attempt i call st ids)))).
Proof.
  intros Hnth Hknown. unfold processCall.
  destruct call as [a|]; [|split; [apply List.Forall_nil | exact Hknown]].
  destruct (a_headline a) as [h|] eqn:Hh; [|split; [apply List.Forall_nil | exact Hknown]].
  destruct (a_location a) as [loc|] eqn:Hl; [|split; [apply List.Forall_nil | exact Hknown]].
  destruct (String.eqb h "" || String.eqb loc "") eqn:Hne;
    [split; [apply List.Forall_nil | exact Hknown]|].
  apply orb_false_iff in Hne. destruct Hne as [Hhne Hlne].
  apply String.eqb_neq in Hhne, Hlne.
  destruct (JS.includes (existingHeadlines st) h) eqn:Hinc;
    [split; [apply List.Forall_nil | exact Hknown]|].
  assert (~ In h known) as Hnew.
  { intros Hin. apply Hknown, includes_In in Hin. congruence. }
  destruct (tooOld w sevenDaysAgo (a_timestamp a)) eqn:Hold;
    [split; [apply List.Forall_nil | exact Hknown]|].
  assert (forall m s, Forall (candidateEffect w sevenDaysAgo known attempt calls)
                        (safeEnqueue w s (Status m))) as Hst.
  { intros m s. destruct (safeEnqueue_cases w s (Status m)) as [-> | ->];
      each ltac:(exact I). }
  assert (forall l s, Forall (candidateEffect w sevenDaysAgo known attempt calls)
                        (safeEnqueue w s (tweetsStatus h l))) as Hts.
  { intros l s. unfold tweetsStatus. destruct (0 <? length l)%nat; apply Hst. }
  destruct (geocodeLocation (photon w attempt i)) as [c|] eqn:Hgeo.
  2: { split; [|exact Hknown]. apply Forall_app. split; [apply Hst|].
       each ltac:(exact I). }
  assert (forall tweets s l,
            (if JS.truthy (a_search_query a)
             then fetchRealTweets (X_BEARER_TOKEN w) (xSearch w attempt i)
                    (JS.orElse (a_search_query a) "") (Some h) = Returned tweets
             else tweets = []) ->
            incl known (existingHeadlines s) ->
            let n := NewsItem (randomUUID w attempt i) h loc (a_summary a)
                       (JS.orElse (a_category a) "General") c
                       (IsoOf (itemNow w attempt i)) tweets in
            Forall (candidateEffect w sevenDaysAgo known attempt calls)
              (fst (fst (emitAndSave w attempt i n s l))) /\
            incl known (existingHeadlines (snd (fst (emitAndSave w attempt i n s l)))))
    as Hsave.
  { intros tweets s l Htw Hs n.
    destruct (emitAndSave_shape w attempt i n s l) as [H1 H2].
    split; [|eapply incl_tran; eassumption].
    eapply List.Forall_impl; [|exact H1].
    assert (exists i' a', nth_error calls i' = Some (Some a') /\
                          reportedAt w sevenDaysAgo attempt i' a' n /\
                          ~ In (headline n) known)
      as Hrep.
    { exists i, a. split; [exact Hnth|]. split; [|exact Hnew].
      unfold reportedAt, n. cbn [headline BreakingNews.location summary category
        coordinates id timestamp top_tweets]. repeat (split; [solve [auto]|]).
      exact Htw. }
    intros e [-> | [(ok & ->) | (found & ->)]]; cbn [candidateEffect]; auto. }
  destruct (JS.truthy (a_search_query a)) eqn:Hq.
  - destruct (fetchRealTweets _ _ _ _) as [tweets|msg] eqn:Hf; cbn [fst snd].
    + destruct (Hsave tweets (tick (tick st)) ids eq_refl Hknown) as [H1 H2].
      cbn zeta in H1, H2.
      destruct (emitAndSave w attempt i _ (tick (tick st)) ids) as [[es4 st4] ids4].
      cbn [fst snd] in *. split; [|exact H2].
      repeat (apply Forall_app; split); auto; each ltac:(exact I).
    + split; [|exact Hknown].
      repeat (apply Forall_app; split); auto; each ltac:(exact I).
  - destruct (Hsave [] (tick st) ids eq_refl Hknown) as [H1 H2].
    cbn zeta in H1, H2.
    destruct (emitAndSave w attempt i _ (tick st) ids) as [[es4 st4] ids4].
    cbn [fst snd] in *. split; [|exact H2].
    repeat (apply Forall_app; split); auto; each ltac:(exact I).
Qed.

Lemma processCalls_shape (w : world) (known : list string) sevenDaysAgo attempt
  (calls : list (option args)) (rest : list (option args)) :
  forall i st ids,
    (forall j call, nth_error rest j = Some call ->
                    nth_error calls (i + j) = Some call) ->
    incl known (existingHeadlines st) ->
    Forall (candidateEffect w sevenDaysAgo known attempt calls)
      (fst (fst (processCalls w sevenDaysAgo attempt i rest st ids))) /\
    incl known
      (existingHeadlines (snd (fst (processCalls w sevenDaysAgo attempt i rest st ids)))).
Proof.
  induction rest as [|call rest IH]; intros i st ids Hnth Hknown; cbn [processCalls].
  - split; [apply List.Forall_nil | exact Hknown].
  - destruct (processCall_shape w known sevenDaysAgo attempt calls i call st ids)
      as [H1 H2]; [|exact Hknown|].
    { rewrite <- (Nat.add_0_r i). apply Hnth. reflexivity. }
    destruct (processCall w sevenDaysAgo attempt i call st ids) as [[es st1] ids1].
    cbn [fst snd] in *.
    destruct (IH (S i) st1 ids1) as [H3 H4]; [|exact H2|].
    { intros j c Hj. replace (S i + j)%nat with (i + S j)%nat by lia.
      apply Hnth. exact Hj. }
    destruct (processCalls w sevenDaysAgo attempt (S i) rest st1 ids1)
      as [[es' st2] ids2].
    cbn [fst snd] in *. split; [|exact H4]. apply Forall_app. split; assumption.
Qed.

Lemma linkItems_shape (w : world) cachedQuery key raw st ids :
  Forall (linkedTo cachedQuery key)
    (fst (fst (linkItems w cachedQuery key raw st ids))) /\
  Forall (fun e => match e with
                   | DbLinkQuery _ _ _ _ | DbFindQuery _ _ | DbCreateQuery _ _ _ _ _ => True
                   | _ => False
                   end)
    (fst (fst (linkItems w cachedQuery key raw st ids))) /\
  existingHeadlines (snd (fst (linkItems w cachedQuery key raw st ids)))
  = existingHeadlines st.
Proof.
  unfold linkItems. destruct ids as [|x ids].
  { split; [apply List.Forall_nil|]. split; [apply List.Forall_nil | reflexivity]. }
  destruct cachedQuery as [q|]; cbn [fst snd].
  - split; [|split; [each ltac:(exact I) | reflexivity]].
    each ltac:(cbn; split; [discriminate | split; reflexivity]).
  - destruct (existingQuery w (attempts st)) as [[qid|]|msg]; cbn [fst snd].
    all: split; [|split; [each ltac:(exact I) | reflexivity]].
    + apply List.Forall_cons; [cbn; auto|]. apply List.Forall_cons; [|apply List.Forall_nil].
      cbn. split; [discriminate | reflexivity].
    + apply List.Forall_cons; [cbn; auto|]. apply List.Forall_cons; [|apply List.Forall_nil].
      cbn. split; [reflexivity|]. split; [reflexivity|]. split; [discriminate|].
      destruct (String.eqb raw "") eqn:E; [discriminate|].
      apply String.eqb_neq. exact E.
    + apply List.Forall_cons; [cbn; auto | apply List.Forall_nil].
Qed.

Lemma candidate_is_roundEffect (w : world) sevenDaysAgo cachedQuery key known
  attempt calls e :
  llm w attempt = LlmCalls calls ->
  candidateEffect w sevenDaysAgo known attempt calls e ->
  roundEffect w sevenDaysAgo cachedQuery key known e.
Proof.
  intros Hllm. destruct e as [[| | | |]| | | | | | | | | |]; cbn; auto;
    try contradiction.
  all: intros (i & a & H1 & H2 & H3); exists attempt, i, calls, a; auto.
Qed.

Lemma link_is_roundEffect (w : world) sevenDaysAgo cachedQuery key known e :
  linkedTo cachedQuery key e ->
  match e with
  | DbLinkQuery _ _ _ _ | DbFindQuery _ _ | DbCreateQuery _ _ _ _ _ => True
  | _ => False
  end ->
  roundEffect w sevenDaysAgo cachedQuery key known e.
Proof. destruct e as [[| | | |]| | | | | | | | | |]; cbn; auto; contradiction. Qed.

Lemma round_shape (w : world) (known : list string) sevenDaysAgo cachedQuery key raw
  fetchCount st :
  incl known (existingHeadlines st) ->
  Forall (roundEffect w sevenDaysAgo cachedQuery key known)
    (fst (fst (round w sevenDaysAgo cachedQuery key raw fetchCount st))) /\
  incl known
    (existingHeadlines
       (snd (fst (round w sevenDaysAgo cachedQuery key raw fetchCount st)))).
Proof.
  intros Hknown. unfold round.
  set (es1 := (if (1 <? attempts st)%nat then _ else _) ++ [LlmCall _ _]).
  assert (Forall (roundEffect w sevenDaysAgo cachedQuery key known) es1) as H1.
  { apply Forall_app. split; [|each ltac:(exact I)].
    destruct (1 <? attempts st)%nat; [|apply List.Forall_nil].
    destruct (safeEnqueue_cases w st (Status ("Scanning for more... (" +:+
                pretty (fetchedCount st) +:+ "/" +:+ pretty fetchCount +:+ " found)")))
      as [-> | ->]; each ltac:(exact I). }
  clearbody es1.
  assert (forall calls st2,
            calls = [] \/ llm w (attempts st) = LlmCalls calls ->
            incl known (existingHeadlines st2) ->
            let r :=
              (let '(es2, st3, createdItemsIds) :=
                 processCalls w sevenDaysAgo (attempts st) 0 calls st2 [] in
               let '(es3, st4, ok) :=
                 linkItems w cachedQuery key raw st3 createdItemsIds in
               (es1 ++ es2 ++ es3,
                if ok && (fetchedCount st4 <? fetchCount)
                then appendContent (exclusion (existingHeadlines st4)) st4
                else st4, false)) in
            Forall (roundEffect w sevenDaysAgo cachedQuery key known) (fst (fst r)) /\
            incl known (existingHeadlines (snd (fst r)))) as Hp.
  { intros calls st2 Hcalls Hk2.
    assert (Forall (roundEffect w sevenDaysAgo cachedQuery key known)
              (fst (fst (processCalls w sevenDaysAgo (attempts st) 0 calls st2 []))) /\
            incl known (existingHeadlines
              (snd (fst (processCalls w sevenDaysAgo (attempts st) 0 calls st2 [])))))
      as [H2 H2'].
    { destruct Hcalls as [-> | Hllm].
      - cbn [processCalls fst snd]. split; [apply List.Forall_nil | exact Hk2].
      - destruct (processCalls_shape w known sevenDaysAgo (attempts st) calls calls
                    0%nat st2 [] ltac:(intros j c Hj; exact Hj) Hk2) as [Ha Hb].
        split; [|exact Hb]. eapply List.Forall_impl; [|exact Ha].
        intros e. apply candidate_is_roundEffect. exact Hllm. }
    destruct (processCalls w sevenDaysAgo (attempts st) 0 calls st2 [])
      as [[es2 st3] ids].
    destruct (linkItems_shape w cachedQuery key raw st3 ids) as (H3 & H3' & H3'').
    destruct (linkItems w cachedQuery key raw st3 ids) as [[es3 st4] ok].
    cbn [fst snd] in *. cbn zeta. cbn [fst snd]. split.
    - repeat (apply Forall_app; split); try assumption.
      apply List.Forall_forall. intros e He.
      apply link_is_roundEffect.
      + exact (proj1 (List.Forall_forall _ _) H3 e He).
      + exact (proj1 (List.Forall_forall _ _) H3' e He).
    - destruct (ok && (fetchedCount st4 <? fetchCount));
        cbn [existingHeadlines appendContent]; rewrite H3''; exact H2'. }
  cbn zeta in Hp.
  destruct (llm w (attempts st)) as [| | | |calls] eqn:Hllm;
    try (split; [exact H1 | exact Hknown]);
    destruct (isActive w (tick st));
    try (split; [exact H1 | exact Hknown]);
    apply Hp; auto.
Qed.

Lemma discover_shape (w : world) (known : list string) sevenDaysAgo cachedQuery key
  raw fetchCount fuel :
  forall st,
    incl known (existingHeadlines st) ->
    Forall (roundEffect w sevenDaysAgo cachedQuery key known)
      (fst (discover fuel w sevenDaysAgo cachedQuery key raw fetchCount st)).
Proof.
  induction fuel as [|fuel IH]; intros st Hknown; cbn [discover];
    [apply List.Forall_nil|].
  destruct (continues w fetchCount st); [|apply List.Forall_nil].
  destruct (round_shape w known sevenDaysAgo cachedQuery key raw fetchCount
              (nextAttempt st) Hknown) as [H1 H2].
  destruct (round w sevenDaysAgo cachedQuery key raw fetchCount (nextAttempt st))
    as [[es st1] leave].
  cbn [fst snd] in *. destruct leave; [exact H1|].
  specialize (IH st1 H2).
  destruct (discover fuel w sevenDaysAgo cachedQuery key raw fetchCount st1)
    as [es' st2].
  cbn [fst] in *. apply Forall_app. split; assumption.
Qed.

(** *** What a run does *)

Lemma replay_shape (w : world) (items : list newsRow) :
  forall st,
    Forall (fun e => exists item c,
                       In item items /\
                       parseCoordinates w (ni_coordinates item) = Some c /\
                       e = Enqueue (News (cachedItem w c item)))
      (fst (fst (replay w items st))) /\
    attempts (snd (fst (replay w items st))) = attempts st /\
    fetchedCount (snd (fst (replay w items st))) = fetchedCount st /\
    awaits (snd (fst (replay w items st))) = awaits st /\
    match snd (replay w items st) with
    | None =>
        existingHeadlines (snd (fst (replay w items st)))
        = existingHeadlines st ++ List.map ni_headline items
    | Some message =>
        message = "SyntaxError" /\
        exists item, In item items /\ parseCoordinates w (ni_coordinates item) = None
    end.
Proof.
  induction items as [|item rest IH]; intros st; cbn [replay].
  - cbn [fst snd List.map]. rewrite app_nil_r.
    split; [apply List.Forall_nil | auto].
  - destruct (parseCoordinates w (ni_coordinates item)) as [c|] eqn:E.
    + specialize (IH (pushHeadline (ni_headline item) st)).
      destruct (replay w rest (pushHeadline (ni_headline item) st))
        as [[es' st2] thrown].
      cbn [fst snd pushHeadline existingHeadlines attempts fetchedCount awaits] in *.
      destruct IH as (H1 & H2 & H3 & H4 & H5).
      split; [|split; [exact H2 | split; [exact H3 | split; [exact H4|]]]].
      * apply Forall_app. split.
        -- destruct (safeEnqueue_cases w (pushHeadline (ni_headline item) st)
                       (News (cachedItem w c item))) as [-> | ->];
             each ltac:(exists item, c; cbn [In]; auto).
        -- eapply List.Forall_impl; [|exact H1].
           intros e (it & c' & Ha & Hb & Hc). exists it, c'. cbn [In]. auto.
      * destruct thrown as [msg|].
        -- destruct H5 as (Hm & it & Ha & Hb). split; [exact Hm|].
           exists it. cbn [In]. auto.
        -- rewrite H5, <- app_assoc. reflexivity.
    + cbn [fst snd pushHeadline existingHeadlines attempts fetchedCount awaits].
      split; [apply List.Forall_nil|]. do 3 (split; [reflexivity|]).
      split; [reflexivity|]. exists item. cbn [In]. auto.
Qed.

Lemma cachedPart_shape (w : world) (st2 : state) :
  let r := cachedPart w (normalizedKeyOf w) (cachedQueryOf w) st2 in
  Forall (fun e => (exists m, e = Enqueue (Status m)) \/
                   exists n, replayed w n /\ e = Enqueue (News n))
    (fst (fst r)) /\
  attempts (snd (fst r)) = attempts st2 /\
  fetchedCount (snd (fst r)) = fetchedCount st2 /\
  awaits (snd (fst r)) = awaits st2 /\
  match snd r with
  | None => existingHeadlines (snd (fst r)) = existingHeadlines st2 ++ cachedHeadlines w
  | Some message =>
      message = "SyntaxError" /\
      exists q item, cachedQueryOf w = Some q /\ In item (sq_items q) /\
                     parseCoordinates w (ni_coordinates item) = None
  end.
Proof.
  cbn zeta. unfold cachedPart, cachedHeadlines.
  destruct (cachedQueryOf w) as [q|] eqn:Ecq.
  2: { cbn [fst snd]. rewrite app_nil_r. split; [apply List.Forall_nil | auto]. }
  destruct (sq_items q) as [|item rest] eqn:Ei.
  { cbn [fst snd List.map]. rewrite app_nil_r. split; [apply List.Forall_nil | auto]. }
  destruct (replay_shape w (item :: rest) st2) as (H1 & H2 & H3 & H4 & H5).
  destruct (replay w (item :: rest) st2) as [[es st] thrown].
  cbn [fst snd] in *.
  split; [|split; [exact H2 | split; [exact H3 | split; [exact H4|]]]].
  - apply Forall_app. split.
    + destruct (safeEnqueue_cases w st2
                  (Status ("Found cached results for " +:+ normalizedKeyOf w)))
        as [-> | ->]; each ltac:(left; eauto).
    + eapply List.Forall_impl; [|exact H1].
      intros e (it & c & Ha & Hb & ->). right. eexists. split; [|reflexivity].
      exists q, it, c. rewrite Ei. auto.
  - destruct thrown as [msg|]; [|exact H5].
    destruct H5 as (Hm & it & Ha & Hb). split; [exact Hm|].
    exists q, it. rewrite Ei. auto.
Qed.

Lemma freshPart_shape (w : world) (known : list string) raw key scope cachedQuery st3 :
  incl known (existingHeadlines st3) ->
  Forall (roundEffect w (nowSevenDays w - SEVEN_DAYS) cachedQuery key known)
    (fst (freshPart w raw key scope cachedQuery st3)).
Proof.
  intros Hknown. unfold freshPart. cbv zeta.
  match goal with
  | |- context [discover ?f w ?a ?b ?c ?d ?e ?s] =>
      pose proof (discover_shape w known a b c d e f s Hknown) as Hd;
      destruct (discover f w a b c d e s) as [es4 st5]
  end.
  cbn [fst] in *. apply Forall_app. split; [|exact Hd].
  match goal with
  | |- context [safeEnqueue w st3 (Status ?m)] =>
      destruct (safeEnqueue_cases w st3 (Status m)) as [-> | ->]
  end; each ltac:(exact I).
Qed.

Lemma round_is_runEffect (w : world) (e : effect) :
  roundEffect w (nowSevenDays w - SEVEN_DAYS) (cachedQueryOf w) (normalizedKeyOf w)
    (cachedHeadlines w) e ->
  runEffect w e.
Proof. destruct e as [[| | | |]| | | | | | | | | |]; cbn; auto. Qed.

(** The parts of a run, for the query of the request. *)
Lemma run_parts (w : world) :
  let raw := JS.orElse (queryParam w) "" in
  let es0 := safeEnqueue w initialState (Connected "Connecting...") ++
             safeEnqueue w initialState (Status "Analyzing query scope...") in
  let es1 := [NormalizeCall raw; CacheLookup (normalizedKeyOf w)] in
  let st2 := tick (tick initialState) in
  let part := cachedPart w (normalizedKeyOf w) (cachedQueryOf w) st2 in
  let st3 := snd (fst part) in
  let more := freshPart w raw (normalizedKeyOf w)
                (snd (normalizeQuery raw (normalizeAnswer w))) (cachedQueryOf w) st3 in
  match lookupFails w with
  | Some message =>
      outerCatch w = Some message /\
      fst (run w) = es0 ++ es1 ++ safeEnqueue w st2 (Error message)
  | None =>
      match snd part with
      | Some message =>
          outerCatch w = Some message /\
          fst (run w) = es0 ++ (es1 ++ fst (fst part)) ++ safeEnqueue w st3 (Error message)
      | None =>
          outerCatch w = None /\
          fst (run w) = es0 ++ (es1 ++ fst (fst part) ++ fst more) ++
                        safeEnqueue w (snd more) Complete
      end
  end.
Proof.
  cbn zeta. unfold run, outerCatch. rewrite tryBody_parts. cbv zeta.
  fold (normalizedKeyOf w).
  change (findFirstCached (table w) (normalizedKeyOf w) (nowSixHours w - SIX_HOURS)
            (nowSevenDays w - SEVEN_DAYS)) with (cachedQueryOf w).
  destruct (lookupFails w) as [msg|]; [split; reflexivity|].
  destruct (cachedPart w (normalizedKeyOf w) (cachedQueryOf w) (tick (tick initialState)))
    as [[es2 st3] [msg|]]; cbn [fst snd]; split; reflexivity.
Qed.

Lemma run_effects (w : world) : Forall (runEffect w) (fst (run w)).
Proof.
  pose proof (run_parts w) as Hparts. cbn zeta in Hparts.
  pose proof (cachedPart_shape w (tick (tick initialState))) as Hc. cbn zeta in Hc.
  assert (forall st f, match f with News _ => False | _ => True end ->
                       Forall (runEffect w) (safeEnqueue w st f)) as Hframe.
  { intros st f Hf. destruct (safeEnqueue_cases w st f) as [-> | ->];
      [|apply List.Forall_nil].
    apply List.Forall_cons; [|apply List.Forall_nil].
    destruct f; cbn; auto; contradiction. }
  assert (Forall (runEffect w)
            (fst (fst (cachedPart w (normalizedKeyOf w) (cachedQueryOf w)
                         (tick (tick initialState)))))) as H2.
  { eapply List.Forall_impl; [|exact (proj1 Hc)].
    intros e [(m & ->) | (n & Hn & ->)]; cbn; auto. }
  destruct (lookupFails w) as [msg|].
  { destruct Hparts as [_ ->].
    repeat (apply Forall_app; split); try (apply Hframe; exact I).
    each ltac:(exact I). }
  destruct Hc as (_ & _ & _ & _ & Hc).
  destruct (snd (cachedPart w (normalizedKeyOf w) (cachedQueryOf w)
                   (tick (tick initialState)))) as [msg|].
  { destruct Hparts as [_ ->].
    repeat (apply Forall_app; split); try (apply Hframe; exact I); try exact H2.
    each ltac:(exact I). }
  destruct Hparts as [_ ->].
  repeat (apply Forall_app; split); try (apply Hframe; exact I); try exact H2.
  - each ltac:(exact I).
  - eapply List.Forall_impl; [intros e; apply round_is_runEffect|].
    apply freshPart_shape. rewrite Hc. cbn [existingHeadlines tick initialState app].
    apply incl_refl.
Qed.

(** *** Times of the items *)

(** C9, as the code has it.  Every item a run saves, and every item it
    sends that is not a replay of the cache, was built from a tool call
    of one of the rounds, which the seven-day check let pass; it carries
    the identifier drawn for that call and, as its time, the reading of
    the clock made when that very call was processed.  The time the call
    declares only decides whether the call is discarded: a call whose
    declared time is older than seven days has no effect at all, and
    replacing the declared time of a call by any other time that passes
    the check changes nothing of what processing the call does. *)
Theorem event_time_is_the_processing_clock (w : world) :
  (forall n ok,
      In (DbCreate n ok) (fst (run w)) ->
      exists attempt i calls a,
        llm w attempt = LlmCalls calls /\ nth_error calls i = Some (Some a) /\
        a_headline a = Some (headline n) /\ a_location a = Some (location n) /\
        tooOld w (nowSevenDays w - SEVEN_DAYS) (a_timestamp a) = false /\
        id n = randomUUID w attempt i /\
        timestamp n = IsoOf (itemNow w attempt i)) /\
  (forall n,
      In (Enqueue (News n)) (fst (run w)) ->
      replayed w n \/
      exists attempt i calls a,
        llm w attempt = LlmCalls calls /\ nth_error calls i = Some (Some a) /\
        a_headline a = Some (headline n) /\ a_location a = Some (location n) /\
        tooOld w (nowSevenDays w - SEVEN_DAYS) (a_timestamp a) = false /\
        id n = randomUUID w attempt i /\
        timestamp n = IsoOf (itemNow w attempt i)) /\
  (forall sevenDaysAgo attempt i a st ids,
      tooOld w sevenDaysAgo (a_timestamp a) = true ->
      processCall w sevenDaysAgo attempt i (Some a) st ids = ([], st, ids)) /\
  (forall sevenDaysAgo attempt i a t st ids,
      tooOld w sevenDaysAgo (a_timestamp a) = false ->
      tooOld w sevenDaysAgo t = false ->
      processCall w sevenDaysAgo attempt i (Some (declaring t a)) st ids =
      processCall w sevenDaysAgo attempt i (Some a) st ids).
Proof.
  assert (forall n,
            fresh w (nowSevenDays w - SEVEN_DAYS) (cachedHeadlines w) n ->
            exists attempt i calls a,
              llm w attempt = LlmCalls calls /\ nth_error calls i = Some (Some a) /\
              a_headline a = Some (headline n) /\ a_location a = Some (location n) /\
              tooOld w (nowSevenDays w - SEVEN_DAYS) (a_timestamp a) = false /\
              id n = randomUUID w attempt i /\
              timestamp n = IsoOf (itemNow w attempt i)) as Hfresh.
  { intros n (attempt & i & calls & a & H1 & H2 & H3 & _).
    destruct H3 as (Hold & Hh & _ & Hl & _ & _ & _ & _ & Hid & Ht & _).
    exists attempt, i, calls, a. auto 10. }
  split; [|split; [|split]].
  - intros n ok Hin.
    pose proof (proj1 (List.Forall_forall _ _) (run_effects w) _ Hin) as H.
    apply Hfresh. exact H.
  - intros n Hin.
    pose proof (proj1 (List.Forall_forall _ _) (run_effects w) _ Hin) as H.
    cbn [runEffect] in H. destruct H as [H | H]; [left; exact H | right].
    apply Hfresh. exact H.
  - intros sevenDaysAgo attempt i a st ids Hold. unfold processCall.
    destruct (a_headline a) as [h|]; [|reflexivity].
    destruct (a_location a) as [loc|]; [|reflexivity].
    destruct (String.eqb h "" || String.eqb loc ""); [reflexivity|].
    destruct (JS.includes (existingHeadlines st) h); [reflexivity|].
    rewrite Hold. reflexivity.
  - intros sevenDaysAgo attempt i a t st ids Hold Hnew.
    unfold processCall, declaring.
    cbn [a_headline a_location a_summary a_category a_timestamp a_search_query].
    rewrite Hold, Hnew. reflexivity.
Qed.

(** X17.  Every event a run saves was built from a tool call the model
    made in one of the rounds: its headline and location are the ones of
    the call and are not empty, its category is the one of the call or
    [General], never empty, its coordinates are the ones the geocoder
    gave for the call, and its posts are what the evidence fetcher
    returned for the search hint of the call (none without a hint). *)
Theorem saved_events_were_reported (w : world) (n : newsItem) (ok : bool) :
  In (DbCreate n ok) (fst (run w)) ->
  exists attempt i calls a,
    llm w attempt = LlmCalls calls /\ nth_error calls i = Some (Some a) /\
    reportedAt w (nowSevenDays w - SEVEN_DAYS) attempt i a n /\ category n <> "".
Proof.
  intros Hin.
  pose proof (proj1 (List.Forall_forall _ _) (run_effects w) _ Hin) as H.
  cbn [runEffect] in H. destruct H as (attempt & i & calls & a & H1 & H2 & H3 & _).
  exists attempt, i, calls, a. do 3 (split; [assumption|]).
  destruct H3 as (_ & _ & _ & _ & _ & _ & Hc & _). rewrite Hc. unfold JS.orElse.
  destruct (a_category a) as [c|]; [|discriminate].
  destruct (String.eqb c "") eqn:E; [discriminate | apply String.eqb_neq; exact E].
Qed.

(** X18.  A run never saves an event under the headline of an item of
    the record it found in the cache, and a [news] frame with such a
    headline carries a replayed item, not a fresh one. *)
Theorem cached_headlines_are_not_fetched_again (w : world) (q : searchQueryRow)
  (item : newsRow) :
  cachedQueryOf w = Some q -> In item (sq_items q) ->
  (forall n ok, In (DbCreate n ok) (fst (run w)) -> headline n <> ni_headline item) /\
  (forall n, In (Enqueue (News n)) (fst (run w)) ->
             headline n = ni_headline item -> replayed w n).
Proof.
  intros Hq Hitem.
  assert (In (ni_headline item) (cachedHeadlines w)) as Hknown.
  { unfold cachedHeadlines. rewrite Hq. apply in_map. exact Hitem. }
  split.
  - intros n ok Hin E.
    pose proof (proj1 (List.Forall_forall _ _) (run_effects w) _ Hin) as H.
    cbn [runEffect] in H. destruct H as (_ & _ & _ & _ & _ & _ & _ & H).
    apply H. rewrite E. exact Hknown.
  - intros n Hin E.
    pose proof (proj1 (List.Forall_forall _ _) (run_effects w) _ Hin) as H.
    cbn [runEffect] in H. destruct H as [H | (_ & _ & _ & _ & _ & _ & _ & H)];
      [exact H|].
    exfalso. apply H. rewrite E. exact Hknown.
Qed.


(** *** The cached items *)

Lemma newsOf_frames_shape (P : newsItem -> Prop) (es : list effect) :
  Forall (fun e => match e with Enqueue (News n) => P n | _ => True end) es ->
  Forall P (newsOf (frames es)).
Proof.
  induction es as [|e es IH]; intros H; [apply List.Forall_nil|].
  pose proof (Forall_inv H) as He. apply List.Forall_inv_tail in H.
  specialize (IH H).
  destruct e as [[| | | |]| | | | | | | | | |]; cbn; auto.
Qed.

Lemma newsOf_frames_none (es : list effect) :
  Forall (fun e => match e with Enqueue (News _) => False | _ => True end) es ->
  newsOf (frames es) = [].
Proof.
  intros H. apply newsOf_frames_shape in H.
  destruct (newsOf (frames es)) as [|n l]; [reflexivity|].
  apply Forall_inv in H. contradiction.
Qed.

Lemma frames_safeEnqueue_news (w : world) (st : state) (f : frame) :
  match f with News _ => False | _ => True end ->
  newsOf (frames (safeEnqueue w st f)) = [].
Proof.
  intros Hf. destruct (safeEnqueue_cases w st f) as [-> | ->]; [|reflexivity].
  destruct f; try reflexivity; contradiction.
Qed.

Lemma replay_all (w : world) (items : list newsRow) :
  abortAt w = None ->
  (forall item, In item items -> parseCoordinates w (ni_coordinates item) <> None) ->
  forall st,
    snd (replay w items st) = None /\
    Forall2 (fun item n =>
               exists c, parseCoordinates w (ni_coordinates item) = Some c /\
                         n = cachedItem w c item)
      items (newsOf (frames (fst (fst (replay w items st))))).
Proof.
  intros Hc. induction items as [|item rest IH]; intros Hall st; cbn [replay].
  - split; [reflexivity | constructor].
  - destruct (parseCoordinates w (ni_coordinates item)) as [c|] eqn:E.
    2: { exfalso. apply (Hall item); [left; reflexivity | exact E]. }
    destruct (IH (fun it Hin => Hall it (or_intror Hin))
                 (pushHeadline (ni_headline item) st)) as [H1 H2].
    destruct (replay w rest (pushHeadline (ni_headline item) st))
      as [[es' st2] thrown].
    cbn [fst snd] in *. split; [exact H1|].
    rewrite (safeEnqueue_connected w _ _ Hc).
    change ([Enqueue (News (cachedItem w c item))] ++ es')
      with (Enqueue (News (cachedItem w c item)) :: es').
    cbn [frames flat_map newsOf app]. constructor; [eauto | exact H2].
Qed.

(** X20.  While the client is connected and the stored coordinates of
    the cached items can be read, the [news] frames of a run begin with
    the items of the cached record, one frame each, in the order of the
    record; all the frames after them carry fresh items, built from tool
    calls and under headlines that are not in the record. *)
Theorem cached_items_come_first (w : world) (q : searchQueryRow) :
  abortAt w = None -> lookupFails w = None ->
  cachedQueryOf w = Some q ->
  (forall item, In item (sq_items q) ->
                parseCoordinates w (ni_coordinates item) <> None) ->
  exists sent rest,
    newsOf (frames (fst (run w))) = sent ++ rest /\
    Forall2 (fun item n =>
               exists c, parseCoordinates w (ni_coordinates item) = Some c /\
                         n = cachedItem w c item)
      (sq_items q) sent /\
    Forall (fresh w (nowSevenDays w - SEVEN_DAYS) (List.map ni_headline (sq_items q)))
      rest.
Proof.
  intros Hc Hl Hq Hall.
  pose proof (run_parts w) as Hparts. cbn zeta in Hparts. rewrite Hl in Hparts.
  assert (snd (cachedPart w (normalizedKeyOf w) (cachedQueryOf w)
                 (tick (tick initialState))) = None /\
          Forall2 (fun item n =>
                     exists c, parseCoordinates w (ni_coordinates item) = Some c /\
                               n = cachedItem w c item)
            (sq_items q)
            (newsOf (frames (fst (fst (cachedPart w (normalizedKeyOf w)
                                         (cachedQueryOf w)
                                         (tick (tick initialState)))))))) as [Hn Hsent].
  { unfold cachedPart. rewrite Hq.
    destruct (sq_items q) as [|item rest] eqn:Ei;
      [split; [reflexivity | constructor]|].
    destruct (replay_all w (item :: rest) Hc Hall (tick (tick initialState)))
      as [H1 H2].
    destruct (replay w (item :: rest) (tick (tick initialState)))
      as [[es st] thrown].
    cbn [fst snd] in *. split; [exact H1|].
    rewrite frames_app, newsOf_app, frames_safeEnqueue_news by exact I. exact H2. }
  pose proof (cachedPart_shape w (tick (tick initialState))) as Hshape.
  cbn zeta in Hshape. destruct Hshape as (_ & _ & _ & _ & Hk).
  rewrite Hn in Hparts, Hk. destruct Hparts as [_ Hrun].
  eexists _, _. split; [|split; [exact Hsent|]].
  - rewrite Hrun. rewrite !frames_app, !newsOf_app.
    rewrite !frames_safeEnqueue_news by exact I.
    cbn [frames flat_map newsOf app]. rewrite app_nil_r. reflexivity.
  - apply newsOf_frames_shape.
    eapply List.Forall_impl;
      [|apply (freshPart_shape w (List.map ni_headline (sq_items q)))].
    + intros e. destruct e as [[| | | |]| | | | | | | | | |]; cbn; auto.
    + rewrite Hk. unfold cachedHeadlines. rewrite Hq.
      cbn [existingHeadlines tick initialState app]. apply incl_refl.
Qed.

Lemma llmRounds_app (a b : list effect) :
  llmRounds (a ++ b) = llmRounds a ++ llmRounds b.
Proof. unfold llmRounds. apply flat_map_app. Qed.

Lemma llmRounds_none (es : list effect) :
  Forall (fun e => match e with LlmCall _ _ => False | _ => True end) es ->
  llmRounds es = [].
Proof.
  induction es as [|e es IH]; intros H; [reflexivity|].
  pose proof (Forall_inv H) as He. apply List.Forall_inv_tail in H.
  change (e :: es) with ([e] ++ es). rewrite llmRounds_app, (IH H), app_nil_r.
  destruct e; try reflexivity; contradiction.
Qed.

Lemma llmRounds_safeEnqueue (w : world) (st : state) (f : frame) :
  llmRounds (safeEnqueue w st f) = [].
Proof. destruct (safeEnqueue_cases w st f) as [-> | ->]; reflexivity. Qed.

Lemma replay_unreadable (w : world) (item : newsRow) (items : list newsRow) :
  parseCoordinates w (ni_coordinates item) = None ->
  forall st, In item items -> snd (replay w items st) <> None.
Proof.
  intros Hbad. induction items as [|x xs IH]; intros st Hin; [destruct Hin|].
  cbn [replay]. destruct Hin as [-> | Hin]; [rewrite Hbad; discriminate|].
  destruct (parseCoordinates w (ni_coordinates x)); [|discriminate].
  specialize (IH (pushHeadline (ni_headline x) st) Hin).
  destruct (replay w xs (pushHeadline (ni_headline x) st)) as [[es' st2] thrown].
  exact IH.
Qed.

(** X21.  One stored item whose coordinates cannot be read ends the run:
    the exception leaves the outer [try], the model is never called and
    nothing is saved or linked; what the run does is its two first calls
    and frames, the last of which, for a connected client, is the
    [error] frame. *)
Theorem unreadable_cached_item_ends_the_run (w : world) (q : searchQueryRow)
  (item : newsRow) :
  lookupFails w = None -> cachedQueryOf w = Some q -> In item (sq_items q) ->
  parseCoordinates w (ni_coordinates item) = None ->
  outerCatch w = Some "SyntaxError" /\
  llmRounds (fst (run w)) = [] /\
  Forall (fun e => match e with
                   | Enqueue _ | NormalizeCall _ | CacheLookup _ => True
                   | _ => False
                   end) (fst (run w)) /\
  (abortAt w = None ->
   exists before, frames (fst (run w)) = before ++ [Error "SyntaxError"]).
Proof.
  intros Hl Hq Hitem Hbad.
  pose proof (run_parts w) as Hparts. cbn zeta in Hparts. rewrite Hl in Hparts.
  pose proof (cachedPart_shape w (tick (tick initialState))) as Hshape.
  cbn zeta in Hshape. destruct Hshape as (Hes & _ & _ & _ & Hk).
  assert (snd (cachedPart w (normalizedKeyOf w) (cachedQueryOf w)
                 (tick (tick initialState))) = Some "SyntaxError") as Hthrown.
  { destruct (snd (cachedPart _ _ _ _)) as [msg|] eqn:E.
    - destruct Hk as [-> _]. reflexivity.
    - exfalso. revert E. unfold cachedPart. rewrite Hq.
      destruct (sq_items q) as [|it rest] eqn:Ei; [destruct Hitem|].
      pose proof (replay_unreadable w item (it :: rest) Hbad
                    (tick (tick initialState)) Hitem) as Hr.
      destruct (replay w (it :: rest) (tick (tick initialState)))
        as [[es st] thrown]. exact Hr. }
  rewrite Hthrown in Hparts. destruct Hparts as [Hcatch Hrun].
  split; [exact Hcatch|].
  assert (Forall (fun e => match e with
                           | Enqueue _ | NormalizeCall _ | CacheLookup _ => True
                           | _ => False
                           end) (fst (run w))) as Hall.
  { rewrite Hrun.
    assert (forall st f, Forall (fun e => match e with
                                          | Enqueue _ | NormalizeCall _
                                          | CacheLookup _ => True
                                          | _ => False
                                          end) (safeEnqueue w st f)) as Hf.
    { intros st f. destruct (safeEnqueue_cases w st f) as [-> | ->];
        each ltac:(exact I). }
    repeat (apply Forall_app; split); try apply Hf.
    - each ltac:(exact I).
    - eapply List.Forall_impl; [|exact Hes].
      intros e [(m & ->) | (n & _ & ->)]; exact I. }
  split; [|split; [exact Hall|]].
  - apply llmRounds_none. eapply List.Forall_impl; [|exact Hall].
    intros e; destruct e; auto.
  - intros Hc. rewrite Hrun, !app_assoc, frames_app.
    rewrite (safeEnqueue_connected w _ (Error "SyntaxError") Hc).
    eexists. reflexivity.
Qed.

(** *** The rounds *)

Lemma processCalls_no_model_call (w : world) sevenDaysAgo attempt calls st ids :
  llmRounds (fst (fst (processCalls w sevenDaysAgo attempt 0 calls st ids))) = [].
Proof.
  apply llmRounds_none.
  destruct (processCalls_shape w [] sevenDaysAgo attempt calls calls 0%nat st ids
              ltac:(intros j c Hj; exact Hj) ltac:(intros x [])) as [H _].
  eapply List.Forall_impl; [|exact H].
  intros e; destruct e as [[| | | |]| | | | | | | | | |]; cbn; auto.
Qed.

Lemma linkItems_no_model_call (w : world) cachedQuery key raw st ids :
  llmRounds (fst (fst (linkItems w cachedQuery key raw st ids))) = [].
Proof.
  apply llmRounds_none.
  destruct (linkItems_shape w cachedQuery key raw st ids) as (_ & H & _).
  eapply List.Forall_impl; [|exact H].
  intros e; destruct e; auto.
Qed.

Lemma round_rounds (w : world) sevenDaysAgo cachedQuery key raw fetchCount st :
  llmRounds (fst (fst (round w sevenDaysAgo cachedQuery key raw fetchCount st)))
  = [attempts st].
Proof.
  unfold round.
  set (es1 := (if (1 <? attempts st)%nat then _ else _) ++ [LlmCall _ _]).
  assert (llmRounds es1 = [attempts st]) as H1.
  { unfold es1. rewrite llmRounds_app.
    destruct (1 <? attempts st)%nat; [rewrite llmRounds_safeEnqueue|]; reflexivity. }
  clearbody es1.
  assert (forall calls st2,
            llmRounds (fst (fst (
              let '(es2, st3, createdItemsIds) :=
                processCalls w sevenDaysAgo (attempts st) 0 calls st2 [] in
              let '(es3, st4, ok) :=
                linkItems w cachedQuery key raw st3 createdItemsIds in
              (es1 ++ es2 ++ es3,
               if ok && (fetchedCount st4 <? fetchCount)
               then appendContent (exclusion (existingHeadlines st4)) st4
               else st4, false)))) = [attempts st]) as Hp.
  { intros calls st2.
    pose proof (processCalls_no_model_call w sevenDaysAgo (attempts st) calls st2 [])
      as H2.
    destruct (processCalls w sevenDaysAgo (attempts st) 0 calls st2 [])
      as [[es2 st3] ids].
    pose proof (linkItems_no_model_call w cachedQuery key raw st3 ids) as H3.
    destruct (linkItems w cachedQuery key raw st3 ids) as [[es3 st4] ok].
    cbn [fst] in *. rewrite !llmRounds_app, H1, H2, H3. reflexivity. }
  destruct (llm w (attempts st)); try exact H1;
    destruct (isActive w (tick st)); try exact H1; apply Hp.
Qed.

Lemma discover_rounds (w : world) sevenDaysAgo cachedQuery key raw fetchCount fuel :
  forall st,
    exists k,
      llmRounds (fst (discover fuel w sevenDaysAgo cachedQuery key raw fetchCount st))
      = seq (S (attempts st)) k /\
      (attempts st + k <= Nat.max (attempts st) 10)%nat /\
      forall j, (j < k)%nat ->
                loopNow w (attempts st + j) - processStartTime w < 90000.
Proof.
  induction fuel as [|fuel IH]; intros st; cbn [discover].
  - exists 0%nat. split; [reflexivity|]. split; [lia | intros j Hj; lia].
  - destruct (continues w fetchCount st) eqn:C.
    2: { exists 0%nat. split; [reflexivity|]. split; [lia | intros j Hj; lia]. }
    unfold continues in C. apply andb_true_iff in C as [C Ht].
    apply andb_true_iff in C as [_ Ha]. apply Nat.ltb_lt in Ha. apply Z.ltb_lt in Ht.
    pose proof (round_rounds w sevenDaysAgo cachedQuery key raw fetchCount
                  (nextAttempt st)) as H1.
    pose proof (round_attempts w sevenDaysAgo cachedQuery key raw fetchCount
                  (nextAttempt st)) as H2.
    destruct (round w sevenDaysAgo cachedQuery key raw fetchCount (nextAttempt st))
      as [[es st1] leave].
    cbn [fst snd nextAttempt attempts] in *.
    destruct leave.
    + exists 1%nat. cbn [fst]. split; [exact H1|]. split; [lia|].
      intros j Hj. replace (attempts st + j)%nat with (attempts st) by lia. exact Ht.
    + destruct (IH st1) as (k & I1 & I2 & I3).
      destruct (discover fuel w sevenDaysAgo cachedQuery key raw fetchCount st1)
        as [es' st2].
      cbn [fst] in *. exists (S k). rewrite llmRounds_app, H1, I1, H2.
      split; [reflexivity|]. split; [lia|].
      intros [|j] Hj.
      * rewrite Nat.add_0_r. exact Ht.
      * replace (attempts st + S j)%nat with (attempts st1 + j)%nat by lia.
        apply I3. lia.
Qed.

Lemma cachedPart_no_model_call (w : world) (st2 : state) :
  llmRounds (fst (fst (cachedPart w (normalizedKeyOf w) (cachedQueryOf w) st2))) = [].
Proof.
  apply llmRounds_none.
  eapply List.Forall_impl; [|exact (proj1 (cachedPart_shape w st2))].
  intros e [(m & ->) | (n & _ & ->)]; exact I.
Qed.

(** X22.  A run calls the model for the rounds 1, 2, 3, ... in this
    order and for at most ten of them, and each round was started less
    than ninety seconds after the loop was entered, by the clock read
    when the round was about to start. *)
Theorem at_most_ten_rounds (w : world) :
  exists k,
    llmRounds (fst (run w)) = seq 1 k /\ (k <= 10)%nat /\
    forall j, (j < k)%nat -> loopNow w j - processStartTime w < 90000.
Proof.
  pose proof (run_parts w) as Hparts. cbn zeta in Hparts.
  pose proof (cachedPart_shape w (tick (tick initialState))) as Hshape.
  cbn zeta in Hshape. destruct Hshape as (_ & Hatt & _).
  pose proof (cachedPart_no_model_call w (tick (tick initialState))) as Hnone.
  destruct (lookupFails w) as [msg|].
  { destruct Hparts as [_ ->]. exists 0%nat.
    rewrite !llmRounds_app, !llmRounds_safeEnqueue.
    split; [reflexivity|]. split; [lia | intros j Hj; lia]. }
  destruct (snd (cachedPart w (normalizedKeyOf w) (cachedQueryOf w)
                   (tick (tick initialState)))) as [msg|].
  { destruct Hparts as [_ ->]. exists 0%nat.
    rewrite !llmRounds_app, !llmRounds_safeEnqueue, Hnone.
    split; [reflexivity|]. split; [lia | intros j Hj; lia]. }
  destruct Hparts as [_ ->].
  rewrite !llmRounds_app, !llmRounds_safeEnqueue, Hnone.
  unfold freshPart. cbv zeta.
  match goal with
  | |- context [discover ?f w ?a ?b ?c ?d ?e ?s] =>
      destruct (discover_rounds w a b c d e f s) as (k & H1 & H2 & H3);
      destruct (discover f w a b c d e s) as [es4 st5]
  end.
  cbn [fst snd attempts appendContent] in *. rewrite Hatt in *.
  cbn [attempts tick initialState] in *.
  exists k. rewrite llmRounds_app, llmRounds_safeEnqueue, H1.
  cbn [llmRounds flat_map app]. rewrite app_nil_r.
  split; [reflexivity|]. split; [lia | exact H3].
Qed.

(** *** A client that has gone *)

Lemma isActive_tick (w : world) (st : state) :
  isActive w st = false -> isActive w (tick st) = false.
Proof.
  unfold isActive. destruct (abortAt w) as [n|]; [|discriminate].
  cbn [awaits tick]. intros H. apply Nat.ltb_ge in H. apply Nat.ltb_ge. lia.
Qed.

Lemma safeEnqueue_gone (w : world) (st : state) (f : frame) :
  isActive w st = false -> safeEnqueue w st f = [].
Proof. intros H. unfold safeEnqueue. rewrite H. reflexivity. Qed.

Lemma round_gone (w : world) sevenDaysAgo cachedQuery key raw fetchCount st :
  isActive w st = false -> llm w (attempts st) <> LlmNoBody ->
  exists st',
    round w sevenDaysAgo cachedQuery key raw fetchCount st
    = ([LlmCall (attempts st) (userContent st)], st', false) /\
    isActive w st' = false /\ fetchedCount st' = fetchedCount st /\
    attempts st' = attempts st.
Proof.
  intros Hgone Hllm. unfold round.
  rewrite (isActive_tick w st Hgone).
  replace (if (1 <? attempts st)%nat then safeEnqueue w st _ else [])
    with (@nil effect)
    by (destruct (1 <? attempts st)%nat; [rewrite safeEnqueue_gone|]; auto).
  cbn [app processCalls linkItems].
  pose proof (isActive_tick w st Hgone) as Ht.
  destruct (llm w (attempts st)); try contradiction.
  1, 2: exists (tick st); auto.
  all: cbn [andb fetchedCount tick];
    destruct (fetchedCount st <? fetchCount);
    eexists; (split; [reflexivity|]); auto.
Qed.

Lemma map_fst_combine {A B} (a : list A) :
  forall b : list B, length a = length b -> List.map fst (combine a b) = a.
Proof.
  induction a as [|x a IH]; intros [|y b] H; try reflexivity; try discriminate.
  cbn. rewrite IH; [reflexivity|]. cbn in H. lia.
Qed.

Lemma discover_gone (w : world) sevenDaysAgo cachedQuery key raw fetchCount :
  (forall k, (k <= 10)%nat -> llm w k <> LlmNoBody) ->
  (forall k, (k < 10)%nat -> loopNow w k - processStartTime w < 90000) ->
  forall fuel st,
    isActive w st = false -> fetchedCount st < fetchCount ->
    (attempts st <= 10)%nat -> (10 - attempts st <= fuel)%nat ->
    exists contents,
      length contents = (10 - attempts st)%nat /\
      fst (discover fuel w sevenDaysAgo cachedQuery key raw fetchCount st)
      = List.map (fun p => LlmCall (fst p) (snd p))
          (combine (seq (S (attempts st)) (10 - attempts st)) contents) /\
      isActive w (snd (discover fuel w sevenDaysAgo cachedQuery key raw fetchCount st))
      = false.
Proof.
  intros Hllm Hclock. induction fuel as [|fuel IH]; intros st Hgone Hcount Ha Hfuel.
  - exists []. replace (10 - attempts st)%nat with 0%nat by lia.
    split; [reflexivity|]. split; [reflexivity | exact Hgone].
  - cbn [discover]. unfold continues.
    destruct (Nat.eq_dec (attempts st) 10%nat) as [E | E].
    + rewrite E. cbn [Nat.ltb Nat.leb]. rewrite andb_false_r. cbn [andb].
      exists []. split; [reflexivity|]. split; [reflexivity | exact Hgone].
    + replace (fetchedCount st <? fetchCount) with true
        by (symmetry; apply Z.ltb_lt; exact Hcount).
      replace (attempts st <? 10)%nat with true
        by (symmetry; apply Nat.ltb_lt; lia).
      replace (loopNow w (attempts st) - processStartTime w <? 90000) with true
        by (symmetry; apply Z.ltb_lt; apply Hclock; lia).
      cbn [andb].
      destruct (round_gone w sevenDaysAgo cachedQuery key raw fetchCount
                  (nextAttempt st) Hgone (Hllm (S (attempts st)) ltac:(lia)))
        as (st1 & -> & G1 & G2 & G3).
      cbn [nextAttempt attempts fetchedCount userContent] in *.
      destruct (IH st1 G1 ltac:(lia) ltac:(lia) ltac:(lia))
        as (contents & L & D & G).
      destruct (discover fuel w sevenDaysAgo cachedQuery key raw fetchCount st1)
        as [es' st2].
      cbn [fst snd] in *. exists (userContent st :: contents).
      replace (10 - attempts st)%nat with (S (10 - attempts st1))%nat by lia.
      cbn [length seq combine List.map fst snd app]. rewrite L, D, G3.
      split; [reflexivity|]. split; [reflexivity | exact G].
Qed.

(** X23.  A client that goes away while the query is normalised or the
    cache is read does not stop the run: nothing more is sent and no
    event is processed or saved, but as long as the model answers and
    ninety seconds have not passed the model is still called for each
    of the ten rounds, since no event is ever counted. *)
Theorem gone_client_costs_ten_rounds (w : world) (n : nat) :
  abortAt w = Some n -> (n <= 2)%nat ->
  outerCatch w = None ->
  (forall k, (k <= 10)%nat -> llm w k <> LlmNoBody) ->
  (forall k, (k < 10)%nat -> loopNow w k - processStartTime w < 90000) ->
  llmRounds (fst (run w)) = seq 1 10 /\
  newsOf (frames (fst (run w))) = [] /\
  (length (frames (fst (run w))) <= 2)%nat /\
  Forall (fun e => match e with
                   | Enqueue _ | NormalizeCall _ | CacheLookup _ | LlmCall _ _ => True
                   | _ => False
                   end) (fst (run w)).
Proof.
  intros Habort Hn Hcatch Hllm Hclock.
  pose proof (run_parts w) as Hparts. cbn zeta in Hparts.
  pose proof (cachedPart_shape w (tick (tick initialState))) as Hshape.
  cbn zeta in Hshape. destruct Hshape as (Hes & Hatt & Hfc & Haw & _).
  rewrite Hcatch in Hparts.
  destruct (lookupFails w) as [msg|]; [destruct Hparts; discriminate|].
  destruct (snd (cachedPart w (normalizedKeyOf w) (cachedQueryOf w)
                   (tick (tick initialState)))) as [msg|];
    [destruct Hparts; discriminate|].
  destruct Hparts as [_ Hrun].
  assert (forall st, (2 <= awaits st)%nat -> isActive w st = false) as Hgone.
  { intros st Hst. unfold isActive. rewrite Habort. apply Nat.ltb_ge. lia. }
  assert (fst (fst (cachedPart w (normalizedKeyOf w) (cachedQueryOf w)
                      (tick (tick initialState)))) = []) as Hc.
  { unfold cachedPart. destruct (cachedQueryOf w) as [q|]; [|reflexivity].
    destruct (sq_items q) as [|item rest]; [reflexivity|].
    rewrite safeEnqueue_gone by (apply Hgone; cbn; lia).
    assert (forall items st, isActive w st = false ->
                             fst (fst (replay w items st)) = []) as Hr.
    { induction items as [|x xs IH]; intros st Hst; cbn [replay]; [reflexivity|].
      destruct (parseCoordinates w (ni_coordinates x)); [|reflexivity].
      assert (isActive w (pushHeadline (ni_headline x) st) = false) as Hst'
        by exact Hst.
      specialize (IH _ Hst'). rewrite (safeEnqueue_gone w _ _ Hst').
      destruct (replay w xs (pushHeadline (ni_headline x) st)) as [[es' st2] thrown].
      cbn [fst app] in *. exact IH. }
    specialize (Hr (item :: rest) (tick (tick initialState))
                  ltac:(apply Hgone; cbn; lia)).
    destruct (replay w (item :: rest) (tick (tick initialState)))
      as [[es st] thrown].
    cbn [fst app] in *. exact Hr. }
  set (st3 := snd (fst (cachedPart w (normalizedKeyOf w) (cachedQueryOf w)
                          (tick (tick initialState))))) in *.
  assert (isActive w st3 = false) as Hst3
    by (apply Hgone; rewrite Haw; cbn; lia).
  assert (exists contents,
            length contents = 10%nat /\
            fst (freshPart w (JS.orElse (queryParam w) "") (normalizedKeyOf w)
                   (snd (normalizeQuery (JS.orElse (queryParam w) "")
                           (normalizeAnswer w)))
                   (cachedQueryOf w) st3)
            = List.map (fun p => LlmCall (fst p) (snd p))
                (combine (seq 1 10) contents) /\
            isActive w
              (snd (freshPart w (JS.orElse (queryParam w) "") (normalizedKeyOf w)
                      (snd (normalizeQuery (JS.orElse (queryParam w) "")
                              (normalizeAnswer w)))
                      (cachedQueryOf w) st3)) = false) as (contents & L & Hfresh & Hend).
  { unfold freshPart. cbv zeta. rewrite (safeEnqueue_gone w st3 _ Hst3).
    match goal with
    | |- context [discover ?f w ?a ?b ?c ?d ?e ?s] =>
        destruct (discover_gone w a b c d e Hllm Hclock f s)
          as (contents & L & D & G);
        [ exact Hst3
        | cbn [fetchedCount appendContent]; rewrite Hfc;
          cbn [fetchedCount tick initialState];
          unfold fetchCountOf, fetchCountFor; lia
        | cbn [attempts appendContent]; rewrite Hatt; cbn; lia
        | cbn [attempts appendContent]; rewrite Hatt; cbn; lia
        | ];
        destruct (discover f w a b c d e s) as [es4 st5]
    end.
    cbn [fst snd attempts appendContent app] in *.
    rewrite Hatt in *. cbn [attempts tick initialState] in *.
    exists contents. split; [exact L|]. split; [exact D | exact G]. }
  rewrite Hrun, Hc, Hfresh, (safeEnqueue_gone w _ Complete Hend).
  cbn [app]. rewrite !app_nil_r.
  assert (forall l, llmRounds (List.map (fun p => LlmCall (fst p) (snd p)) l)
                    = List.map fst l) as Hmap.
  { induction l as [|p l IH]; [reflexivity|]. cbn. rewrite <- IH. reflexivity. }
  assert (forall l, frames (List.map (fun p : nat * string => LlmCall (fst p) (snd p)) l)
                    = []) as Hnof.
  { induction l as [|p l IH]; [reflexivity|]. exact IH. }
  split; [|split; [|split]].
  - rewrite !llmRounds_app, !llmRounds_safeEnqueue. cbn [app llmRounds flat_map].
    rewrite Hmap. apply map_fst_combine. rewrite L. reflexivity.
  - rewrite !frames_app, !newsOf_app, !frames_safeEnqueue_news by exact I.
    cbn [frames flat_map app]. rewrite Hnof. reflexivity.
  - rewrite !frames_app. cbn [frames flat_map app]. rewrite Hnof, app_nil_r.
    destruct (safeEnqueue_cases w initialState (Connected "Connecting..."))
      as [-> | ->];
      destruct (safeEnqueue_cases w initialState (Status "Analyzing query scope..."))
        as [-> | ->]; cbn; lia.
  - repeat (apply Forall_app; split).
    + destruct (safeEnqueue_cases w initialState (Connected "Connecting..."))
        as [-> | ->]; each ltac:(exact I).
    + destruct (safeEnqueue_cases w initialState (Status "Analyzing query scope..."))
        as [-> | ->]; each ltac:(exact I).
    + do 2 (apply List.Forall_cons; [exact I|]).
      apply List.Forall_forall. intros e He. apply in_map_iff in He.
      destruct He as (p & <- & _). exact I.
Qed.

(** *** What is stored, counted and linked *)

Lemma storedIds_app (a b : list effect) :
  storedIds (a ++ b) = storedIds a ++ storedIds b.
Proof. unfold storedIds. apply flat_map_app. Qed.

Lemma storedIds_safeEnqueue (w : world) (st : state) (f : frame) :
  storedIds (safeEnqueue w st f) = [].
Proof. destruct (safeEnqueue_cases w st f) as [-> | ->]; reflexivity. Qed.

Lemma pendingAfter_app (a b : list effect) :
  forall p, pendingAfter p (a ++ b) = pendingAfter (pendingAfter p a) b.
Proof.
  induction a as [|e a IH]; intros p; [reflexivity|].
  destruct e as [f|q|k|at' u|l|q h|n [|]|h l [[x|]|m]|qid b' ids ok|k fnd|qid o k ids ok];
    cbn [app pendingAfter]; apply IH.
Qed.

Lemma linksCarry_app (a b : list effect) :
  forall p, linksCarry p (a ++ b) <-> linksCarry p a /\ linksCarry (pendingAfter p a) b.
Proof.
  induction a as [|e a IH]; intros p; cbn [app linksCarry].
  - cbn [pendingAfter]. tauto.
  - rewrite IH.
    change (pendingAfter p (e :: a)) with (pendingAfter p ([e] ++ a)).
    rewrite pendingAfter_app. tauto.
Qed.

Lemma plain_pending (es : list effect) :
  Forall plain es ->
  forall p, pendingAfter p es = p ++ storedIds es /\ linksCarry p es.
Proof.
  induction 1 as [|e es He Hes IH]; intros p.
  - cbn. rewrite app_nil_r. auto.
  - change (e :: es) with ([e] ++ es).
    rewrite pendingAfter_app, storedIds_app, app_assoc.
    assert (pendingAfter p [e] = p ++ storedIds [e]) as E.
    { destruct e as [f|q|k|at' u|l|q h|n [|]|h l [[x|]|m]|qid b' ids ok|k fnd|qid o k ids ok];
        cbn; rewrite ?app_nil_r; try reflexivity; contradiction. }
    destruct (IH (p ++ storedIds [e])) as [I1 I2]. rewrite E. split; [exact I1|].
    cbn [app linksCarry]. rewrite E. split; [|exact I2].
    destruct e; try exact I; contradiction.
Qed.

Lemma emitAndSave_stores (w : world) (attempt i : nat) (n : newsItem)
  (st : state) (ids : list string) :
  let r := emitAndSave w attempt i n st ids in
  snd r = ids ++ storedIds (fst (fst r)) /\
  fetchedCount (snd (fst r))
  = fetchedCount st + Z.of_nat (length (storedIds (fst (fst r)))).
Proof.
  cbn zeta. unfold emitAndSave.
  destruct (createSucceeds w attempt i);
    [|destruct (findExisting w attempt i) as [[x|]|m]];
    cbn [fst snd]; rewrite !storedIds_app, storedIds_safeEnqueue;
    cbn [storedIds flat_map app length fetchedCount countFetched pushHeadline tick];
    rewrite ?app_nil_r; split; try reflexivity; lia.
Qed.

Lemma processCall_stores (w : world) sevenDaysAgo attempt i call st ids :
  let r := processCall w sevenDaysAgo attempt i call st ids in
  snd r = ids ++ storedIds (fst (fst r)) /\
  fetchedCount (snd (fst r))
  = fetchedCount st + Z.of_nat (length (storedIds (fst (fst r)))).
Proof.
  cbn zeta. unfold processCall.
  assert (forall s : state,
            ids = ids ++ storedIds [] /\
            fetchedCount s = fetchedCount s + Z.of_nat (length (storedIds []))) as Hnone
    by (intros s; cbn; rewrite app_nil_r; split; [reflexivity | lia]).
  destruct call as [a|]; [|apply Hnone].
  destruct (a_headline a) as [h|]; [|apply Hnone].
  destruct (a_location a) as [loc|]; [|apply Hnone].
  destruct (String.eqb h "" || String.eqb loc ""); [apply Hnone|].
  destruct (JS.includes (existingHeadlines st) h); [apply Hnone|].
  destruct (tooOld w sevenDaysAgo (a_timestamp a)); [apply Hnone|].
  destruct (geocodeLocation (photon w attempt i)) as [c|].
  2: { cbn [fst snd]. rewrite storedIds_app, storedIds_safeEnqueue. cbn.
       rewrite app_nil_r. split; [reflexivity | lia]. }
  destruct (JS.truthy (a_search_query a));
    [destruct (fetchRealTweets _ _ _ _) as [tweets|msg]|].
  2: { cbn [fst snd]. rewrite !storedIds_app, !storedIds_safeEnqueue. cbn.
       rewrite app_nil_r. split; [reflexivity | lia]. }
  all: match goal with
       | |- context [emitAndSave ?w' ?a' ?i' ?n ?s ?l] =>
           pose proof (emitAndSave_stores w' a' i' n s l) as Hs;
           destruct (emitAndSave w' a' i' n s l) as [[es4 st4] ids4]
       end; cbn zeta in Hs; cbn [fst snd] in *.
  all: rewrite !storedIds_app, ?storedIds_safeEnqueue.
  all: unfold tweetsStatus;
    try match goal with
        | |- context [(0 <? ?n)%nat] => destruct (0 <? n)%nat
        end; rewrite ?storedIds_safeEnqueue; cbn [storedIds flat_map app] in *.
  all: exact Hs.
Qed.

Lemma processCalls_stores (w : world) sevenDaysAgo attempt calls :
  forall i st ids,
    let r := processCalls w sevenDaysAgo attempt i calls st ids in
    snd r = ids ++ storedIds (fst (fst r)) /\
    fetchedCount (snd (fst r))
    = fetchedCount st + Z.of_nat (length (storedIds (fst (fst r)))).
Proof.
  induction calls as [|call rest IH]; intros i st ids; cbn zeta; cbn [processCalls].
  - cbn. rewrite app_nil_r. split; [reflexivity | lia].
  - pose proof (processCall_stores w sevenDaysAgo attempt i call st ids) as H1.
    destruct (processCall w sevenDaysAgo attempt i call st ids) as [[es st1] ids1].
    pose proof (IH (S i) st1 ids1) as H2.
    destruct (processCalls w sevenDaysAgo attempt (S i) rest st1 ids1)
      as [[es' st2] ids2].
    cbn zeta in *. cbn [fst snd] in *. destruct H1 as [-> H1], H2 as [-> H2].
    rewrite storedIds_app, List.length_app, app_assoc. split; [reflexivity | lia].
Qed.

Lemma processCalls_plain (w : world) sevenDaysAgo attempt calls st ids :
  Forall plain (fst (fst (processCalls w sevenDaysAgo attempt 0 calls st ids))).
Proof.
  destruct (processCalls_shape w [] sevenDaysAgo attempt calls calls 0%nat st ids
              ltac:(intros j c Hj; exact Hj) ltac:(intros x [])) as [H _].
  eapply List.Forall_impl; [|exact H].
  intros e; destruct e as [[| | | |]| | | | | | | | | |]; cbn; auto.
Qed.

Lemma linkItems_stores (w : world) cachedQuery key raw st ids :
  let r := linkItems w cachedQuery key raw st ids in
  linksCarry ids (fst (fst r)) /\ storedIds (fst (fst r)) = [] /\
  fetchedCount (snd (fst r)) = fetchedCount st /\
  llmRounds (fst (fst r)) = [].
Proof.
  cbn zeta. unfold linkItems. destruct ids as [|x ids]; [cbn; auto|].
  destruct cachedQuery as [q|]; [cbn; auto|].
  destruct (existingQuery w (attempts st)) as [[qid|]|msg]; cbn; auto.
Qed.

Lemma round_stores (w : world) sevenDaysAgo cachedQuery key raw fetchCount st :
  let r := round w sevenDaysAgo cachedQuery key raw fetchCount st in
  (forall p, linksCarry p (fst (fst r))) /\
  fetchedCount (snd (fst r))
  = fetchedCount st + Z.of_nat (length (storedIds (fst (fst r)))).
Proof.
  cbn zeta. unfold round.
  set (es0 := if (1 <? attempts st)%nat then _ else _).
  assert (Forall plain es0 /\ storedIds es0 = []) as [Hp0 Hs0].
  { unfold es0. destruct (1 <? attempts st)%nat;
      [|split; [apply List.Forall_nil | reflexivity]].
    rewrite storedIds_safeEnqueue. split; [|reflexivity].
    match goal with
    | |- context [safeEnqueue w st ?f] =>
        destruct (safeEnqueue_cases w st f) as [-> | ->]
    end; each ltac:(exact I). }
  clearbody es0.
  assert (forall p, linksCarry p (es0 ++ [LlmCall (attempts st) (userContent st)]) /\
                    pendingAfter p (es0 ++ [LlmCall (attempts st) (userContent st)]) = [])
    as H1.
  { intros p. destruct (plain_pending es0 Hp0 p) as [E1 E2].
    rewrite linksCarry_app, pendingAfter_app. cbn. auto. }
  assert (storedIds (es0 ++ [LlmCall (attempts st) (userContent st)]) = []) as Hs1
    by (rewrite storedIds_app, Hs0; reflexivity).
  set (es1 := es0 ++ [LlmCall (attempts st) (userContent st)]) in *. clearbody es1.
  assert (forall calls st2, fetchedCount st2 = fetchedCount st ->
            let r :=
              (let '(es2, st3, createdItemsIds) :=
                 processCalls w sevenDaysAgo (attempts st) 0 calls st2 [] in
               let '(es3, st4, ok) :=
                 linkItems w cachedQuery key raw st3 createdItemsIds in
               (es1 ++ es2 ++ es3,
                if ok && (fetchedCount st4 <? fetchCount)
                then appendContent (exclusion (existingHeadlines st4)) st4
                else st4, false)) in
            (forall p, linksCarry p (fst (fst r))) /\
            fetchedCount (snd (fst r))
            = fetchedCount st + Z.of_nat (length (storedIds (fst (fst r))))) as Hp.
  { intros calls st2 E2.
    pose proof (processCalls_stores w sevenDaysAgo (attempts st) calls 0%nat st2 [])
      as H2.
    pose proof (processCalls_plain w sevenDaysAgo (attempts st) calls st2 []) as H2'.
    destruct (processCalls w sevenDaysAgo (attempts st) 0 calls st2 [])
      as [[es2 st3] ids].
    pose proof (linkItems_stores w cachedQuery key raw st3 ids) as H3.
    destruct (linkItems w cachedQuery key raw st3 ids) as [[es3 st4] ok].
    cbn zeta in *. cbn [fst snd app] in *.
    destruct H2 as [-> H2], H3 as (H3 & H3' & H3'' & _). split.
    - intros p. destruct (H1 p) as [L1 L2].
      rewrite !linksCarry_app, L2.
      destruct (plain_pending es2 H2' []) as [E3 E4]. rewrite E3.
      split; [exact L1|]. split; [exact E4 | exact H3].
    - rewrite !storedIds_app, Hs1, H3', app_nil_r. cbn [app].
      destruct (ok && (fetchedCount st4 <? fetchCount));
        cbn [fetchedCount appendContent]; lia. }
  cbn zeta in Hp.
  assert ((forall p, linksCarry p es1) /\
          fetchedCount (tick st) = fetchedCount st + Z.of_nat (length (storedIds es1)))
    as Hstop.
  { split; [intros p; apply H1|]. rewrite Hs1. cbn. lia. }
  destruct (llm w (attempts st)); try exact Hstop;
    destruct (isActive w (tick st)); try exact Hstop;
    try (apply Hp; reflexivity).
Qed.

Lemma discover_stores (w : world) sevenDaysAgo cachedQuery key raw fetchCount fuel :
  forall st,
    let r := discover fuel w sevenDaysAgo cachedQuery key raw fetchCount st in
    (forall p, linksCarry p (fst r)) /\
    fetchedCount (snd r) = fetchedCount st + Z.of_nat (length (storedIds (fst r))).
Proof.
  induction fuel as [|fuel IH]; intros st; cbn zeta; cbn [discover].
  - cbn. split; [auto | lia].
  - destruct (continues w fetchCount st); [|cbn; split; [auto | lia]].
    pose proof (round_stores w sevenDaysAgo cachedQuery key raw fetchCount
                  (nextAttempt st)) as H1.
    destruct (round w sevenDaysAgo cachedQuery key raw fetchCount (nextAttempt st))
      as [[es st1] leave].
    cbn zeta in H1. cbn [fst snd fetchedCount nextAttempt] in H1.
    destruct leave; [exact H1|].
    pose proof (IH st1) as H2.
    destruct (discover fuel w sevenDaysAgo cachedQuery key raw fetchCount st1)
      as [es' st2].
    cbn zeta in H2. cbn [fst snd] in *. destruct H1 as [L1 C1], H2 as [L2 C2].
    split.
    + intros p. apply linksCarry_app. auto.
    + rewrite storedIds_app, List.length_app. lia.
Qed.

Lemma run_stores (w : world) :
  linksCarry [] (fst (run w)) /\
  (outerCatch w = None ->
   fetchedCount (snd (run w)) = Z.of_nat (length (storedIds (fst (run w))))).
Proof.
  assert (forall es, Forall (fun e => match e with
                                      | Enqueue _ | NormalizeCall _ | CacheLookup _ => True
                                      | _ => False
                                      end) es ->
                     Forall plain es /\ storedIds es = []) as Hquiet.
  { induction 1 as [|e es He Hes [IH1 IH2]];
      [split; [apply List.Forall_nil | reflexivity]|].
    change (e :: es) with ([e] ++ es). rewrite storedIds_app, IH2.
    split; [apply List.Forall_cons; [|exact IH1] |];
      destruct e; try contradiction; try exact I; reflexivity. }
  assert (forall st f, Forall (fun e => match e with
                                        | Enqueue _ | NormalizeCall _
                                        | CacheLookup _ => True
                                        | _ => False
                                        end) (safeEnqueue w st f)) as Hf.
  { intros st f. destruct (safeEnqueue_cases w st f) as [-> | ->];
      each ltac:(exact I). }
  pose proof (cachedPart_shape w (tick (tick initialState))) as Hc. cbn zeta in Hc.
  destruct Hc as (Hces & _ & Hcount & _).
  assert (Forall (fun e => match e with
                           | Enqueue _ | NormalizeCall _ | CacheLookup _ => True
                           | _ => False
                           end)
            (fst (fst (cachedPart w (normalizedKeyOf w) (cachedQueryOf w)
                         (tick (tick initialState)))))) as Hces'.
  { eapply List.Forall_impl; [|exact Hces].
    intros e [(m & ->) | (n & _ & ->)]; exact I. }
  unfold run, outerCatch. rewrite tryBody_parts. cbv zeta.
  fold (normalizedKeyOf w).
  change (findFirstCached (table w) (normalizedKeyOf w) (nowSixHours w - SIX_HOURS)
            (nowSevenDays w - SEVEN_DAYS)) with (cachedQueryOf w).
  set (es0 := safeEnqueue w initialState (Connected "Connecting...") ++
              safeEnqueue w initialState (Status "Analyzing query scope...")).
  assert (Forall (fun e => match e with
                           | Enqueue _ | NormalizeCall _ | CacheLookup _ => True
                           | _ => False
                           end) es0) as H0
    by (apply Forall_app; split; apply Hf).
  clearbody es0.
  destruct (lookupFails w) as [msg|].
  { cbn [fst snd]. split; [|discriminate].
    match goal with
    | |- linksCarry [] ?l =>
        assert (Forall (fun e => match e with
                                 | Enqueue _ | NormalizeCall _ | CacheLookup _ => True
                                 | _ => False
                                 end) l) as Hall
    end.
    { repeat (apply Forall_app; split); try apply Hf; try exact H0;
        each ltac:(exact I). }
    exact (proj2 (plain_pending _ (proj1 (Hquiet _ Hall)) [])). }
  destruct (cachedPart w (normalizedKeyOf w) (cachedQueryOf w) (tick (tick initialState)))
    as [[es2 st3] [msg|]]; cbn [fst snd] in *.
  { split; [|discriminate].
    match goal with
    | |- linksCarry [] ?l =>
        assert (Forall (fun e => match e with
                                 | Enqueue _ | NormalizeCall _ | CacheLookup _ => True
                                 | _ => False
                                 end) l) as Hall
    end.
    { repeat (apply Forall_app; split); try apply Hf; try exact H0; try exact Hces';
        each ltac:(exact I). }
    exact (proj2 (plain_pending _ (proj1 (Hquiet _ Hall)) [])). }
  unfold freshPart. cbv zeta.
  match goal with
  | |- context [discover ?f w ?a ?b ?c ?d ?e ?s] =>
      pose proof (discover_stores w a b c d e f s) as Hd;
      destruct (discover f w a b c d e s) as [es4 st5]
  end.
  cbn zeta in Hd. cbn [fst snd fetchedCount appendContent] in *.
  destruct Hd as [Hl Hn].
  match goal with
  | |- context [safeEnqueue w st3 (Status ?m)] =>
      pose proof (Hf st3 (Status m)) as H3; set (es3 := safeEnqueue w st3 (Status m)) in *
  end.
  clearbody es3.
  pose proof (Hf st5 Complete) as H5. set (es5 := safeEnqueue w st5 Complete) in *.
  clearbody es5.
  destruct (Hquiet _ H0) as [P0 S0]. destruct (Hquiet _ Hces') as [P2 S2].
  destruct (Hquiet _ H3) as [P3 S3]. destruct (Hquiet _ H5) as [P5 S5].
  split.
  - rewrite !linksCarry_app. split; [apply plain_pending, P0|].
    split; [|apply plain_pending, P5].
    split; [cbn; auto|]. split; [apply plain_pending, P2|].
    split; [apply plain_pending, P3 | apply Hl].
  - intros _. rewrite !storedIds_app, S0, S2, S3, S5, app_nil_r. cbn [app storedIds flat_map].
    rewrite Hn, Hcount. cbn. lia.
Qed.

(** X24.  At the end of a run that no exception ended, the number of
    events the loop has counted is the number of items the run stored:
    one for each save that succeeded and one for each failed save after
    which a row with the same headline and location was found.  A
    [news] frame alone counts for nothing. *)
Theorem counted_events_are_the_stored_ones (w : world) :
  outerCatch w = None ->
  fetchedCount (snd (run w)) = Z.of_nat (length (storedIds (fst (run w)))).
Proof. exact (proj2 (run_stores w)). Qed.

(** X25.  Every write that links items to the record of the query
    carries the identifiers of the items stored since the model was
    last called, all of them and in the order they were stored: the
    items of one round, and of that round only. *)
Theorem links_carry_the_items_of_the_round (w : world) :
  linksCarry [] (fst (run w)).
Proof. exact (proj1 (run_stores w)). Qed.


(** *** The further properties on concrete runs *)

Import Scenarios MoreScenarios.

Lemma event_time_is_the_processing_clock_witness :
  In (DbCreate declared true) (fst (run declares)) /\
  exists attempt i calls a,
    llm declares attempt = LlmCalls calls /\ nth_error calls i = Some (Some a) /\
    a_headline a = Some (headline declared) /\
    a_location a = Some (location declared) /\
    tooOld declares (nowSevenDays declares - SEVEN_DAYS) (a_timestamp a) = false /\
    id declared = randomUUID declares attempt i /\
    timestamp declared = IsoOf (itemNow declares attempt i).
Proof.
  assert (In (DbCreate declared true) (fst (run declares))) as H
    by (vm_compute; pick).
  split; [exact H|].
  exact (proj1 (event_time_is_the_processing_clock declares) declared true H).
Defined.

Lemma counted_events_are_the_stored_ones_witness :
  fetchedCount (snd (run reportedTwice))
  = Z.of_nat (length (storedIds (fst (run reportedTwice)))).
Proof.
  apply (counted_events_are_the_stored_ones reportedTwice).
  vm_compute. reflexivity.
Defined.

Lemma rate_limit_stops_the_search_witness :
  rateLimited (limitedFirst 0 (cleanQuery "city earthquake")) = true /\
  fetchRealTweets (Some "x-token") limitedFirst "city earthquake"
    (Some "Strong earthquake") = Returned [].
Proof.
  split; [reflexivity|].
  apply (rate_limit_stops_the_search (Some "x-token") limitedFirst "city earthquake"
           (Some "Strong earthquake") 0 "city earthquake").
  - vm_compute. reflexivity.
  - reflexivity.
  - intros j' v' H. lia.
Defined.

Lemma saved_events_were_reported_witness :
  exists attempt i calls a,
    llm cached attempt = LlmCalls calls /\ nth_error calls i = Some (Some a) /\
    reportedAt cached (nowSevenDays cached - SEVEN_DAYS) attempt i a firstFresh /\
    category firstFresh <> "".
Proof.
  apply (saved_events_were_reported cached firstFresh true).
  vm_compute. do 11 right. left. reflexivity.
Defined.

Lemma cached_headlines_are_not_fetched_again_witness :
  (forall n ok, In (DbCreate n ok) (fst (run cached)) ->
                headline n <> ni_headline recentRow) /\
  (forall n, In (Enqueue (News n)) (fst (run cached)) ->
             headline n = ni_headline recentRow -> replayed cached n).
Proof.
  apply (cached_headlines_are_not_fetched_again cached foundRecord recentRow).
  - vm_compute. reflexivity.
  - left. reflexivity.
Defined.


Lemma cached_items_come_first_witness :
  exists sent rest,
    newsOf (frames (fst (run cached))) = sent ++ rest /\
    Forall2 (fun item n =>
               exists c, parseCoordinates cached (ni_coordinates item) = Some c /\
                         n = cachedItem cached c item)
      (sq_items foundRecord) sent /\
    Forall (fresh cached (nowSevenDays cached - SEVEN_DAYS)
              (List.map ni_headline (sq_items foundRecord))) rest.
Proof.
  apply (cached_items_come_first cached foundRecord).
  - reflexivity.
  - reflexivity.
  - vm_compute. reflexivity.
  - intros item _. discriminate.
Defined.

Lemma unreadable_cached_item_ends_the_run_witness :
  outerCatch unreadable = Some "SyntaxError" /\
  llmRounds (fst (run unreadable)) = [] /\
  Forall (fun e => match e with
                   | Enqueue _ | NormalizeCall _ | CacheLookup _ => True
                   | _ => False
                   end) (fst (run unreadable)) /\
  (abortAt unreadable = None ->
   exists before, frames (fst (run unreadable)) = before ++ [Error "SyntaxError"]).
Proof.
  apply (unreadable_cached_item_ends_the_run unreadable foundRecord recentRow).
  - reflexivity.
  - vm_compute. reflexivity.
  - left. reflexivity.
  - reflexivity.
Defined.

Lemma gone_client_costs_ten_rounds_witness :
  llmRounds (fst (run gone)) = seq 1 10 /\
  newsOf (frames (fst (run gone))) = [] /\
  (length (frames (fst (run gone))) <= 2)%nat /\
  Forall (fun e => match e with
                   | Enqueue _ | NormalizeCall _ | CacheLookup _ | LlmCall _ _ => True
                   | _ => False
                   end) (fst (run gone)).
Proof.
  apply (gone_client_costs_ten_rounds gone 1).
  - reflexivity.
  - lia.
  - vm_compute. reflexivity.
  - intros k _. discriminate.
  - intros k Hk. cbn. lia.
Defined.

End BreakingNewsMoreFacts.


(** ** Facts about the map page *)

Module ClientFacts.
Import BreakingNews BreakingNewsFacts Client.

Lemma distinctStories_snoc (l : list newsItem) (news : newsItem) :
  distinctStories l -> existsb (sameStory news) l = false ->
  distinctStories (l ++ [news]).
Proof.
  induction l as [|item rest IH]; intros Hd He; cbn [app distinctStories].
  - split; [apply List.Forall_nil | exact I].
  - cbn [existsb] in He. apply orb_false_iff in He. destruct He as [He1 He2].
    destruct Hd as [Hd1 Hd2]. split; [|apply IH; assumption].
    apply Forall_app. split; [exact Hd1|].
    apply List.Forall_cons; [exact He1 | apply List.Forall_nil].
Qed.

Lemma onmessage_keeps (v : view) (f : frame) :
  distinctStories (newsItems v) ->
  distinctStories (newsItems (onmessage v f)) /\
  exists added, newsItems (onmessage v f) = newsItems v ++ added /\
                sublist added (newsOf [f]).
Proof.
  intros Hd. destruct f as [m|m|news|m|]; cbn [onmessage newsItems newsOf flat_map app].
  1, 2, 4, 5: split; [exact Hd|]; exists []; rewrite app_nil_r;
    split; [reflexivity | apply sublist_nil_l].
  destruct (existsb (sameStory news) (newsItems v)) eqn:E.
  - split; [exact Hd|]. exists []. rewrite app_nil_r.
    split; [reflexivity | apply sublist_nil_l].
  - split; [apply distinctStories_snoc; assumption|].
    exists [news]. split; reflexivity.
Qed.

(** X26.  Whatever frames arrive, the list of events the page shows
    never holds the same story twice: no two of its items have the same
    non-empty identifier, or the same headline and location.  The list
    only grows, by items of the [news] frames in the order they came. *)
Theorem shown_events_are_distinct (v : view) (fs : list frame) :
  distinctStories (newsItems v) ->
  distinctStories (newsItems (deliver v fs)) /\
  exists added, newsItems (deliver v fs) = newsItems v ++ added /\
                sublist added (newsOf fs).
Proof.
  revert v. induction fs as [|f rest IH]; intros v Hd; cbn [deliver].
  - split; [exact Hd|]. exists []. rewrite app_nil_r.
    split; [reflexivity | apply sublist_nil_l].
  - destruct (closed v).
    + split; [exact Hd|]. exists []. rewrite app_nil_r.
      split; [reflexivity | apply sublist_nil_l].
    + destruct (onmessage_keeps v f Hd) as (H1 & a1 & E1 & S1).
      destruct (IH (onmessage v f) H1) as (H2 & a2 & E2 & S2).
      split; [exact H2|]. exists (a1 ++ a2). rewrite E2, E1, <- app_assoc.
      split; [reflexivity|].
      change (f :: rest) with ([f] ++ rest). rewrite newsOf_app.
      apply sublist_app; assumption.
Qed.

Lemma deliver_ordinary (fs : list frame) :
  Forall (fun f => ordinary f = true) fs ->
  forall v, closed v = false ->
    closed (deliver v fs) = false /\ loading (deliver v fs) = loading v.
Proof.
  induction 1 as [|f rest Hf Hrest IH]; intros v Hv; cbn [deliver]; [auto|].
  rewrite Hv.
  destruct f as [m|m|news|m|]; try discriminate;
    match goal with
    | |- context [deliver (onmessage v ?f) rest] =>
        destruct (IH (onmessage v f) Hv) as [H1 H2]
    end; auto.
Qed.

Lemma deliver_app (a b : list frame) (v : view) :
  deliver v (a ++ b) = deliver (deliver v a) b.
Proof.
  revert v. induction a as [|f a IH]; intros v; cbn [app deliver]; [reflexivity|].
  destruct (closed v) eqn:E; [|apply IH].
  destruct b as [|g b]; cbn [deliver]; [reflexivity|]. rewrite E. reflexivity.
Qed.

(** X27.  A page that stays connected to a run of the discovery stream
    always leaves the loading state: it handles every frame of the run,
    the last one closes the event source, and the status then tells
    that the stories were loaded or gives the error the run ended
    with. *)
Theorem page_stops_loading (w : world) :
  abortAt w = None ->
  let v := deliver fetchBreakingNews (frames (fst (run w))) in
  loading v = false /\ closed v = true /\
  status v = match outerCatch w with
             | Some message => "Error: " +:+ JS.orElse (Some message) "Unknown error"
             | None => "Loaded breaking news stories"
             end.
Proof.
  intros Hc. cbn zeta. unfold run, outerCatch.
  pose proof (tryBody_ordinary w) as Hb.
  destruct (tryBody w (JS.orElse (queryParam w) "") initialState)
    as [[es st] thrown].
  cbn [fst snd] in *.
  assert (forall final,
            ordinary final = false ->
            deliver fetchBreakingNews
              (frames ((safeEnqueue w initialState (Connected "Connecting...") ++
                        safeEnqueue w initialState (Status "Analyzing query scope..."))
                       ++ es ++ safeEnqueue w st final))
            = onmessage
                (deliver fetchBreakingNews
                   ([Connected "Connecting..."; Status "Analyzing query scope..."]
                    ++ frames es)) final /\
            closed (deliver fetchBreakingNews
                      ([Connected "Connecting..."; Status "Analyzing query scope..."]
                       ++ frames es)) = false) as Hrun.
  { intros final Hfinal.
    rewrite !(safeEnqueue_connected w _ _ Hc), !frames_app.
    change (frames [Enqueue (Connected "Connecting...")] ++
            frames [Enqueue (Status "Analyzing query scope...")])
      with [Connected "Connecting..."; Status "Analyzing query scope..."].
    change (frames [Enqueue final]) with [final].
    rewrite app_assoc, deliver_app.
    destruct (deliver_ordinary
                ([Connected "Connecting..."; Status "Analyzing query scope..."]
                 ++ frames es)
                ltac:(apply Forall_app; split;
                      [each ltac:(reflexivity) | apply frames_ordinary, Hb])
                fetchBreakingNews eq_refl) as [H1 _].
    split; [|exact H1]. cbn [deliver]. rewrite H1. reflexivity. }
  destruct thrown as [msg|]; cbn [fst].
  - destruct (Hrun (Error msg) eq_refl) as [-> _]. cbn. auto.
  - destruct (Hrun Complete eq_refl) as [-> _]. cbn. auto.
Qed.


(** *** The properties on concrete streams *)

Import Scenarios MoreScenarios.

Lemma shown_events_are_distinct_witness :
  distinctStories
    (newsItems (deliver fetchBreakingNews
                  [News firstFresh; Status "Scanning"; News firstFresh; Complete])) /\
  exists added,
    newsItems (deliver fetchBreakingNews
                 [News firstFresh; Status "Scanning"; News firstFresh; Complete])
    = newsItems fetchBreakingNews ++ added /\
    sublist added
      (newsOf [News firstFresh; Status "Scanning"; News firstFresh; Complete]).
Proof.
  apply (shown_events_are_distinct fetchBreakingNews
           [News firstFresh; Status "Scanning"; News firstFresh; Complete]).
  exact I.
Defined.

Lemma page_stops_loading_witness :
  loading (deliver fetchBreakingNews (frames (fst (run cached)))) = false /\
  closed (deliver fetchBreakingNews (frames (fst (run cached)))) = true /\
  status (deliver fetchBreakingNews (frames (fst (run cached)))) =
    match outerCatch cached with
    | Some message => "Error: " +:+ JS.orElse (Some message) "Unknown error"
    | None => "Loaded breaking news stories"
    end.
Proof.
  apply (page_stops_loading cached). reflexivity.
Defined.

End ClientFacts.
